(** * Dynamic context loading: registry, loader state machine and dispatch

    A shallow embedding of [dcl_function_calling.py] (flat mode, one
    [loader] action) and [dcl_mcp.py] (tools partitioned by MCP server,
    actions [load_tool_summaries] and [load_tools]).

    Module-level globals of the Python code ([TOOL_REGISTRY],
    [active_tools], [LOADER_STATE], ...) become fields of an explicit
    state record that every operation receives and returns.  Python
    dictionaries used as maps are [gmap]s; dictionaries whose content is
    produced by the summarising model are association lists in insertion
    order.  Code that can raise returns a [result]. *)

From Stdlib Require Import String Ascii ZArith.
From stdpp Require Import base option list gmap strings.

Local Open Scope string_scope.
Local Open Scope list_scope.
#[local] Set Warnings "-register-all".

(** ** Python values and exceptions *)

(** Values as [json.loads] produces them.  Numbers are kept as integers:
    nothing here computes with them. *)
Inductive pyval : Type :=
| PNone
| PBool (b : bool)
| PNum (z : Z)
| PStr (s : string)
| PList (l : list pyval)
| PDict (d : list (string * pyval)).

Inductive exn : Type :=
| TypeError
| AttributeError
| JSONDecodeError
| OtherError (msg : string)
| CancelledError.

(** [isinstance(e, Exception)]: what [except Exception] catches.
    [asyncio.CancelledError] derives from [BaseException] only. *)
Definition is_Exception (e : exn) : bool :=
  match e with
  | CancelledError => false
  | _ => true
  end.

Inductive result (A : Type) : Type :=
| Ret (a : A)
| Raise (e : exn).
Arguments Ret {A} a.
Arguments Raise {A} e.

(** [isinstance(v, list)] *)
Definition is_list (v : pyval) : bool :=
  match v with PList _ => true | _ => false end.

(** ** Dictionaries in insertion order *)

Section dict.
Context {V : Type}.

Definition dict_get (d : list (string * V)) (k : string) : option V :=
  snd <$> List.find (λ kv, String.eqb k (fst kv)) d.

(** [k in d] *)
Definition dict_mem (d : list (string * V)) (k : string) : bool :=
  bool_decide (k ∈ d.*1).

(** [d[k] = v]: overwrite in place, or append a new key. *)
Fixpoint dict_set (d : list (string * V)) (k : string) (v : V) : list (string * V) :=
  match d with
  | [] => [(k, v)]
  | (k', v') :: d' =>
      if String.eqb k k' then (k, v) :: d' else (k', v') :: dict_set d' k v
  end.
End dict.

(** ** Text helpers *)

(** [sep.join(l)] on a list of [str]. *)
Definition join (sep : string) (l : list string) : string := String.concat sep l.

(** [sep.join(l)] on arbitrary values: [TypeError] unless every item is a
    [str]. *)
Definition as_str (v : pyval) : option string :=
  match v with PStr s => Some s | _ => None end.

Definition join_vals (sep : string) (l : list pyval) : result string :=
  match mapM as_str l with
  | Some ss => Ret (join sep ss)
  | None => Raise TypeError
  end.

(** [desc[:100] + "..." if len(desc) > 100 else desc] *)
Definition truncate_description (desc : string) : string :=
  if Nat.ltb 100 (String.length desc)
  then String.substring 0 100 desc +:+ "..."
  else desc.

(** The outcome of one [completion(...)] request, as far as the brief
    generators look at it. *)
Inductive Completion : Type :=
| CompletionRaises (e : exn)
    (** the request itself raised *)
| ResponseMalformed
    (** [response.choices[0].message.content] cannot be read *)
| ResponseContent (content : option string).
    (** [None], or the text the model returned *)

(** ** Tool calls and their results *)

(** A request of the model to call a tool: [tool_call.id],
    [tool_call.function.name], [tool_call.function.arguments]. *)
Record ToolCall : Type := {
  call_id : string;
  call_name : string;
  call_arguments : string;
}.

Record Message : Type := {
  role : string;
  tool_call_id : string;
  content : string;
}.

Definition tool_message (call : ToolCall) (result : string) : Message :=
  {| role := "tool"; tool_call_id := call_id call; content := result |}.

(** A tool body that was run, with the keyword arguments it received. *)
Inductive Event : Type :=
| Invoked (name : string) (kwargs : list (string * pyval)).

(** ** The conversation with the model *)

(** One answer of the model to a [completion] request. *)
Inductive Reply : Type :=
| ReplyRaises (e : exn)
    (** the request, or reading the response, raised *)
| ReplyWithoutMessage
    (** reading [response.choices[0].message] raised [AttributeError] *)
| AssistantMessage (text : string) (tool_calls : list ToolCall).

(** An element of [messages]. *)
Inductive Entry : Type :=
| UserEntry (text : string)
| AssistantEntry (text : string) (tool_calls : list ToolCall)
| ToolEntry (m : Message).

(** How the loop of [main] ends. *)
Inductive Status : Type :=
| Finished
    (** an answer without tool calls: [break] *)
| Stopped
    (** ["Error in response handling"]: [break] *)
| Crashed (e : exn)
    (** an exception left [main] *)
| Waiting.
    (** the answers known so far are used up; the loop goes on *)

(** How the requests of a conversation relate, in both programs: those
    sent from some state on start with the active names of that state, and
    each offers what the one before it offered, and possibly more. *)
Section offers.
Context {Request State : Type}.
Variable names_of : Request → list string.
Variable active : State → list string.

Definition offers_grow (st : State) (new : list Request) : Prop :=
  (∀ r, r ∈ new → ∃ k, names_of r = active st ++ k) ∧
  (∀ i r1 r2, new !! i = Some r1 → new !! S i = Some r2 →
              ∃ k, names_of r2 = names_of r1 ++ k) ∧
  (∀ r, head new = Some r → names_of r = active st).

End offers.

(** ** Flat mode: [dcl_function_calling.py] *)

Module FunctionCalling.

(** [definition["function"]] of a tool. *)
Record ToolDefinition : Type := {
  fn_name : string;
  fn_description : string;
  fn_parameters : pyval;
}.

(** What [tool.function] is: the body of an ordinary tool, a function of
    its keyword arguments, or the loader's [loader_execute] closure. *)
Inductive ToolFunction : Type :=
| LocalFunction (f : list (string * pyval) → result string)
| LoaderFunction.

Record Tool : Type := {
  definition : ToolDefinition;
  function : ToolFunction;
}.

Record State : Type := {
  TOOL_REGISTRY : gmap string Tool;
  active_tools : list ToolDefinition;
}.

(** [Tool.__init__]: [TOOL_REGISTRY[definition["function"]["name"]] = self] *)
Definition register (t : Tool) (reg : gmap string Tool) : gmap string Tool :=
  <[fn_name (definition t) := t]> reg.

Definition active_tool_names (st : State) : list string :=
  fn_name <$> active_tools st.

(** A run of [Tool(...)] constructions, in program order. *)
Definition register_all (ts : list Tool) (reg : gmap string Tool) : gmap string Tool :=
  foldl (λ reg t, register t reg) reg ts.

(** *** [generate_briefs] *)

Section briefs.
(** [json.loads]: [None] when it raises. *)
Variable json_loads : string → option pyval.
(** [str.strip] *)
Variable strip : string → string.

(** The [except] branch: every registered name of [tools_list] gets its
    own description, cut at 100 characters. *)
Definition fallback_briefs (reg : gmap string Tool) (tools_list : list string)
  : list (string * pyval) :=
  foldl (λ briefs tool_name,
           match reg !! tool_name with
           | Some tool =>
               dict_set briefs tool_name
                 (PStr (truncate_description (fn_description (definition tool))))
           | None => briefs
           end) [] tools_list.

Definition generate_briefs (reg : gmap string Tool) (tools_list : list string)
    (response : Completion) : result pyval :=
  match tools_list with
  | [] => Ret (PDict [])
  | _ =>
      let tool_definitions := omap (λ n, definition <$> reg !! n) tools_list in
      match tool_definitions with
      | [] => Ret (PDict [])
      | _ =>
          match response with
          | CompletionRaises e => Raise e
          | ResponseMalformed => Ret (PDict (fallback_briefs reg tools_list))
          | ResponseContent None => Ret PNone
          | ResponseContent (Some result_text) =>
              if String.eqb result_text "" then Ret PNone
              else match json_loads (strip result_text) with
                   | Some briefs => Ret briefs
                   | None => Ret (PDict (fallback_briefs reg tools_list))
                   end
          end
      end
  end.
End briefs.

(** *** The loader tool *)

(** The three lists [loader_execute] accumulates. *)
Record Report : Type := {
  activated : list string;
  failed : list pyval;
  errors : list string;
}.

Definition empty_report : Report :=
  {| activated := []; failed := []; errors := [] |}.
Definition add_activated (r : Report) (name : string) : Report :=
  {| activated := activated r ++ [name]; failed := failed r; errors := errors r |}.
Definition add_failed (r : Report) (name : pyval) : Report :=
  {| activated := activated r; failed := failed r ++ [name]; errors := errors r |}.
Definition add_error (r : Report) (msg : string) : Report :=
  {| activated := activated r; failed := failed r; errors := errors r ++ [msg] |}.

(** The [for name in tool_names] loop.  [snapshot] is
    [active_tool_names], computed once before the loop; [act] is the
    global [active_tools], which the loop appends to.  A list or a
    dictionary among the names has no hash: it is not in [snapshot], and
    [name not in briefs] raises [TypeError]; what was appended before stays
    appended.  Any other value that is not a string is in neither and goes
    to [failed]. *)
Fixpoint activate_loop (reg : gmap string Tool) (briefs : list (string * pyval))
    (snapshot : list string) (tool_names : list pyval)
    (act : list ToolDefinition) (rep : Report)
  : list ToolDefinition * result Report :=
  match tool_names with
  | [] => (act, Ret rep)
  | name :: rest =>
      match name with
      | PStr s =>
          if bool_decide (s ∈ snapshot) then
            activate_loop reg briefs snapshot rest act
              (add_error rep (s +:+ " already loaded."))
          else if negb (dict_mem briefs s) then
            activate_loop reg briefs snapshot rest act (add_failed rep name)
          else
            match reg !! s with
            | Some tool =>
                activate_loop reg briefs snapshot rest
                  (act ++ [definition tool]) (add_activated rep s)
            | None =>
                activate_loop reg briefs snapshot rest act (add_failed rep name)
            end
      | PList _ | PDict _ => (act, Raise TypeError)
      | _ => activate_loop reg briefs snapshot rest act (add_failed rep name)
      end
  end.

(** The response text built after the loop. *)
Definition render_report (rep : Report) : result string :=
  let response :=
    match activated rep with
    | [] => "No tools activated."
    | _ => "Activated tools: " +:+ join ", " (activated rep) +:+ "."
    end in
  let tail (response : string) : string :=
    let response := response +:+ " They are now available for use in the next message." in
    match errors rep with
    | [] => response
    | _ => response +:+ "Errors: " +:+ join ", " (errors rep)
    end in
  match failed rep with
  | [] => Ret (tail response)
  | _ =>
      match join_vals ", " (failed rep) with
      | Ret names => Ret (tail (response +:+ " Failed to activate: " +:+ names +:+ "."))
      | Raise e => Raise e
      end
  end.

Definition set_active_tools (st : State) (act : list ToolDefinition) : State :=
  {| TOOL_REGISTRY := TOOL_REGISTRY st; active_tools := act |}.

(** The loop as [loader_execute] starts it. *)
Definition activation (briefs : list (string * pyval)) (st : State)
    (names : list pyval) : list ToolDefinition * result Report :=
  activate_loop (TOOL_REGISTRY st) briefs (active_tool_names st) names
    (active_tools st) empty_report.

(** [loader_execute(tool_names)]; [briefs] is the dictionary the closure
    captured when [create_loader_tool] ran. *)
Definition loader_execute (briefs : list (string * pyval)) (st : State)
    (tool_names : pyval) : State * result string :=
  match tool_names with
  | PList names =>
      let '(act, r) := activation briefs st names in
      (set_active_tools st act,
       match r with
       | Ret rep => render_report rep
       | Raise e => Raise e
       end)
  | _ => (st, Ret "Error: tool_names must be a list of strings.")
  end.

(** *** Dispatch: the body of [for tool_call in message.tool_calls] *)

Record Dispatched : Type := {
  state_after : State;
  appended : list Message;
  invoked : list Event;
  raised : option exn;
}.

Section dispatch.
Variable json_loads : string → option pyval.
Variable briefs : list (string * pyval).

Definition crash (st : State) (e : exn) : Dispatched :=
  {| state_after := st; appended := []; invoked := []; raised := Some e |}.

Definition after_loader (call : ToolCall) (out : State * result string) : Dispatched :=
  match out with
  | (st', Ret result) =>
      {| state_after := st'; appended := [tool_message call result];
         invoked := []; raised := None |}
  | (st', Raise e) => crash st' e
  end.

(** [tool.function] called with the decoded payload as keyword
    arguments. *)
Definition call_function (st : State) (call : ToolCall) (tool : Tool)
    (kwargs : list (string * pyval)) : Dispatched :=
  match function tool with
  | LocalFunction f =>
      match f kwargs with
      | Ret result =>
          {| state_after := st; appended := [tool_message call result];
             invoked := [Invoked (call_name call) kwargs]; raised := None |}
      | Raise e =>
          {| state_after := st; appended := [];
             invoked := [Invoked (call_name call) kwargs]; raised := Some e |}
      end
  | LoaderFunction =>
      match kwargs with
      | [(k, tool_names)] =>
          if String.eqb k "tool_names"
          then after_loader call (loader_execute briefs st tool_names)
          else crash st TypeError
      | _ => crash st TypeError
      end
  end.

Definition dispatch (st : State) (call : ToolCall) : Dispatched :=
  if String.eqb (call_name call) "loader" then
    match json_loads (call_arguments call) with
    | None => crash st JSONDecodeError
    | Some (PDict d) =>
        let tool_names := default (PList []) (dict_get d "tool_names") in
        after_loader call (loader_execute briefs st tool_names)
    | Some _ => crash st AttributeError
    end
  else
    match TOOL_REGISTRY st !! call_name call with
    | Some tool =>
        match json_loads (call_arguments call) with
        | None => crash st JSONDecodeError
        | Some (PDict kwargs) => call_function st call tool kwargs
        | Some _ => crash st TypeError
        end
    | None =>
        {| state_after := st; appended := []; invoked := []; raised := None |}
    end.

(** Everything that touches the state once the conversation runs. *)
Inductive Op : Type :=
| OpLoader (tool_names : pyval)
| OpToolCall (call : ToolCall).

Definition run_op (st : State) (op : Op) : State :=
  match op with
  | OpLoader tool_names => fst (loader_execute briefs st tool_names)
  | OpToolCall call => state_after (dispatch st call)
  end.

Definition run_ops (st : State) (ops : list Op) : State := foldl run_op st ops.
End dispatch.

(** [active_tools.append(loader_tool.definition)] at the top of [main]. *)
Definition start_conversation (st : State) (loader_tool : Tool) : State :=
  set_active_tools st (active_tools st ++ [definition loader_tool]).

(** *** The example tools of the module *)

Definition string_parameter (name description : string) : pyval :=
  PDict [("type", PStr "object");
         ("properties",
          PDict [(name, PDict [("type", PStr "string");
                              ("description", PStr description)])]);
         ("required", PList [PStr name])].

Definition CALC_DEFINITION : ToolDefinition :=
  {| fn_name := "calculator";
     fn_description := "Performs mathematical calculations.";
     fn_parameters :=
       string_parameter "expression"
         "The mathematical expression to evaluate (e.g., '2 + 2')." |}.

Definition WEATHER_DEFINITION : ToolDefinition :=
  {| fn_name := "get_weather";
     fn_description := "Gets the current weather for a location.";
     fn_parameters :=
       string_parameter "location"
         "The location to get weather for (e.g., 'New York')." |}.

Definition LOADER_TOOL_DEFINITION (description : string) : ToolDefinition :=
  {| fn_name := "loader";
     fn_description := description;
     fn_parameters :=
       PDict [("type", PStr "object");
              ("properties",
               PDict [("tool_names",
                       PDict [("type", PStr "array");
                              ("items", PDict [("type", PStr "string")]);
                              ("description",
                               PStr "List of tool names to activate and add to context.")])]);
              ("required", PList [PStr "tool_names"])] |}.

Definition BASH_DEFINITION : ToolDefinition :=
  {| fn_name := "bash";
     fn_description := "Executes bash commands with security checks and timeout.";
     fn_parameters := string_parameter "command" "The bash command to execute." |}.

Definition READ_DEFINITION : ToolDefinition :=
  {| fn_name := "read";
     fn_description := "Reads files from the local filesystem.";
     fn_parameters := string_parameter "file_path" "The path to the file to read." |}.

(** The four [example_..._tool()] calls of the module, in order; the
    bodies of the tools are left to the caller. *)
Definition example_tools
    (bash_execute read_execute calculate_execute get_weather_execute :
       list (string * pyval) → result string) : list Tool :=
  [ {| definition := BASH_DEFINITION; function := LocalFunction bash_execute |};
    {| definition := READ_DEFINITION; function := LocalFunction read_execute |};
    {| definition := CALC_DEFINITION; function := LocalFunction calculate_execute |};
    {| definition := WEATHER_DEFINITION;
       function := LocalFunction get_weather_execute |} ].

(** *** The branch a requested name takes *)

(** What the loop of [loader_execute] does with a string, given the
    active names it saw before the loop. *)
Inductive Fate : Type :=
| AlreadyLoaded
| NotActivated
| Activate (tool : Tool).

Definition fate (reg : gmap string Tool) (briefs : list (string * pyval))
    (snapshot : list string) (s : string) : Fate :=
  if bool_decide (s ∈ snapshot) then AlreadyLoaded
  else if negb (dict_mem briefs s) then NotActivated
  else match reg !! s with
       | Some tool => Activate tool
       | None => NotActivated
       end.

Definition activated_of (f : string → Fate) (names : list string) : list string :=
  omap (λ s, match f s with Activate _ => Some s | _ => None end) names.
Definition definitions_of (f : string → Fate) (names : list string)
  : list ToolDefinition :=
  omap (λ s, match f s with Activate tool => Some (definition tool) | _ => None end)
    names.
Definition failed_of (f : string → Fate) (names : list string) : list pyval :=
  omap (λ s, match f s with NotActivated => Some (PStr s) | _ => None end) names.
Definition errors_of (f : string → Fate) (names : list string) : list string :=
  omap (λ s, match f s with
             | AlreadyLoaded => Some (s +:+ " already loaded.")
             | _ => None
             end) names.

(** Every binding of the registry sits under the name of its own
    definition. *)
Definition registered_by_name (reg : gmap string Tool) : Prop :=
  ∀ n t, reg !! n = Some t → fn_name (definition t) = n.

(** *** [generate_loader_description] and [create_loader_tool] *)

Definition newline : string := String (Ascii.ascii_of_nat 10) "".

Section create_loader_tool.
Variable json_loads : string → option pyval.
Variable strip : string → string.
(** [str(v)] for a value that is not a string. *)
Variable py_str : pyval → string.

(** [f"{desc}"] *)
Definition format_value (v : pyval) : string :=
  match v with PStr s => s | _ => py_str v end.

(** [briefs.items()] exists for a dictionary only. *)
Definition generate_loader_description (briefs : pyval) : result string :=
  match briefs with
  | PDict items =>
      let available_tools :=
        join newline
          ((λ item, "- " +:+ fst item +:+ ": " +:+ format_value (snd item)) <$> items) in
      Ret ("Dynamic Tool Loader for managing available tools. Provides brief descriptions of each tool and allows activating multiple tools by name."
           +:+ newline +:+ newline +:+ "Available tools:" +:+ newline
           +:+ available_tools +:+ newline +:+ newline
           +:+ "Choosing tools will make them available in the model context for the next interaction."
           +:+ newline +:+ newline
           +:+ "Usage: Provide a list of exact tool names you want to activate.")
  | _ => Raise AttributeError
  end.

(** What [create_loader_tool] leaves behind: the briefs its
    [loader_execute] closes over, and the tool it returns. *)
Record Loader : Type := {
  loader_briefs : list (string * pyval);
  loader_tool : Tool;
}.

(** [create_loader_tool()].  [current_tools] is
    [list(TOOL_REGISTRY.keys())], the names in the order they were
    registered; [response] is what the summarising model answers. *)
Definition create_loader_tool (current_tools : list string) (response : Completion)
    (st : State) : State * result Loader :=
  match generate_briefs json_loads strip (TOOL_REGISTRY st) current_tools response with
  | Raise e => (st, Raise e)
  | Ret briefs =>
      match generate_loader_description briefs, briefs with
      | Ret description, PDict items =>
          let tool := {| definition := LOADER_TOOL_DEFINITION description;
                         function := LoaderFunction |} in
          ({| TOOL_REGISTRY := register tool (TOOL_REGISTRY st);
              active_tools := active_tools st |},
           Ret {| loader_briefs := items; loader_tool := tool |})
      | Raise e, _ => (st, Raise e)
      | Ret _, _ => (st, Raise AttributeError)
      end
  end.
End create_loader_tool.

(** *** The conversation loop of [main] *)

(** What a [completion] request carries: [messages] and [tools]. *)
Record Request : Type := {
  request_messages : list Entry;
  request_tools : list ToolDefinition;
}.

Record Run : Type := {
  final_state : State;
  messages : list Entry;
  requests : list Request;
  status : Status;
}.

Section main.
Variable json_loads : string → option pyval.
Variable briefs : list (string * pyval).

(** [for tool_call in message.tool_calls]: the calls in order, up to the
    first that raises. *)
Fixpoint run_tool_calls (st : State) (calls : list ToolCall) : Dispatched :=
  match calls with
  | [] => {| state_after := st; appended := []; invoked := []; raised := None |}
  | call :: rest =>
      let d := dispatch json_loads briefs st call in
      match raised d with
      | Some e => d
      | None =>
          let d' := run_tool_calls (state_after d) rest in
          {| state_after := state_after d';
             appended := appended d ++ appended d';
             invoked := invoked d ++ invoked d';
             raised := raised d' |}
      end
  end.

(** [while True], fed with the answers of the model one by one. *)
Fixpoint main_loop (replies : list Reply) (st : State) (msgs : list Entry)
    (reqs : list Request) : Run :=
  match replies with
  | [] => {| final_state := st; messages := msgs; requests := reqs; status := Waiting |}
  | reply :: rest =>
      let reqs := reqs ++ [{| request_messages := msgs;
                              request_tools := active_tools st |}] in
      match reply with
      | ReplyRaises e =>
          {| final_state := st; messages := msgs; requests := reqs;
             status := Crashed e |}
      | ReplyWithoutMessage =>
          {| final_state := st; messages := msgs; requests := reqs;
             status := Stopped |}
      | AssistantMessage text tool_calls =>
          let msgs := msgs ++ [AssistantEntry text tool_calls] in
          match tool_calls with
          | [] =>
              {| final_state := st; messages := msgs; requests := reqs;
                 status := Finished |}
          | _ =>
              let d := run_tool_calls st tool_calls in
              let msgs := msgs ++ (ToolEntry <$> appended d) in
              match raised d with
              | Some e =>
                  {| final_state := state_after d; messages := msgs;
                     requests := reqs; status := Crashed e |}
              | None => main_loop rest (state_after d) msgs reqs
              end
          end
      end
  end.

(** [main()], once the module is loaded. *)
Definition main (loader : Tool) (replies : list Reply) (st : State) : Run :=
  main_loop replies (start_conversation st loader)
    [UserEntry "I need to calculate 15 * 7 and then get the weather in New York."]
    [].
End main.

End FunctionCalling.

(** ** Server-partitioned mode: [dcl_mcp.py] *)

Module Mcp.

(** A tool descriptor as an MCP session lists it. *)
Record McpTool : Type := {
  name : string;
  description : option string;
  inputSchema : pyval;
}.

Record ToolDefinition : Type := {
  fn_name : string;
  fn_description : option string;
  fn_parameters : pyval;
}.

(** [tool.function]: the [tool_execute] closure of a server's tool, which
    proxies the call through the session, or [loader_execute]. *)
Inductive ToolFunction : Type :=
| RemoteFunction (f : list (string * pyval) → result string)
| LoaderFunction.

Record Tool : Type := {
  definition : ToolDefinition;
  function : ToolFunction;
  server : option string;
}.

(** An entry of [MCP_SERVERS]. *)
Record ServerConfig : Type := {
  command : string;
  args : list string;
  env : list (string * option string);
}.

Record MCPServerManager : Type := {
  server_name : string;
  server_config : ServerConfig;
  tools : list McpTool;
}.

(** An entry of [LOADER_STATE["servers"]]; [server_active_tools] is its
    ["active_tools"] list. *)
Record ServerState : Type := {
  descriptions_loaded : bool;
  summaries_loaded : bool;
  server_active_tools : list string;
}.

Record State : Type := {
  TOOL_REGISTRY : gmap string Tool;
  active_tools : list ToolDefinition;
  MCP_SERVER_MANAGERS : gmap string MCPServerManager;
  SERVER_BRIEFS : gmap string pyval;
  LOADER_STATE : gmap string ServerState;
}.

(** [Tool.__init__] *)
Definition register (t : Tool) (reg : gmap string Tool) : gmap string Tool :=
  <[fn_name (definition t) := t]> reg.

Definition active_tool_names (st : State) : list string :=
  fn_name <$> active_tools st.

(** A run of [Tool(...)] constructions, in program order. *)
Definition register_all (ts : list Tool) (reg : gmap string Tool) : gmap string Tool :=
  foldl (λ reg t, register t reg) reg ts.

(** *** Starting the servers: [load_mcp_tools] *)

(** What happens when a manager is initialised and asked for its tools. *)
Inductive Session : Type :=
| InitializeFails (e : exn)
| ListToolsFails (e : exn)
| Listed (listed : list McpTool).

(** The exception the [try] body of a server ends with, if any. *)
Definition failure (outcome : Session) : option exn :=
  match outcome with
  | InitializeFails e | ListToolsFails e => Some e
  | Listed _ => None
  end.

Section servers.
(** The processes behind the configured servers.  The first argument
    names the managers that failed earlier in the same run: they were
    dropped as they were, their exit stack never closed, and what the
    session of a later server does may depend on what they left open. *)
Variable connect : list string → string → ServerConfig → Session.
(** [session.call_tool] of a server, with the result turned into text. *)
Variable call_tool : string → string → list (string * pyval) → result string.

Definition tool_def (tool : McpTool) : ToolDefinition :=
  {| fn_name := name tool;
     fn_description := description tool;
     fn_parameters := inputSchema tool |}.

Definition server_tool (srv : string) (tool : McpTool) : Tool :=
  {| definition := tool_def tool;
     function := RemoteFunction (call_tool srv (name tool));
     server := Some srv |}.

(** The registrations [MCPServerManager.list_tools] performs. *)
Definition list_tools (srv : string) (listed : list McpTool)
    (reg : gmap string Tool) : gmap string Tool :=
  foldl (λ reg tool, register (server_tool srv tool) reg) reg listed.

Definition initial_server_state : ServerState :=
  {| descriptions_loaded := true; summaries_loaded := false;
     server_active_tools := [] |}.

(** The body of the [try] for one server.  Both failures happen before
    anything is written to the registries; the manager that failed, with
    whatever its exit stack holds, is not closed. *)
Definition load_server (abandoned : list string) (st : State) (srv : string)
    (config : ServerConfig) : result State :=
  match connect abandoned srv config with
  | InitializeFails e => Raise e
  | ListToolsFails e => Raise e
  | Listed listed =>
      Ret {| TOOL_REGISTRY := list_tools srv listed (TOOL_REGISTRY st);
             active_tools := active_tools st;
             MCP_SERVER_MANAGERS :=
               <[srv := {| server_name := srv; server_config := config;
                           tools := listed |}]> (MCP_SERVER_MANAGERS st);
             SERVER_BRIEFS := SERVER_BRIEFS st;
             LOADER_STATE := <[srv := initial_server_state]> (LOADER_STATE st) |}
  end.

(** [for server_name, server_config in MCP_SERVERS.items()], with
    [except Exception: continue].  The handler catches an [Exception] and
    goes on to the next server without closing the manager that failed;
    any other exception leaves the loop and the routine.  The result is the
    state when the routine ends, and how it ends. *)
Fixpoint load_servers (abandoned : list string)
    (MCP_SERVERS : list (string * ServerConfig)) (st : State)
  : State * result unit :=
  match MCP_SERVERS with
  | [] => (st, Ret tt)
  | (srv, config) :: rest =>
      match load_server abandoned st srv config with
      | Ret st' => load_servers abandoned rest st'
      | Raise e =>
          if is_Exception e then load_servers (abandoned ++ [srv]) rest st
          else (st, Raise e)
      end
  end.

(** [load_mcp_tools()]: no manager has failed yet. *)
Definition load_mcp_tools (MCP_SERVERS : list (string * ServerConfig)) (st : State)
  : State * result unit :=
  load_servers [] MCP_SERVERS st.

(** What each pass of the loop met, in order: the server and the outcome
    of its [try] body.  The passes end with the one whose exception
    escapes. *)
Fixpoint passes (abandoned : list string)
    (MCP_SERVERS : list (string * ServerConfig)) : list (string * Session) :=
  match MCP_SERVERS with
  | [] => []
  | (srv, config) :: rest =>
      let outcome := connect abandoned srv config in
      (srv, outcome) ::
      match failure outcome with
      | None => passes abandoned rest
      | Some e =>
          if is_Exception e then passes (abandoned ++ [srv]) rest else []
      end
  end.
End servers.

(** *** [generate_briefs] *)

Section briefs.
Variable json_loads : string → option pyval.
Variable strip : string → string.
(** Whether the MCP library's tool descriptors can be hashed. *)
Variable mcp_tool_hashable : bool.

Definition no_briefs : pyval :=
  PDict [("server_summary", PStr ""); ("tool_briefs", PDict [])].

(** The fallback loop [for tool_name in tools_list].  Its [tool_name] is
    a descriptor, not a name, and [TOOL_REGISTRY.get(tool_name)] is asked
    with it: hashing the descriptor raises [TypeError], or the lookup
    finds nothing, every key of the registry being a string.  The branch
    [if tool_info:] is never entered. *)
Fixpoint fallback_tool_briefs (reg : gmap string Tool) (tools_list : list McpTool)
    (tool_briefs : list (string * pyval)) : result (list (string * pyval)) :=
  match tools_list with
  | [] => Ret tool_briefs
  | tool_name :: rest =>
      if mcp_tool_hashable then fallback_tool_briefs reg rest tool_briefs
      else Raise TypeError
  end.

Definition fallback (reg : gmap string Tool) (tools_list : list McpTool)
    (mcp_server_name : string) : result pyval :=
  let server_summary :=
    mcp_server_name +:+ " MCP server provides various tools for specific tasks." in
  match fallback_tool_briefs reg tools_list [] with
  | Ret tool_briefs =>
      Ret (PDict [("server_summary", PStr server_summary);
                  ("tool_briefs", PDict tool_briefs)])
  | Raise e => Raise e
  end.

Definition owned_definition (reg : gmap string Tool) (mcp_server_name : string)
    (tool : McpTool) : option ToolDefinition :=
  match reg !! name tool with
  | Some tool_info =>
      if bool_decide (server tool_info = Some mcp_server_name)
      then Some (definition tool_info) else None
  | None => None
  end.

Definition generate_briefs (reg : gmap string Tool) (tools_list : list McpTool)
    (mcp_server_name : string) (response : Completion) : result pyval :=
  match tools_list with
  | [] => Ret no_briefs
  | _ =>
      if String.eqb mcp_server_name "" then Ret no_briefs
      else
        match omap (owned_definition reg mcp_server_name) tools_list with
        | [] => Ret no_briefs
        | _ =>
            match response with
            | CompletionRaises e => Raise e
            | ResponseMalformed
            | ResponseContent None => fallback reg tools_list mcp_server_name
            | ResponseContent (Some result_text) =>
                if String.eqb result_text ""
                then fallback reg tools_list mcp_server_name
                else match json_loads (strip result_text) with
                     | Some result => Ret result
                     | None => fallback reg tools_list mcp_server_name
                     end
            end
        end
  end.
End briefs.

(** *** The loader tool *)

Record Report : Type := {
  activated : list string;
  failed : list string;
  errors : list string;
}.

Definition empty_report : Report :=
  {| activated := []; failed := []; errors := [] |}.
Definition add_activated (r : Report) (n : string) : Report :=
  {| activated := activated r ++ [n]; failed := failed r; errors := errors r |}.
Definition add_failed (r : Report) (n : string) : Report :=
  {| activated := activated r; failed := failed r ++ [n]; errors := errors r |}.
Definition add_error (r : Report) (msg : string) : Report :=
  {| activated := activated r; failed := failed r; errors := errors r ++ [msg] |}.

Definition mark_summaries_loaded (s : ServerState) : ServerState :=
  {| descriptions_loaded := descriptions_loaded s; summaries_loaded := true;
     server_active_tools := server_active_tools s |}.

Definition add_active_tool (n : string) (s : ServerState) : ServerState :=
  {| descriptions_loaded := descriptions_loaded s;
     summaries_loaded := summaries_loaded s;
     server_active_tools := server_active_tools s ++ [n] |}.

(** The loop of [load_tool_summaries]: stops with the error text at the
    first server that [LOADER_STATE] does not know. *)
Fixpoint load_summaries_loop (servers : list string) (ls : gmap string ServerState)
    (loaded : list string) : gmap string ServerState * string :=
  match servers with
  | [] =>
      (ls, match loaded with
           | [] => "No tool summaries loaded."
           | _ => "Loaded tool summaries for servers: " +:+ join ", " loaded +:+ "."
           end)
  | s :: rest =>
      match ls !! s with
      | None => (ls, "Error: server " +:+ s +:+ " not recognized")
      | Some _ =>
          load_summaries_loop rest (alter mark_summaries_loaded s ls) (loaded ++ [s])
      end
  end.

(** What the loop has written when it has gone through [servers]. *)
Definition mark_all (servers : list string) (ls : gmap string ServerState)
  : gmap string ServerState :=
  foldl (λ ls s, alter mark_summaries_loaded s ls) ls servers.

(** [n] names a registered tool of the server [srv]. *)
Definition tool_of_server (reg : gmap string Tool) (srv : string) (n : string) : Prop :=
  ∃ tool_info, reg !! n = Some tool_info ∧ server tool_info = Some srv.

(** The loop of [load_tools]; [snapshot] is [active_tool_names], computed
    once before the loop. *)
Fixpoint load_tools_loop (reg : gmap string Tool) (srv : string)
    (snapshot : list string) (names : list string)
    (act : list ToolDefinition) (ls : gmap string ServerState) (rep : Report)
  : list ToolDefinition * gmap string ServerState * Report :=
  match names with
  | [] => (act, ls, rep)
  | n :: rest =>
      if bool_decide (n ∈ snapshot) then
        load_tools_loop reg srv snapshot rest act ls
          (add_error rep (n +:+ " already loaded."))
      else
        match reg !! n with
        | Some tool_info =>
            if bool_decide (server tool_info = Some srv) then
              load_tools_loop reg srv snapshot rest
                (act ++ [definition tool_info])
                (alter (add_active_tool n) srv ls)
                (add_activated rep n)
            else load_tools_loop reg srv snapshot rest act ls (add_failed rep n)
        | None => load_tools_loop reg srv snapshot rest act ls (add_failed rep n)
        end
  end.

Definition render_report (srv : string) (rep : Report) : string :=
  let response :=
    match activated rep with
    | [] => "No tools activated from " +:+ srv +:+ "."
    | _ => "Activated tools from " +:+ srv +:+ ": " +:+ join ", " (activated rep) +:+ "."
    end in
  let response :=
    match failed rep with
    | [] => response
    | _ => response +:+ " Failed: " +:+ join ", " (failed rep) +:+ "."
    end in
  match errors rep with
  | [] => response
  | _ => response +:+ " Errors: " +:+ join ", " (errors rep)
  end.

Definition set_loader_state (st : State) (ls : gmap string ServerState) : State :=
  {| TOOL_REGISTRY := TOOL_REGISTRY st; active_tools := active_tools st;
     MCP_SERVER_MANAGERS := MCP_SERVER_MANAGERS st;
     SERVER_BRIEFS := SERVER_BRIEFS st; LOADER_STATE := ls |}.

Definition set_active_tools (st : State) (act : list ToolDefinition) : State :=
  {| TOOL_REGISTRY := TOOL_REGISTRY st; active_tools := act;
     MCP_SERVER_MANAGERS := MCP_SERVER_MANAGERS st;
     SERVER_BRIEFS := SERVER_BRIEFS st; LOADER_STATE := LOADER_STATE st |}.

(** [not x] for an optional list or string argument: [None] and the empty
    value are both false. *)
Definition falsy_list {A} (l : option (list A)) : bool :=
  match l with None | Some [] => true | _ => false end.
Definition falsy_str (s : option string) : bool :=
  match s with None => true | Some s => String.eqb s "" end.

Definition summaries_loaded_for (st : State) (srv : string) : bool :=
  match LOADER_STATE st !! srv with
  | Some s => summaries_loaded s
  | None => false
  end.

(** The loop as [load_tools] starts it. *)
Definition activation (st : State) (srv : string) (names : list string)
  : list ToolDefinition * gmap string ServerState * Report :=
  load_tools_loop (TOOL_REGISTRY st) srv (active_tool_names st) names
    (active_tools st) (LOADER_STATE st) empty_report.

(** [loader_execute(action, servers=None, tools=None, server=None)], on
    arguments of the types its signature declares. *)
Definition loader_execute (st : State) (action : string)
    (servers tool_names : option (list string)) (srv : option string)
  : State * string :=
  if String.eqb action "load_tool_summaries" then
    if falsy_list servers then
      (st, "Error: servers list is required for load_tool_summaries action.")
    else
      let '(ls, response) :=
        load_summaries_loop (default [] servers) (LOADER_STATE st) [] in
      (set_loader_state st ls, response)
  else if String.eqb action "load_tools" then
    if falsy_list tool_names || falsy_str srv then
      (st, "Error: tools list and server are required for load_tools action.")
    else
      let srv := default "" srv in
      if negb (summaries_loaded_for st srv) then
        (st, "Error: Tool summaries for " +:+ srv +:+ " must be loaded first.")
      else
        match MCP_SERVER_MANAGERS st !! srv with
        | None => (st, "Error: No manager for server " +:+ srv +:+ ".")
        | Some manager =>
            let '(act, ls, rep) := activation st srv (default [] tool_names) in
            (set_loader_state (set_active_tools st act) ls, render_report srv rep)
        end
  else (st, "Error: Invalid action. Use 'load_tool_summaries' or 'load_tools'.").

(** *** Dispatch: the body of [for tool_call in message.tool_calls] *)

Record Dispatched : Type := {
  state_after : State;
  appended : list Message;
  invoked : list Event;
  raised : option exn;
}.

(** The keyword arguments of a loader call, once bound to the parameters
    of [loader_execute]. *)
Record LoaderArguments : Type := {
  arg_action : string;
  arg_servers : option (list string);
  arg_tools : option (list string);
  arg_server : option string;
}.

Section dispatch.
Variable json_loads : string → option pyval.
(** Binding a decoded payload to the parameters of [loader_execute];
    raises when a key is unexpected or [action] is missing. *)
Variable bind_loader_arguments : list (string * pyval) → result LoaderArguments.
(** The text of [generate_loader_description()]. *)
Variable generate_loader_description :
  gmap string pyval → gmap string ServerState → string.

Definition set_description (d : ToolDefinition) (text : string) : ToolDefinition :=
  {| fn_name := fn_name d; fn_description := Some text;
     fn_parameters := fn_parameters d |}.

(** The dictionary written to is the one the loader's [Tool] holds too;
    only the entry of [active_tools] is tracked here, descriptions being
    read by nothing but the model. *)
Definition refresh_loader_tool_description (st : State) : State :=
  set_active_tools st
    ((λ tool, if String.eqb (fn_name tool) "loader"
              then set_description tool
                     (generate_loader_description (SERVER_BRIEFS st) (LOADER_STATE st))
              else tool) <$> active_tools st).

Definition crash (st : State) (e : exn) : Dispatched :=
  {| state_after := st; appended := []; invoked := []; raised := Some e |}.

Definition run_loader (st : State) (a : LoaderArguments) : State * string :=
  loader_execute st (arg_action a) (arg_servers a) (arg_tools a) (arg_server a).

(** [tool.function] called with the decoded payload as keyword
    arguments. *)
Definition call_function (st : State) (call : ToolCall) (tool : Tool)
    (kwargs : list (string * pyval)) : Dispatched :=
  match function tool with
  | RemoteFunction f =>
      match f kwargs with
      | Ret result =>
          {| state_after := st; appended := [tool_message call result];
             invoked := [Invoked (call_name call) kwargs]; raised := None |}
      | Raise e =>
          {| state_after := st; appended := [];
             invoked := [Invoked (call_name call) kwargs]; raised := Some e |}
      end
  | LoaderFunction =>
      match bind_loader_arguments kwargs with
      | Ret a =>
          let '(st', result) := run_loader st a in
          {| state_after := st'; appended := [tool_message call result];
             invoked := []; raised := None |}
      | Raise e => crash st e
      end
  end.

Definition dispatch (st : State) (call : ToolCall) : Dispatched :=
  if String.eqb (call_name call) "loader" then
    match json_loads (call_arguments call) with
    | None => crash st JSONDecodeError
    | Some (PDict arguments) =>
        match bind_loader_arguments arguments with
        | Ret a =>
            let '(st', result) := run_loader st a in
            {| state_after := refresh_loader_tool_description st';
               appended := [tool_message call result];
               invoked := []; raised := None |}
        | Raise e => crash st e
        end
    | Some _ => crash st TypeError
    end
  else
    match TOOL_REGISTRY st !! call_name call with
    | Some tool =>
        match json_loads (call_arguments call) with
        | None => crash st JSONDecodeError
        | Some (PDict kwargs) => call_function st call tool kwargs
        | Some _ => crash st TypeError
        end
    | None =>
        {| state_after := st; appended := []; invoked := []; raised := None |}
    end.

Inductive Op : Type :=
| OpLoader (a : LoaderArguments)
| OpToolCall (call : ToolCall).

Definition run_op (st : State) (op : Op) : State :=
  match op with
  | OpLoader a => fst (run_loader st a)
  | OpToolCall call => state_after (dispatch st call)
  end.

Definition run_ops (st : State) (ops : list Op) : State := foldl run_op st ops.
End dispatch.

(** [active_tools.append(loader_tool.definition)] at the top of [main]. *)
Definition start_conversation (st : State) (loader_tool : Tool) : State :=
  set_active_tools st (active_tools st ++ [definition loader_tool]).

(** *** The branch a requested name takes *)

(** What the loop of [load_tools] does with a name, given the active names
    it saw before the loop. *)
Inductive Fate : Type :=
| AlreadyLoaded
| NotActivated
| Activate (tool_info : Tool).

Definition fate (reg : gmap string Tool) (srv : string) (snapshot : list string)
    (n : string) : Fate :=
  if bool_decide (n ∈ snapshot) then AlreadyLoaded
  else match reg !! n with
       | Some tool_info =>
           if bool_decide (server tool_info = Some srv) then Activate tool_info
           else NotActivated
       | None => NotActivated
       end.

Definition activated_of (f : string → Fate) (names : list string) : list string :=
  omap (λ n, match f n with Activate _ => Some n | _ => None end) names.
Definition definitions_of (f : string → Fate) (names : list string)
  : list ToolDefinition :=
  omap (λ n, match f n with Activate t => Some (definition t) | _ => None end) names.
Definition failed_of (f : string → Fate) (names : list string) : list string :=
  omap (λ n, match f n with NotActivated => Some n | _ => None end) names.
Definition errors_of (f : string → Fate) (names : list string) : list string :=
  omap (λ n, match f n with
             | AlreadyLoaded => Some (n +:+ " already loaded.")
             | _ => None
             end) names.

(** [LOADER_STATE["servers"][srv]["active_tools"]] after the names [more]
    were appended. *)
Definition add_active_tools (more : list string) (s : ServerState) : ServerState :=
  {| descriptions_loaded := descriptions_loaded s;
     summaries_loaded := summaries_loaded s;
     server_active_tools := server_active_tools s ++ more |}.

(** Every binding of the registry sits under the name of its own
    definition. *)
Definition registered_by_name (reg : gmap string Tool) : Prop :=
  ∀ n t, reg !! n = Some t → fn_name (definition t) = n.

(** An entry of [LOADER_STATE] only moves forward: it stays absent or
    stays present, its summaries stay loaded once they are, and its list of
    active tools is only appended to. *)
Definition server_state_grows (old new : option ServerState) : Prop :=
  match old, new with
  | None, None => True
  | Some a, Some b =>
      descriptions_loaded b = descriptions_loaded a ∧
      (summaries_loaded a = true → summaries_loaded b = true) ∧
      server_active_tools a `prefix_of` server_active_tools b
  | _, _ => False
  end.

(** The tools listed by the servers that start, in the order in which
    [load_mcp_tools] registers them, each with its server. *)
Definition listed_by (pass : string * Session) : list (string * McpTool) :=
  match snd pass with
  | Listed listed => (λ tool, (fst pass, tool)) <$> listed
  | _ => []
  end.

Definition started_tools (connect : list string → string → ServerConfig → Session)
    (MCP_SERVERS : list (string * ServerConfig)) : list (string * McpTool) :=
  passes connect [] MCP_SERVERS ≫= listed_by.

(** *** The conversation loop of [main] *)

Record Request : Type := {
  request_messages : list Entry;
  request_tools : list ToolDefinition;
}.

Record Run : Type := {
  final_state : State;
  messages : list Entry;
  requests : list Request;
  status : Status;
}.

Section main.
Variable json_loads : string → option pyval.
Variable bind_loader_arguments : list (string * pyval) → result LoaderArguments.
Variable generate_loader_description :
  gmap string pyval → gmap string ServerState → string.

(** [for tool_call in message.tool_calls]: the calls in order, up to the
    first that raises. *)
Fixpoint run_tool_calls (st : State) (calls : list ToolCall) : Dispatched :=
  match calls with
  | [] => {| state_after := st; appended := []; invoked := []; raised := None |}
  | call :: rest =>
      let d := dispatch json_loads bind_loader_arguments
                 generate_loader_description st call in
      match raised d with
      | Some e => d
      | None =>
          let d' := run_tool_calls (state_after d) rest in
          {| state_after := state_after d';
             appended := appended d ++ appended d';
             invoked := invoked d ++ invoked d';
             raised := raised d' |}
      end
  end.

(** [while True], fed with the answers of the model one by one. *)
Fixpoint main_loop (replies : list Reply) (st : State) (msgs : list Entry)
    (reqs : list Request) : Run :=
  match replies with
  | [] => {| final_state := st; messages := msgs; requests := reqs; status := Waiting |}
  | reply :: rest =>
      let reqs := reqs ++ [{| request_messages := msgs;
                              request_tools := active_tools st |}] in
      match reply with
      | ReplyRaises e =>
          {| final_state := st; messages := msgs; requests := reqs;
             status := Crashed e |}
      | ReplyWithoutMessage =>
          {| final_state := st; messages := msgs; requests := reqs;
             status := Stopped |}
      | AssistantMessage text tool_calls =>
          let msgs := msgs ++ [AssistantEntry text tool_calls] in
          match tool_calls with
          | [] =>
              {| final_state := st; messages := msgs; requests := reqs;
                 status := Finished |}
          | _ =>
              let d := run_tool_calls st tool_calls in
              let msgs := msgs ++ (ToolEntry <$> appended d) in
              match raised d with
              | Some e =>
                  {| final_state := state_after d; messages := msgs;
                     requests := reqs; status := Crashed e |}
              | None => main_loop rest (state_after d) msgs reqs
              end
          end
      end
  end.

(** The conversation of [main()], from the point where the servers are
    loaded and the loader tool is created. *)
Definition conversation (loader : Tool) (replies : list Reply) (st : State) : Run :=
  main_loop replies (start_conversation st loader)
    [UserEntry "Provide a list of 5 of my public GitHub repositories"]
    [].
End main.

(** *** [create_loader_tool] *)

Definition LOADER_TOOL_DEFINITION (description : string) : ToolDefinition :=
  {| fn_name := "loader";
     fn_description := Some description;
     fn_parameters :=
       PDict [("type", PStr "object");
              ("properties",
               PDict [("action",
                       PDict [("type", PStr "string");
                              ("enum", PList [PStr "load_tool_summaries";
                                              PStr "load_tools"]);
                              ("description",
                               PStr "Action to perform: load_tool_summaries or load_tools.")]);
                      ("servers",
                       PDict [("type", PStr "array");
                              ("items", PDict [("type", PStr "string")]);
                              ("description",
                               PStr "List of MCP server names to load (for load_tool_summaries).")]);
                      ("tools",
                       PDict [("type", PStr "array");
                              ("items", PDict [("type", PStr "string")]);
                              ("description",
                               PStr "List of tool names to activate (for load_tools).")]);
                      ("server",
                       PDict [("type", PStr "string");
                              ("description",
                               PStr "MCP server name for the tools (for load_tools).")])]);
              ("required", PList [PStr "action"])] |}.

Definition set_server_briefs (st : State) (briefs : gmap string pyval) : State :=
  {| TOOL_REGISTRY := TOOL_REGISTRY st; active_tools := active_tools st;
     MCP_SERVER_MANAGERS := MCP_SERVER_MANAGERS st;
     SERVER_BRIEFS := briefs; LOADER_STATE := LOADER_STATE st |}.

Section create_loader_tool.
Variable json_loads : string → option pyval.
Variable strip : string → string.
Variable mcp_tool_hashable : bool.
(** What the summarising model answers when asked about a server. *)
Variable respond : string → Completion.
(** [generate_loader_description()], which reads the briefs and the loader
    state and can raise on briefs that are not dictionaries. *)
Variable describe : gmap string pyval → gmap string ServerState → result string.

(** [for server_name in LOADER_STATE["servers"]]; [server_names] are the
    keys in the order of the dictionary.  A subscript with a missing key
    raises [KeyError]. *)
Fixpoint brief_servers (server_names : list string) (st : State) : State * result unit :=
  match server_names with
  | [] => (st, Ret tt)
  | server_name :: rest =>
      match LOADER_STATE st !! server_name with
      | None => (st, Raise (OtherError "KeyError"))
      | Some s =>
          if descriptions_loaded s then
            match MCP_SERVER_MANAGERS st !! server_name with
            | None => (st, Raise (OtherError "KeyError"))
            | Some manager =>
                match generate_briefs json_loads strip mcp_tool_hashable
                        (TOOL_REGISTRY st) (tools manager) server_name
                        (respond server_name) with
                | Raise e => (st, Raise e)
                | Ret briefs =>
                    brief_servers rest
                      (set_server_briefs st (<[server_name := briefs]> (SERVER_BRIEFS st)))
                end
            end
          else brief_servers rest st
      end
  end.

Definition create_loader_tool (server_names : list string) (st : State)
  : State * result Tool :=
  match brief_servers server_names st with
  | (st1, Raise e) => (st1, Raise e)
  | (st1, Ret _) =>
      match describe (SERVER_BRIEFS st1) (LOADER_STATE st1) with
      | Raise e => (st1, Raise e)
      | Ret description =>
          let tool := {| definition := LOADER_TOOL_DEFINITION description;
                         function := LoaderFunction; server := None |} in
          ({| TOOL_REGISTRY := register tool (TOOL_REGISTRY st1);
              active_tools := active_tools st1;
              MCP_SERVER_MANAGERS := MCP_SERVER_MANAGERS st1;
              SERVER_BRIEFS := SERVER_BRIEFS st1;
              LOADER_STATE := LOADER_STATE st1 |},
           Ret tool)
      end
  end.
End create_loader_tool.

End Mcp.

(** ** Configuration: [config.py] *)

Module Config.

(** [llm_config]: the three settings read from the environment (after
    [load_dotenv()]), without those that are not set. *)
Definition llm_config (environ : gmap string string) : list (string * string) :=
  omap (λ item, (λ value, (fst item, value)) <$> snd item)
    [("model", environ !! "MODEL");
     ("api_base", environ !! "API_BASE");
     ("api_key", environ !! "API_KEY")].

End Config.

(** ** The properties of the specification, in its own words *)

Module Spec.

(** "[lookup(name)] returns the most recently registered binding": the
    binding of the last registration under that name, if there is one. *)
Fixpoint most_recent {T : Type} (name_of : T → string) (n : string) (ts : list T)
  : option T :=
  match ts with
  | [] => None
  | t :: rest =>
      match most_recent name_of n rest with
      | Some t' => Some t'
      | None => if bool_decide (name_of t = n) then Some t else None
      end
  end.

(** "Reject with an explanatory text result if [name] is not currently
    in ActiveSet": no tool body runs, and the one message appended carries
    a text. *)
Definition rejects (invoked : list Event) (appended : list Message) (call : ToolCall)
  : Prop :=
  invoked = [] ∧ ∃ text, appended = [tool_message call text].

Definition dispatch_rejects_inactive (json_loads : string → option pyval)
    (briefs : list (string * pyval)) (st : FunctionCalling.State) (call : ToolCall)
  : Prop :=
  call_name call ∉ FunctionCalling.active_tool_names st →
  let d := FunctionCalling.dispatch json_loads briefs st call in
  rejects (FunctionCalling.invoked d) (FunctionCalling.appended d) call.

(** "[load_summaries] fails with server not recognized if unknown (no
    mutation)", for a list of servers. *)
Definition unknown_server_leaves_state (st : Mcp.State) (servers : list string) : Prop :=
  (∃ s, s ∈ servers ∧ Mcp.LOADER_STATE st !! s = None) →
  fst (Mcp.loader_execute st "load_tool_summaries" (Some servers) None None) = st.

(** "[load_tools] invoked before [load_summaries] for a server always
    fails with the summaries first error". *)
Definition load_tools_needs_summaries (st : Mcp.State) (srv : string)
    (tool_names : option (list string)) : Prop :=
  Mcp.summaries_loaded <$> (Mcp.LOADER_STATE st !! srv) = Some false →
  snd (Mcp.loader_execute st "load_tools" None tool_names (Some srv)) =
  "Error: Tool summaries for " +:+ srv +:+ " must be loaded first.".

(** "Must return an entry for every requested name regardless of partial
    upstream failure": the result is a dictionary with a key for each
    requested name. *)
Definition covers (out : result pyval) (names : list string) : Prop :=
  ∃ briefs, out = Ret (PDict briefs) ∧ ∀ n, n ∈ names → is_Some (dict_get briefs n).

Definition briefs_cover_every_name (json_loads : string → option pyval)
    (strip : string → string) (reg : gmap string FunctionCalling.Tool)
    (tools_list : list string) (response : Completion) : Prop :=
  tools_list ≠ [] →
  (∀ n, n ∈ tools_list → is_Some (reg !! n)) →
  covers (FunctionCalling.generate_briefs json_loads strip reg tools_list response)
    tools_list.

(** "Activating an unknown name never mutates ActiveSet and appears in
    the failed list", for the flat loader: a requested name that the
    briefs do not have is in the failed list of the report. *)
Definition unknown_name_is_reported_failed (briefs : list (string * pyval))
    (st : FunctionCalling.State) (names : list string) (n : string) : Prop :=
  dict_mem briefs n = false →
  n ∈ names →
  ∃ rep, snd (FunctionCalling.activation briefs st (PStr <$> names)) = Ret rep ∧
         PStr n ∈ FunctionCalling.failed rep.

(** The same for [load_tools]: a requested name that is not a tool of the
    given server is in the failed list of the report the call answers
    with. *)
Definition unknown_server_tool_is_reported_failed (st : Mcp.State) (srv : string)
    (names : list string) (n : string) : Prop :=
  ¬ Mcp.tool_of_server (Mcp.TOOL_REGISTRY st) srv n →
  n ∈ names →
  ∃ rep, snd (Mcp.loader_execute st "load_tools" None (Some names) (Some srv)) =
         Mcp.render_report srv rep ∧
         n ∈ Mcp.failed rep.

End Spec.

(** ** Sample states *)

Module Sample.

Definition calculator : FunctionCalling.Tool :=
  {| FunctionCalling.definition := FunctionCalling.CALC_DEFINITION;
     FunctionCalling.function := FunctionCalling.LocalFunction (λ _, Ret "105") |}.

Definition get_weather : FunctionCalling.Tool :=
  {| FunctionCalling.definition := FunctionCalling.WEATHER_DEFINITION;
     FunctionCalling.function :=
       FunctionCalling.LocalFunction (λ _, Ret "Weather in New York: sunny, 21 C") |}.

Definition loader_tool : FunctionCalling.Tool :=
  {| FunctionCalling.definition :=
       FunctionCalling.LOADER_TOOL_DEFINITION "Dynamic Tool Loader for managing available tools.";
     FunctionCalling.function := FunctionCalling.LoaderFunction |}.

(** The registry after the two example tools and the loader were built. *)
Definition registry : gmap string FunctionCalling.Tool :=
  FunctionCalling.register_all [calculator; get_weather; loader_tool] ∅.

(** The briefs the loader closure holds: here the truncation fallback. *)
Definition briefs : list (string * pyval) :=
  FunctionCalling.fallback_briefs
    (FunctionCalling.register_all [calculator; get_weather] ∅)
    ["calculator"; "get_weather"].

(** The state when the conversation starts: only the loader is active. *)
Definition state : FunctionCalling.State :=
  FunctionCalling.start_conversation
    {| FunctionCalling.TOOL_REGISTRY := registry;
       FunctionCalling.active_tools := [] |}
    loader_tool.

(** Text between double quotes. *)
Definition quoted (s : string) : string :=
  String (Ascii.ascii_of_nat 34) (s +:+ String (Ascii.ascii_of_nat 34) "").

(** The payload of a calculator call: an object with the one key
    [expression]. *)
Definition calculator_arguments : string :=
  "{" +:+ quoted "expression" +:+ ": " +:+ quoted "15 * 7" +:+ "}".

(** A reply of the summarising model that covers only the calculator. *)
Definition partial_reply : string :=
  "{" +:+ quoted "calculator" +:+ ": " +:+ quoted "Evaluates arithmetic." +:+ "}".

(** [json.loads] on the texts used here; any other text counts as not
    decodable. *)
Definition json_loads (text : string) : option pyval :=
  if String.eqb text calculator_arguments
  then Some (PDict [("expression", PStr "15 * 7")])
  else if String.eqb text partial_reply
  then Some (PDict [("calculator", PStr "Evaluates arithmetic.")])
  else None.

(** [str.strip] on texts without surrounding white space. *)
Definition strip (text : string) : string := text.

Definition calculator_call : ToolCall :=
  {| call_id := "call_1"; call_name := "calculator";
     call_arguments := calculator_arguments |}.

(** *** Servers *)

Definition github_config : Mcp.ServerConfig :=
  {| Mcp.command := "docker";
     Mcp.args := ["run"; "-i"; "--rm"; "-e"; "GITHUB_PERSONAL_ACCESS_TOKEN";
                  "ghcr.io/github/github-mcp-server"; "stdio"];
     Mcp.env := [("GITHUB_PERSONAL_ACCESS_TOKEN", None)] |}.

Definition figma_config : Mcp.ServerConfig :=
  {| Mcp.command := "npx";
     Mcp.args := ["-y"; "figma-developer-mcp"; "--stdio"];
     Mcp.env := [("FIGMA_OAUTH_TOKEN", None)] |}.

Definition MCP_SERVERS : list (string * Mcp.ServerConfig) :=
  [("github", github_config); ("figma", figma_config)].

Definition list_repos : Mcp.McpTool :=
  {| Mcp.name := "list_repos";
     Mcp.description := Some "Lists the repositories of a user.";
     Mcp.inputSchema := PDict [("type", PStr "object")] |}.

Definition search_code : Mcp.McpTool :=
  {| Mcp.name := "search_code";
     Mcp.description := Some "Searches code across repositories.";
     Mcp.inputSchema := PDict [("type", PStr "object")] |}.

Definition get_figma_data : Mcp.McpTool :=
  {| Mcp.name := "get_figma_data";
     Mcp.description := Some "Fetches the layout of a Figma file.";
     Mcp.inputSchema := PDict [("type", PStr "object")] |}.

Definition call_tool (srv tool : string) (kwargs : list (string * pyval))
  : result string :=
  Ret (srv +:+ ":" +:+ tool).

(** Only the GitHub server starts; the command of the other is not
    found. *)
Definition github_up (abandoned : list string) (srv : string)
    (config : Mcp.ServerConfig) : Mcp.Session :=
  if String.eqb srv "github" then Mcp.Listed [list_repos; search_code]
  else Mcp.InitializeFails (OtherError "spawn failed").

(** Only the Figma server starts; the command of the other is not found. *)
Definition figma_up (abandoned : list string) (srv : string)
    (config : Mcp.ServerConfig) : Mcp.Session :=
  if String.eqb srv "figma" then Mcp.Listed [get_figma_data]
  else Mcp.InitializeFails (OtherError "spawn failed").

(** Both servers start, and each lists a tool named [search_code]. *)
Definition figma_search : Mcp.McpTool :=
  {| Mcp.name := "search_code";
     Mcp.description := Some "Searches the code panel of a Figma file.";
     Mcp.inputSchema := PDict [("type", PStr "object")] |}.

Definition both_up (abandoned : list string) (srv : string)
    (config : Mcp.ServerConfig) : Mcp.Session :=
  if String.eqb srv "github" then Mcp.Listed [list_repos; search_code]
  else Mcp.Listed [get_figma_data; figma_search].

(** The process of GitHub is spawned and ends during the handshake.  Its
    manager is dropped with the exit stack open, and the initialisation
    of the next server is cancelled.  With no such manager behind it,
    Figma starts. *)
Definition github_left_open (abandoned : list string) (srv : string)
    (config : Mcp.ServerConfig) : Mcp.Session :=
  if String.eqb srv "github"
  then Mcp.InitializeFails (OtherError "McpError: Connection closed")
  else if bool_decide ("github" ∈ abandoned)
  then Mcp.InitializeFails CancelledError
  else Mcp.Listed [get_figma_data].

Definition mcp_empty : Mcp.State :=
  {| Mcp.TOOL_REGISTRY := ∅; Mcp.active_tools := [];
     Mcp.MCP_SERVER_MANAGERS := ∅; Mcp.SERVER_BRIEFS := ∅;
     Mcp.LOADER_STATE := ∅ |}.

Definition mcp_loader_tool : Mcp.Tool :=
  {| Mcp.definition :=
       {| Mcp.fn_name := "loader";
          Mcp.fn_description := Some "Dynamic Tool Loader for managing MCP tools.";
          Mcp.fn_parameters := PDict [("type", PStr "object")] |};
     Mcp.function := Mcp.LoaderFunction;
     Mcp.server := None |}.

(** [main] up to the first request: the servers are started (GitHub
    only), the loader is registered and made the one active tool. *)
Definition mcp_state : Mcp.State :=
  match Mcp.load_mcp_tools github_up call_tool MCP_SERVERS mcp_empty with
  | (st, Ret _) =>
      Mcp.start_conversation
        {| Mcp.TOOL_REGISTRY := Mcp.register mcp_loader_tool (Mcp.TOOL_REGISTRY st);
           Mcp.active_tools := Mcp.active_tools st;
           Mcp.MCP_SERVER_MANAGERS := Mcp.MCP_SERVER_MANAGERS st;
           Mcp.SERVER_BRIEFS := Mcp.SERVER_BRIEFS st;
           Mcp.LOADER_STATE := Mcp.LOADER_STATE st |}
        mcp_loader_tool
  | (_, Raise _) => mcp_empty
  end.

(** Keyword binding for loader payloads: [action] must be there, the
    other parameters default to [None]. *)
Definition strings_of (v : option pyval) : option (list string) :=
  match v with
  | Some (PList l) => mapM as_str l
  | _ => None
  end.

Definition bind_loader_arguments (kwargs : list (string * pyval))
  : result Mcp.LoaderArguments :=
  match dict_get kwargs "action" with
  | Some (PStr action) =>
      Ret {| Mcp.arg_action := action;
             Mcp.arg_servers := strings_of (dict_get kwargs "servers");
             Mcp.arg_tools := strings_of (dict_get kwargs "tools");
             Mcp.arg_server := dict_get kwargs "server" ≫= as_str |}
  | _ => Raise TypeError
  end.

Definition generate_loader_description (briefs : gmap string pyval)
    (ls : gmap string Mcp.ServerState) : string :=
  "Dynamic Tool Loader for managing MCP tools.".

(** The same after [load_tool_summaries(["github"])]. *)
Definition mcp_state_summaries : Mcp.State :=
  fst (Mcp.loader_execute mcp_state "load_tool_summaries" (Some ["github"]) None None).

(** A short conversation in each program. *)
Definition ops : list FunctionCalling.Op :=
  [FunctionCalling.OpLoader (PList [PStr "calculator"; PStr "bogus"]);
   FunctionCalling.OpToolCall calculator_call].

Definition load_github_tools (names : list string) : Mcp.LoaderArguments :=
  {| Mcp.arg_action := "load_tools"; Mcp.arg_servers := None;
     Mcp.arg_tools := Some names; Mcp.arg_server := Some "github" |}.

Definition mcp_ops : list Mcp.Op :=
  [Mcp.OpLoader {| Mcp.arg_action := "load_tool_summaries";
                   Mcp.arg_servers := Some ["github"];
                   Mcp.arg_tools := None; Mcp.arg_server := None |};
   Mcp.OpLoader (load_github_tools ["list_repos"; "get_figma_data"])].

(** The state the flat module is in before [main] runs, and answers the
    model might give: a call of the calculator, then plain text. *)
Definition module_state : FunctionCalling.State :=
  {| FunctionCalling.TOOL_REGISTRY := registry; FunctionCalling.active_tools := [] |}.

Definition replies : list Reply :=
  [AssistantMessage "" [calculator_call]; AssistantMessage "15 * 7 = 105" []].

(** The flat module as it is loaded: its four example tools, with
    stand-ins for their bodies. *)
Definition module_tools : list FunctionCalling.Tool :=
  FunctionCalling.example_tools (λ _, Ret "") (λ _, Ret "") (λ _, Ret "105")
    (λ _, Ret "Weather in New York: sunny, 21 C").

Definition loaded_module : FunctionCalling.State :=
  {| FunctionCalling.TOOL_REGISTRY := FunctionCalling.register_all module_tools ∅;
     FunctionCalling.active_tools := [] |}.

(** The server program after [load_mcp_tools], with GitHub up, and its
    [create_loader_tool] when the model gives no usable answer. *)
Definition mcp_loaded : Mcp.State :=
  fst (Mcp.load_mcp_tools github_up call_tool MCP_SERVERS mcp_empty).

Definition mcp_created : Mcp.State * result Mcp.Tool :=
  Mcp.create_loader_tool json_loads strip true (λ _, ResponseContent None)
    (λ _ _, Ret "Dynamic Tool Loader for managing MCP tools.") ["github"] mcp_loaded.

End Sample.

(** ** Facts about the registry *)

Lemma most_recent_app {T} (name_of : T → string) n ts t :
  Spec.most_recent name_of n (ts ++ [t]) =
  if bool_decide (name_of t = n) then Some t else Spec.most_recent name_of n ts.
Proof.
  induction ts as [|a ts IH]; simpl.
  - done.
  - rewrite IH. case_bool_decide; [done|].
    by destruct (Spec.most_recent name_of n ts).
Qed.

Lemma lookup_register_all_A (ts : list FunctionCalling.Tool)
    (reg : gmap string FunctionCalling.Tool) (n : string) :
  FunctionCalling.register_all ts reg !! n =
  match Spec.most_recent (λ t, FunctionCalling.fn_name (FunctionCalling.definition t)) n ts with
  | Some t => Some t
  | None => reg !! n
  end.
Proof.
  induction ts as [|t ts IH] using rev_ind; [done|].
  unfold FunctionCalling.register_all in *.
  rewrite foldl_app, most_recent_app. simpl. unfold FunctionCalling.register at 1.
  case_bool_decide as Hn.
  - subst n. by rewrite lookup_insert_eq.
  - by rewrite lookup_insert_ne.
Qed.

Lemma lookup_register_all_B (ts : list Mcp.Tool) (reg : gmap string Mcp.Tool) (n : string) :
  Mcp.register_all ts reg !! n =
  match Spec.most_recent (λ t, Mcp.fn_name (Mcp.definition t)) n ts with
  | Some t => Some t
  | None => reg !! n
  end.
Proof.
  induction ts as [|t ts IH] using rev_ind; [done|].
  unfold Mcp.register_all in *.
  rewrite foldl_app, most_recent_app. simpl. unfold Mcp.register at 1.
  case_bool_decide as Hn.
  - subst n. by rewrite lookup_insert_eq.
  - by rewrite lookup_insert_ne.
Qed.

(** C9. The registry is last-write-wins, in both programs: after any run
    of registrations, looking a name up gives the binding of the last
    registration made under that name (and what the registry held before,
    when the run has none); an earlier binding of the name is overwritten. *)
Theorem registry_last_write_wins :
  (∀ (ts : list FunctionCalling.Tool) (reg : gmap string FunctionCalling.Tool) (n : string),
     FunctionCalling.register_all ts reg !! n =
     match Spec.most_recent
             (λ t, FunctionCalling.fn_name (FunctionCalling.definition t)) n ts with
     | Some t => Some t
     | None => reg !! n
     end) ∧
  (∀ (ts : list Mcp.Tool) (reg : gmap string Mcp.Tool) (n : string),
     Mcp.register_all ts reg !! n =
     match Spec.most_recent (λ t, Mcp.fn_name (Mcp.definition t)) n ts with
     | Some t => Some t
     | None => reg !! n
     end) ∧
  (∀ (t1 t2 : FunctionCalling.Tool) (reg : gmap string FunctionCalling.Tool),
     FunctionCalling.fn_name (FunctionCalling.definition t1) =
     FunctionCalling.fn_name (FunctionCalling.definition t2) →
     FunctionCalling.register t2 (FunctionCalling.register t1 reg) =
     FunctionCalling.register t2 reg).
Proof.
  split; [exact lookup_register_all_A|].
  split; [exact lookup_register_all_B|].
  intros t1 t2 reg Hn. unfold FunctionCalling.register.
  rewrite Hn. apply insert_insert_eq.
Qed.

(** ** The flat loader on malformed input *)

(** C10. Given anything that is not a list, the flat loader answers with
    the fixed error text and changes neither the active tools nor the
    registry; it does not raise. *)
Theorem loader_execute_not_a_list (briefs : list (string * pyval))
    (st : FunctionCalling.State) (tool_names : pyval) :
  is_list tool_names = false →
  FunctionCalling.loader_execute briefs st tool_names =
  (st, Ret "Error: tool_names must be a list of strings.").
Proof. by destruct tool_names. Qed.

Lemma loader_execute_not_a_list_witness :
  is_list (PStr "calculator") = false ∧
  FunctionCalling.loader_execute Sample.briefs Sample.state (PStr "calculator") =
  (Sample.state, Ret "Error: tool_names must be a list of strings.").
Proof.
  split; [reflexivity|].
  apply (loader_execute_not_a_list Sample.briefs Sample.state (PStr "calculator")).
  reflexivity.
Defined.

(** ** Repeated names in one activation *)

(** The snapshot of the active names is taken before the loop and never
    refreshed: a registered, briefed, inactive name that occurs twice in
    one call is appended twice. *)
Lemma loader_execute_twice (briefs : list (string * pyval)) (st : FunctionCalling.State)
    (n : string) (tool : FunctionCalling.Tool) :
  n ∉ FunctionCalling.active_tool_names st →
  dict_mem briefs n = true →
  FunctionCalling.TOOL_REGISTRY st !! n = Some tool →
  FunctionCalling.active_tools
    (fst (FunctionCalling.loader_execute briefs st (PList [PStr n; PStr n]))) =
  FunctionCalling.active_tools st ++
    [FunctionCalling.definition tool; FunctionCalling.definition tool].
Proof.
  intros Hact Hbrief Hreg.
  unfold FunctionCalling.loader_execute, FunctionCalling.activation. simpl.
  rewrite (bool_decide_eq_false_2 _ Hact), Hbrief, Hreg. simpl.
  by rewrite <- app_assoc.
Qed.

(** C1. The code at [["calculator"; "calculator"]] (flat mode) and at
    [["list_repos"; "list_repos"]] (server mode), from a state where only
    the loader is active: the name is activated twice, the active tools
    hold it twice, and no duplicate notice is given. *)
Theorem repeated_name_activated_twice :
  (let out := FunctionCalling.loader_execute Sample.briefs Sample.state
                (PList [PStr "calculator"; PStr "calculator"]) in
   FunctionCalling.active_tool_names (fst out) = ["loader"; "calculator"; "calculator"] ∧
   snd out =
   Ret "Activated tools: calculator, calculator. They are now available for use in the next message.") ∧
  (let out := Mcp.loader_execute Sample.mcp_state_summaries "load_tools" None
                (Some ["list_repos"; "list_repos"]) (Some "github") in
   Mcp.active_tool_names (fst out) = ["loader"; "list_repos"; "list_repos"] ∧
   Mcp.server_active_tools <$> (Mcp.LOADER_STATE (fst out) !! "github") =
   Some ["list_repos"; "list_repos"] ∧
   snd out = "Activated tools from github: list_repos, list_repos.").
Proof. vm_compute. repeat split. Qed.

(** ** Dispatch *)

Lemma not_loader_eqb (n : string) : n ≠ "loader" → String.eqb n "loader" = false.
Proof. intros H. by apply String.eqb_neq. Qed.

(** C2, as the specification has it, fails: with only the loader active,
    a call of the registered calculator runs the calculator. *)
Lemma inactive_calculator_is_executed :
  ¬ Spec.dispatch_rejects_inactive Sample.json_loads Sample.briefs Sample.state
      Sample.calculator_call.
Proof.
  intros H. destruct H as [Hinv _].
  - intros Hin. apply list_elem_of_In in Hin. simpl in Hin.
    destruct Hin as [Heq|[]]. discriminate Heq.
  - vm_compute in Hinv. discriminate Hinv.
Qed.

(** C2, amended.  For a call whose name is not [loader], dispatch looks
    only at the registry, in both programs: an unregistered name runs
    nothing and appends no message; a registered tool whose payload decodes
    to keyword arguments is run on them and its result appended as the
    tool message; and replacing the active tools by any other list changes
    nothing of the outcome. *)
Theorem dispatch_consults_registry_only
    (json_loads : string → option pyval) (briefs : list (string * pyval))
    (bind : list (string * pyval) → result Mcp.LoaderArguments)
    (describe : gmap string pyval → gmap string Mcp.ServerState → string)
    (stA : FunctionCalling.State) (stB : Mcp.State) (call : ToolCall) :
  call_name call ≠ "loader" →
  let dA := FunctionCalling.dispatch json_loads briefs stA call in
  let dB := Mcp.dispatch json_loads bind describe stB call in
  (FunctionCalling.TOOL_REGISTRY stA !! call_name call = None →
   dA = {| FunctionCalling.state_after := stA; FunctionCalling.appended := [];
           FunctionCalling.invoked := []; FunctionCalling.raised := None |}) ∧
  (∀ tool f kwargs result,
     FunctionCalling.TOOL_REGISTRY stA !! call_name call = Some tool →
     FunctionCalling.function tool = FunctionCalling.LocalFunction f →
     json_loads (call_arguments call) = Some (PDict kwargs) →
     f kwargs = Ret result →
     dA = {| FunctionCalling.state_after := stA;
             FunctionCalling.appended := [tool_message call result];
             FunctionCalling.invoked := [Invoked (call_name call) kwargs];
             FunctionCalling.raised := None |}) ∧
  (∀ act tool f,
     FunctionCalling.TOOL_REGISTRY stA !! call_name call = Some tool →
     FunctionCalling.function tool = FunctionCalling.LocalFunction f →
     let dA' := FunctionCalling.dispatch json_loads briefs
                  (FunctionCalling.set_active_tools stA act) call in
     FunctionCalling.appended dA' = FunctionCalling.appended dA ∧
     FunctionCalling.invoked dA' = FunctionCalling.invoked dA ∧
     FunctionCalling.raised dA' = FunctionCalling.raised dA) ∧
  (Mcp.TOOL_REGISTRY stB !! call_name call = None →
   dB = {| Mcp.state_after := stB; Mcp.appended := [];
           Mcp.invoked := []; Mcp.raised := None |}) ∧
  (∀ tool f kwargs result,
     Mcp.TOOL_REGISTRY stB !! call_name call = Some tool →
     Mcp.function tool = Mcp.RemoteFunction f →
     json_loads (call_arguments call) = Some (PDict kwargs) →
     f kwargs = Ret result →
     dB = {| Mcp.state_after := stB;
             Mcp.appended := [tool_message call result];
             Mcp.invoked := [Invoked (call_name call) kwargs];
             Mcp.raised := None |}) ∧
  (∀ act tool f,
     Mcp.TOOL_REGISTRY stB !! call_name call = Some tool →
     Mcp.function tool = Mcp.RemoteFunction f →
     let dB' := Mcp.dispatch json_loads bind describe
                  (Mcp.set_active_tools stB act) call in
     Mcp.appended dB' = Mcp.appended dB ∧
     Mcp.invoked dB' = Mcp.invoked dB ∧
     Mcp.raised dB' = Mcp.raised dB).
Proof.
  intros Hname dA dB. subst dA dB.
  unfold FunctionCalling.dispatch, Mcp.dispatch.
  rewrite (not_loader_eqb _ Hname).
  split; [by intros ->|].
  split.
  { intros tool f kwargs result -> Hf -> Hres.
    unfold FunctionCalling.call_function. by rewrite Hf, Hres. }
  split.
  { intros act tool f Htool Hf. simpl. rewrite Htool.
    destruct (json_loads (call_arguments call)) as [[| | | | |kwargs]|]; try done.
    unfold FunctionCalling.call_function. rewrite Hf. by destruct (f kwargs). }
  split; [by intros ->|].
  split.
  { intros tool f kwargs result -> Hf -> Hres.
    unfold Mcp.call_function. by rewrite Hf, Hres. }
  intros act tool f Htool Hf. simpl. rewrite Htool.
  destruct (json_loads (call_arguments call)) as [[| | | | |kwargs]|]; try done.
  unfold Mcp.call_function. rewrite Hf. by destruct (f kwargs).
Qed.

Lemma dispatch_consults_registry_only_witness :
  call_name Sample.calculator_call ≠ "loader" ∧
  FunctionCalling.dispatch Sample.json_loads Sample.briefs Sample.state
    Sample.calculator_call =
  {| FunctionCalling.state_after := Sample.state;
     FunctionCalling.appended := [tool_message Sample.calculator_call "105"];
     FunctionCalling.invoked := [Invoked "calculator" [("expression", PStr "15 * 7")]];
     FunctionCalling.raised := None |}.
Proof.
  assert (Hname : call_name Sample.calculator_call ≠ "loader") by discriminate.
  split; [exact Hname|].
  pose proof (dispatch_consults_registry_only Sample.json_loads Sample.briefs
                Sample.bind_loader_arguments Sample.generate_loader_description
                Sample.state Sample.mcp_state Sample.calculator_call Hname) as H.
  simpl in H. destruct H as (_ & Hrun & _).
  apply (Hrun Sample.calculator (λ _, Ret "105")); reflexivity.
Defined.

(** ** [load_tool_summaries] *)

Lemma mark_twice (o : option Mcp.ServerState) :
  Mcp.mark_summaries_loaded <$> (Mcp.mark_summaries_loaded <$> o) =
  Mcp.mark_summaries_loaded <$> o.
Proof. by destruct o. Qed.

Lemma lookup_mark_all (known : list string) (ls : gmap string Mcp.ServerState) (s : string) :
  Mcp.mark_all known ls !! s =
  if bool_decide (s ∈ known) then Mcp.mark_summaries_loaded <$> ls !! s else ls !! s.
Proof.
  revert ls. induction known as [|a known IH]; intros ls; [done|].
  unfold Mcp.mark_all in *. simpl. rewrite IH, lookup_alter.
  destruct (decide (a = s)) as [->|Hne].
  - rewrite (bool_decide_eq_true_2 (s ∈ s :: known)) by apply list_elem_of_here.
    rewrite mark_twice. by case_bool_decide.
  - case_bool_decide as Hin.
    + rewrite bool_decide_eq_true_2; [done|]. by apply list_elem_of_further.
    + rewrite bool_decide_eq_false_2; [done|].
      intros [?|?]%elem_of_cons; [congruence|done].
Qed.

Lemma load_summaries_loop_unknown (known : list string) (unknown : string)
    (rest : list string) (ls : gmap string Mcp.ServerState) (loaded : list string) :
  Forall (λ s, is_Some (ls !! s)) known →
  ls !! unknown = None →
  Mcp.load_summaries_loop (known ++ unknown :: rest) ls loaded =
  (Mcp.mark_all known ls, "Error: server " +:+ unknown +:+ " not recognized").
Proof.
  revert ls loaded. induction known as [|a known IH]; intros ls loaded Hknown Hunknown.
  - simpl. by rewrite Hunknown.
  - apply Forall_cons in Hknown as [[x Ha] Hknown]. simpl. rewrite Ha.
    rewrite IH; [done| |].
    + eapply Forall_impl; [exact Hknown|]. intros s Hs. simpl in Hs.
      rewrite lookup_alter. case_decide; [|done]. rewrite Ha. by eexists.
    + rewrite lookup_alter. case_decide; [congruence|done].
Qed.

(** C3, as the specification has it, fails: [load_tool_summaries] on
    [["github"; "figma"]], with [github] registered and [figma] not, marks
    the summaries of [github] as loaded before it reports [figma]. *)
Lemma known_server_before_unknown_is_marked :
  ¬ Spec.unknown_server_leaves_state Sample.mcp_state ["github"; "figma"].
Proof.
  intros H.
  assert (Hunknown : ∃ s, s ∈ ["github"; "figma"] ∧
                          Mcp.LOADER_STATE Sample.mcp_state !! s = None).
  { exists "figma". split; [|reflexivity].
    apply list_elem_of_further, list_elem_of_here. }
  specialize (H Hunknown).
  apply (f_equal (λ st, Mcp.summaries_loaded_for st "github")) in H.
  vm_compute in H. discriminate H.
Qed.

(** C3, amended.  When the list of servers holds an unknown name,
    [load_tool_summaries] returns the error naming the first unknown
    server; the servers listed before it have their summaries marked as
    loaded; nothing else changes: not the registry, the active tools, the
    managers or the briefs, not the flag of any other server, and not the
    active tools of any server.  When the unknown name comes first, the
    state is unchanged. *)
Theorem load_tool_summaries_unknown_server (st : Mcp.State)
    (known : list string) (unknown : string) (rest : list string)
    (tool_names : option (list string)) (srv : option string) :
  Forall (λ s, is_Some (Mcp.LOADER_STATE st !! s)) known →
  Mcp.LOADER_STATE st !! unknown = None →
  let out := Mcp.loader_execute st "load_tool_summaries"
               (Some (known ++ unknown :: rest)) tool_names srv in
  snd out = "Error: server " +:+ unknown +:+ " not recognized" ∧
  Mcp.TOOL_REGISTRY (fst out) = Mcp.TOOL_REGISTRY st ∧
  Mcp.active_tools (fst out) = Mcp.active_tools st ∧
  Mcp.MCP_SERVER_MANAGERS (fst out) = Mcp.MCP_SERVER_MANAGERS st ∧
  Mcp.SERVER_BRIEFS (fst out) = Mcp.SERVER_BRIEFS st ∧
  (∀ s, Mcp.LOADER_STATE (fst out) !! s =
        if bool_decide (s ∈ known)
        then Mcp.mark_summaries_loaded <$> Mcp.LOADER_STATE st !! s
        else Mcp.LOADER_STATE st !! s) ∧
  (∀ s, Mcp.server_active_tools <$> Mcp.LOADER_STATE (fst out) !! s =
        Mcp.server_active_tools <$> Mcp.LOADER_STATE st !! s) ∧
  (known = [] → fst out = st).
Proof.
  intros Hknown Hunknown out. subst out. unfold Mcp.loader_execute.
  change (String.eqb "load_tool_summaries" "load_tool_summaries") with true.
  cbv iota.
  replace (Mcp.falsy_list (Some (known ++ unknown :: rest))) with false
    by (by destruct known).
  simpl default. rewrite load_summaries_loop_unknown by done. simpl.
  repeat split.
  - apply lookup_mark_all.
  - intros s. rewrite lookup_mark_all. case_bool_decide; [|done].
    by destruct (Mcp.LOADER_STATE st !! s).
  - intros ->. by destruct st.
Qed.

Lemma load_tool_summaries_unknown_server_witness :
  Forall (λ s, is_Some (Mcp.LOADER_STATE Sample.mcp_state !! s)) ["github"] ∧
  Mcp.LOADER_STATE Sample.mcp_state !! "figma" = None ∧
  snd (Mcp.loader_execute Sample.mcp_state "load_tool_summaries"
         (Some ["github"; "figma"]) None None) =
  "Error: server figma not recognized".
Proof.
  assert (Hknown : Forall (λ s, is_Some (Mcp.LOADER_STATE Sample.mcp_state !! s))
                          ["github"]).
  { constructor; [|constructor].
    exists Mcp.initial_server_state. reflexivity. }
  assert (Hunknown : Mcp.LOADER_STATE Sample.mcp_state !! "figma" = None)
    by reflexivity.
  split; [exact Hknown|]. split; [exact Hunknown|].
  exact (proj1 (load_tool_summaries_unknown_server Sample.mcp_state ["github"] "figma" []
                  None None Hknown Hunknown)).
Defined.

(** ** [load_tools] before the summaries *)

(** C5, as the specification has it, fails: with an empty list of tools
    the call is refused for the missing arguments, not for the missing
    summaries. *)
Lemma load_tools_without_tools_other_error :
  ¬ Spec.load_tools_needs_summaries Sample.mcp_state "github" (Some []).
Proof.
  intros H. specialize (H eq_refl). vm_compute in H. discriminate H.
Qed.

(** C5, amended.  For a server whose summaries are not loaded, every
    [load_tools] call leaves the whole state as it was and returns an
    error: the summaries-first error when the list of tools and the server
    name are not empty, the error for missing arguments otherwise. *)
Theorem load_tools_before_summaries (st : Mcp.State) (srv : string)
    (s : Mcp.ServerState) (servers tool_names : option (list string)) :
  Mcp.LOADER_STATE st !! srv = Some s →
  Mcp.summaries_loaded s = false →
  Mcp.loader_execute st "load_tools" servers tool_names (Some srv) =
  (st,
   if Mcp.falsy_list tool_names || String.eqb srv ""
   then "Error: tools list and server are required for load_tools action."
   else "Error: Tool summaries for " +:+ srv +:+ " must be loaded first.").
Proof.
  intros Hs Hflag. unfold Mcp.loader_execute.
  change (String.eqb "load_tools" "load_tool_summaries") with false.
  change (String.eqb "load_tools" "load_tools") with true.
  cbv iota. simpl Mcp.falsy_str.
  destruct (Mcp.falsy_list tool_names || String.eqb srv ""); [done|].
  simpl default. unfold Mcp.summaries_loaded_for. by rewrite Hs, Hflag.
Qed.

Lemma load_tools_before_summaries_witness :
  Mcp.LOADER_STATE Sample.mcp_state !! "github" = Some Mcp.initial_server_state ∧
  Mcp.summaries_loaded Mcp.initial_server_state = false ∧
  Mcp.loader_execute Sample.mcp_state "load_tools" None (Some ["list_repos"])
    (Some "github") =
  (Sample.mcp_state, "Error: Tool summaries for github must be loaded first.").
Proof.
  split; [reflexivity|]. split; [reflexivity|].
  apply (load_tools_before_summaries Sample.mcp_state "github"
           Mcp.initial_server_state None (Some ["list_repos"])); reflexivity.
Defined.

(** ** Briefs *)

Lemma dict_get_set_eq {V} (d : list (string * V)) (k : string) (v : V) :
  dict_get (dict_set d k v) k = Some v.
Proof.
  unfold dict_get. induction d as [|[k' v'] d IH]; simpl.
  - by rewrite String.eqb_refl.
  - destruct (String.eqb k k') eqn:Hk; simpl.
    + by rewrite String.eqb_refl.
    + by rewrite Hk.
Qed.

Lemma dict_get_set_ne {V} (d : list (string * V)) (k k' : string) (v : V) :
  k ≠ k' → dict_get (dict_set d k v) k' = dict_get d k'.
Proof.
  intros Hne. unfold dict_get. induction d as [|[k0 v0] d IH]; simpl.
  - apply String.eqb_neq in Hne. by rewrite String.eqb_sym, Hne.
  - destruct (String.eqb k k0) eqn:Hk; simpl.
    + apply String.eqb_eq in Hk as <-.
      apply String.eqb_neq in Hne. by rewrite String.eqb_sym, Hne.
    + destruct (String.eqb k' k0); [done|]. exact IH.
Qed.

Section fallback.
Variable reg : gmap string FunctionCalling.Tool.

Let own_brief (tool : FunctionCalling.Tool) : pyval :=
  PStr (truncate_description
          (FunctionCalling.fn_description (FunctionCalling.definition tool))).

Let step (briefs : list (string * pyval)) (tool_name : string) :=
  match reg !! tool_name with
  | Some tool => dict_set briefs tool_name (own_brief tool)
  | None => briefs
  end.

Lemma fallback_keeps (l : list string) (d : list (string * pyval)) n tool :
  reg !! n = Some tool →
  dict_get d n = Some (own_brief tool) →
  dict_get (foldl step d l) n = Some (own_brief tool).
Proof.
  intros Hn. revert d. induction l as [|a l IH]; intros d Hd; [done|].
  simpl. apply IH. unfold step.
  destruct (decide (a = n)) as [->|Hne].
  - rewrite Hn. apply dict_get_set_eq.
  - destruct (reg !! a); [|done]. by rewrite dict_get_set_ne.
Qed.

Lemma fallback_sets (l : list string) (d : list (string * pyval)) n tool :
  reg !! n = Some tool →
  n ∈ l →
  dict_get (foldl step d l) n = Some (own_brief tool).
Proof.
  intros Hn. revert d. induction l as [|a l IH]; intros d Hin.
  - by apply elem_of_nil in Hin.
  - simpl. destruct (decide (a = n)) as [->|Hne].
    + apply fallback_keeps; [done|]. unfold step. rewrite Hn.
      apply dict_get_set_eq.
    + apply IH. apply elem_of_cons in Hin as [?|?]; [congruence|done].
Qed.

Lemma fallback_briefs_lookup (tools_list : list string) n tool :
  reg !! n = Some tool →
  n ∈ tools_list →
  dict_get (FunctionCalling.fallback_briefs reg tools_list) n =
  Some (PStr (truncate_description
                (FunctionCalling.fn_description (FunctionCalling.definition tool)))).
Proof. apply fallback_sets. Qed.
End fallback.

(** The text that stands for a description: the description itself up to
    100 characters, and its first 100 characters and three dots beyond. *)
Lemma truncate_description_short (desc : string) :
  (String.length desc <= 100)%nat → truncate_description desc = desc.
Proof.
  intros H. unfold truncate_description.
  destruct (Nat.ltb_spec 100 (String.length desc)); [lia|done].
Qed.

Lemma truncate_description_long (desc : string) :
  (100 < String.length desc)%nat →
  truncate_description desc = String.substring 0 100 desc +:+ "...".
Proof.
  intros H. unfold truncate_description.
  destruct (Nat.ltb_spec 100 (String.length desc)); [done|lia].
Qed.

(** A reply that parses is returned as it is, whatever names it has. *)
Lemma generate_briefs_returns_parsed (json_loads : string → option pyval)
    (strip : string → string) (reg : gmap string FunctionCalling.Tool)
    (tools_list : list string) (text : string) (parsed : pyval) :
  omap (λ n, FunctionCalling.definition <$> reg !! n) tools_list ≠ [] →
  text ≠ "" →
  json_loads (strip text) = Some parsed →
  FunctionCalling.generate_briefs json_loads strip reg tools_list
    (ResponseContent (Some text)) = Ret parsed.
Proof.
  intros Hdefs Htext Hparsed. unfold FunctionCalling.generate_briefs.
  destruct tools_list as [|a l]; [done|].
  destruct (omap _ (a :: l)); [done|].
  apply String.eqb_neq in Htext. by rewrite Htext, Hparsed.
Qed.

(** An empty reply leaves the flat generator without a [return]: the
    result is [None], not a dictionary. *)
Lemma generate_briefs_empty_reply (json_loads : string → option pyval)
    (strip : string → string) (reg : gmap string FunctionCalling.Tool)
    (tools_list : list string) (content : option string) :
  omap (λ n, FunctionCalling.definition <$> reg !! n) tools_list ≠ [] →
  content = None ∨ content = Some "" →
  FunctionCalling.generate_briefs json_loads strip reg tools_list
    (ResponseContent content) = Ret PNone.
Proof.
  intros Hdefs Hcontent. unfold FunctionCalling.generate_briefs.
  destruct tools_list as [|a l]; [done|].
  destruct (omap _ (a :: l)); [done|].
  by destruct Hcontent as [-> | ->].
Qed.

(** The fallback of the server-mode generator looks the registry up with
    the descriptors themselves: it raises, or finds nothing and returns no
    tool brief at all. *)
Lemma fallback_tool_briefs_empty (hashable_descriptors : bool)
    (reg : gmap string Mcp.Tool) (tools_list : list Mcp.McpTool)
    (acc : list (string * pyval)) :
  tools_list ≠ [] →
  Mcp.fallback_tool_briefs hashable_descriptors reg tools_list acc =
  if hashable_descriptors then Ret acc else Raise TypeError.
Proof.
  intros Hne. destruct hashable_descriptors.
  - clear Hne. induction tools_list as [|t l IH]; [done|]. simpl. exact IH.
  - by destruct tools_list.
Qed.

Lemma generate_briefs_server_fallback (json_loads : string → option pyval)
    (strip : string → string) (hashable_descriptors : bool)
    (reg : gmap string Mcp.Tool) (tools_list : list Mcp.McpTool)
    (mcp_server_name : string) (content : option string) :
  mcp_server_name ≠ "" →
  omap (Mcp.owned_definition reg mcp_server_name) tools_list ≠ [] →
  content = None ∨ content = Some "" ∨
  (∃ text, content = Some text ∧ json_loads (strip text) = None) →
  Mcp.generate_briefs json_loads strip hashable_descriptors reg tools_list
    mcp_server_name (ResponseContent content) =
  if hashable_descriptors
  then Ret (PDict [("server_summary",
                    PStr (mcp_server_name +:+
                          " MCP server provides various tools for specific tasks."));
                   ("tool_briefs", PDict [])])
  else Raise TypeError.
Proof.
  intros Hname Hdefs Hcontent. unfold Mcp.generate_briefs.
  destruct tools_list as [|t l]; [done|].
  apply String.eqb_neq in Hname. rewrite Hname.
  destruct (omap _ (t :: l)); [done|].
  assert (Hfb : Mcp.fallback hashable_descriptors reg (t :: l) mcp_server_name =
                if hashable_descriptors
                then Ret (PDict [("server_summary",
                                  PStr (mcp_server_name +:+
                                        " MCP server provides various tools for specific tasks."));
                                 ("tool_briefs", PDict [])])
                else Raise TypeError).
  { unfold Mcp.fallback. rewrite fallback_tool_briefs_empty by done.
    by destruct hashable_descriptors. }
  destruct Hcontent as [->|[->|(text & -> & Hload)]]; [done|done|].
  destruct (String.eqb text ""); [done|]. by rewrite Hload.
Qed.

(** C4, as the specification has it, fails: when the reply of the
    summarising model parses but covers only [calculator], the result has
    no entry for [get_weather]. *)
Lemma partial_reply_is_returned_as_is :
  ¬ Spec.briefs_cover_every_name Sample.json_loads Sample.strip Sample.registry
      ["calculator"; "get_weather"] (ResponseContent (Some Sample.partial_reply)).
Proof.
  intros H. destruct H as (briefs & Hout & Hall).
  - discriminate.
  - intros n Hn. apply list_elem_of_In in Hn. simpl in Hn.
    destruct Hn as [<-|[<-|[]]]; by eexists.
  - vm_compute in Hout. injection Hout as <-.
    destruct (Hall "get_weather") as [v Hv].
    + apply list_elem_of_further, list_elem_of_here.
    + vm_compute in Hv. discriminate Hv.
Qed.

(** C4, amended.  For a non-empty list of registered names, when the
    response of the summarising model cannot be read or its text is not
    JSON, the flat generator returns a dictionary with an entry for every
    requested name: the tool's own description, cut to its first 100
    characters and three dots when it is longer. *)
Theorem generate_briefs_fallback_covers (json_loads : string → option pyval)
    (strip : string → string) (reg : gmap string FunctionCalling.Tool)
    (tools_list : list string) (response : Completion) :
  tools_list ≠ [] →
  (∀ n, n ∈ tools_list → is_Some (reg !! n)) →
  response = ResponseMalformed ∨
  (∃ text, response = ResponseContent (Some text) ∧ text ≠ "" ∧
           json_loads (strip text) = None) →
  ∃ briefs,
    FunctionCalling.generate_briefs json_loads strip reg tools_list response =
    Ret (PDict briefs) ∧
    ∀ n tool, n ∈ tools_list → reg !! n = Some tool →
      dict_get briefs n =
      Some (PStr (truncate_description
                    (FunctionCalling.fn_description (FunctionCalling.definition tool)))).
Proof.
  intros Hne Hreg Hresp.
  exists (FunctionCalling.fallback_briefs reg tools_list). split.
  - unfold FunctionCalling.generate_briefs.
    destruct tools_list as [|a l]; [done|].
    destruct (omap _ (a :: l)) eqn:Hdefs.
    { destruct (Hreg a) as [t Ht]; [apply list_elem_of_here|].
      simpl in Hdefs. rewrite Ht in Hdefs. discriminate Hdefs. }
    destruct Hresp as [->|(text & -> & Htext & Hload)]; [done|].
    apply String.eqb_neq in Htext. by rewrite Htext, Hload.
  - intros n tool Hin Hn. by apply fallback_briefs_lookup.
Qed.

Lemma generate_briefs_fallback_covers_witness :
  ∃ briefs,
    FunctionCalling.generate_briefs Sample.json_loads Sample.strip Sample.registry
      ["calculator"; "get_weather"]
      (ResponseContent (Some "Sorry, I cannot produce JSON today.")) =
    Ret (PDict briefs) ∧
    dict_get briefs "get_weather" =
    Some (PStr "Gets the current weather for a location.").
Proof.
  destruct (generate_briefs_fallback_covers Sample.json_loads Sample.strip
              Sample.registry ["calculator"; "get_weather"]
              (ResponseContent (Some "Sorry, I cannot produce JSON today.")))
    as (briefs & Hout & Hall).
  - discriminate.
  - intros n Hn. apply list_elem_of_In in Hn. simpl in Hn.
    destruct Hn as [<-|[<-|[]]]; by eexists.
  - right. eexists. split; [reflexivity|]. split; [discriminate|reflexivity].
  - exists briefs. split; [exact Hout|].
    apply (Hall "get_weather" Sample.get_weather).
    + apply list_elem_of_further, list_elem_of_here.
    + reflexivity.
Defined.

(** ** Starting the servers *)

Section load_mcp_tools.
Variable connect : list string → string → Mcp.ServerConfig → Mcp.Session.
Variable call_tool : string → string → list (string * pyval) → result string.

Lemma list_tools_origin (srv : string) (listed : list Mcp.McpTool)
    (reg : gmap string Mcp.Tool) (n : string) (t : Mcp.Tool) :
  Mcp.list_tools call_tool srv listed reg !! n = Some t →
  reg !! n = Some t ∨ ∃ tool, tool ∈ listed ∧ t = Mcp.server_tool call_tool srv tool.
Proof.
  revert reg. induction listed as [|a l IH]; intros reg H; [by left|].
  simpl in H. apply IH in H as [H|(tool & Hin & ->)].
  - unfold Mcp.register in H. rewrite lookup_insert in H. case_decide.
    + injection H as <-. right. exists a. split; [apply list_elem_of_here|done].
    + by left.
  - right. exists tool. split; [by apply list_elem_of_further|done].
Qed.

(** The passes of the loop: the first server is always tried; the loop
    goes on with the rest, or ends there. *)
Lemma passes_cons abandoned srv cfg rest :
  ∃ ab tail,
    Mcp.passes connect abandoned ((srv, cfg) :: rest) =
    (srv, connect abandoned srv cfg) :: tail ∧
    (tail = [] ∨ tail = Mcp.passes connect ab rest).
Proof.
  cbn [Mcp.passes].
  destruct (Mcp.failure (connect abandoned srv cfg)) as [e|].
  - destruct (is_Exception e).
    + exists (abandoned ++ [srv]), (Mcp.passes connect (abandoned ++ [srv]) rest).
      split; [done|by right].
    + exists abandoned, []. split; [done|by left].
  - exists abandoned, (Mcp.passes connect abandoned rest). split; [done|by right].
Qed.

Lemma passes_names abandoned servers srv outcome :
  (srv, outcome) ∈ Mcp.passes connect abandoned servers → srv ∈ servers.*1.
Proof.
  revert abandoned. induction servers as [|[s c] rest IH]; intros abandoned Hin.
  - by apply elem_of_nil in Hin.
  - rewrite fmap_cons. simpl.
    destruct (passes_cons abandoned s c rest) as (ab & tail & Hp & Htail).
    rewrite Hp in Hin. apply elem_of_cons in Hin as [Heq|Hin].
    + injection Heq as -> _. apply list_elem_of_here.
    + apply list_elem_of_further.
      destruct Htail as [->| ->]; [by apply elem_of_nil in Hin|by eapply IH].
Qed.

(** With distinct server names, a server has one pass at most. *)
Lemma passes_one_outcome abandoned servers srv (o1 o2 : Mcp.Session) :
  NoDup servers.*1 →
  (srv, o1) ∈ Mcp.passes connect abandoned servers →
  (srv, o2) ∈ Mcp.passes connect abandoned servers →
  o1 = o2.
Proof.
  revert abandoned. induction servers as [|[s c] rest IH]; intros abandoned Hdup H1 H2.
  - by apply elem_of_nil in H1.
  - rewrite fmap_cons in Hdup. simpl in Hdup. apply NoDup_cons in Hdup as [Hfresh Hdup].
    destruct (passes_cons abandoned s c rest) as (ab & tail & Hp & Htail).
    rewrite Hp in H1, H2.
    assert (Hnot : ∀ o, (s, o) ∉ tail).
    { intros o Ho. destruct Htail as [->| ->]; [by apply elem_of_nil in Ho|].
      apply Hfresh. by eapply passes_names. }
    apply elem_of_cons in H1 as [Heq1|H1]; apply elem_of_cons in H2 as [Heq2|H2].
    + congruence.
    + injection Heq1 as -> _. by destruct (Hnot o2).
    + injection Heq2 as -> _. by destruct (Hnot o1).
    + destruct Htail as [->| ->]; [by apply elem_of_nil in H1|]. by eapply IH.
Qed.

(** The state a server that starts leaves. *)
Let started (st : Mcp.State) (srv : string) (cfg : Mcp.ServerConfig)
    (listed : list Mcp.McpTool) : Mcp.State :=
  {| Mcp.TOOL_REGISTRY := Mcp.list_tools call_tool srv listed (Mcp.TOOL_REGISTRY st);
     Mcp.active_tools := Mcp.active_tools st;
     Mcp.MCP_SERVER_MANAGERS :=
       <[srv := {| Mcp.server_name := srv; Mcp.server_config := cfg;
                   Mcp.tools := listed |}]> (Mcp.MCP_SERVER_MANAGERS st);
     Mcp.SERVER_BRIEFS := Mcp.SERVER_BRIEFS st;
     Mcp.LOADER_STATE := <[srv := Mcp.initial_server_state]> (Mcp.LOADER_STATE st) |}.

(** One pass of the loop, by the outcome of its [try] body. *)
Lemma load_servers_pass abandoned srv cfg rest (st : Mcp.State) :
  (∃ listed, connect abandoned srv cfg = Mcp.Listed listed ∧
     Mcp.load_servers connect call_tool abandoned ((srv, cfg) :: rest) st =
     Mcp.load_servers connect call_tool abandoned rest (started st srv cfg listed) ∧
     Mcp.passes connect abandoned ((srv, cfg) :: rest) =
     (srv, Mcp.Listed listed) :: Mcp.passes connect abandoned rest) ∨
  (∃ e, Mcp.failure (connect abandoned srv cfg) = Some e ∧ is_Exception e = true ∧
     Mcp.load_servers connect call_tool abandoned ((srv, cfg) :: rest) st =
     Mcp.load_servers connect call_tool (abandoned ++ [srv]) rest st ∧
     Mcp.passes connect abandoned ((srv, cfg) :: rest) =
     (srv, connect abandoned srv cfg) :: Mcp.passes connect (abandoned ++ [srv]) rest) ∨
  (∃ e, Mcp.failure (connect abandoned srv cfg) = Some e ∧ is_Exception e = false ∧
     Mcp.load_servers connect call_tool abandoned ((srv, cfg) :: rest) st =
     (st, Raise e) ∧
     Mcp.passes connect abandoned ((srv, cfg) :: rest) =
     [(srv, connect abandoned srv cfg)]).
Proof.
  cbn [Mcp.load_servers Mcp.passes]. unfold Mcp.load_server.
  destruct (connect abandoned srv cfg) as [e|e|listed]; simpl.
  - right. destruct (is_Exception e) eqn:He; [left|right]; by exists e.
  - right. destruct (is_Exception e) eqn:He; [left|right]; by exists e.
  - left. by exists listed.
Qed.

(** The routine returns exactly when no pass ends with an exception that
    is not an [Exception]; otherwise it raises that exception. *)
Lemma load_servers_ends abandoned servers (st : Mcp.State) :
  (Mcp.load_servers connect call_tool abandoned servers st).2 =
  match last (Mcp.passes connect abandoned servers) with
  | Some (_, outcome) =>
      match Mcp.failure outcome with
      | Some e => if is_Exception e then Ret tt else Raise e
      | None => Ret tt
      end
  | None => Ret tt
  end.
Proof.
  revert abandoned st. induction servers as [|[s c] rest IH]; intros abandoned st;
    [done|].
  destruct (load_servers_pass abandoned s c rest st)
    as [(listed & Hc & -> & ->)|[(e & Hc & He & -> & ->)|(e & Hc & He & -> & ->)]].
  - rewrite last_cons, IH.
    by destruct (last (Mcp.passes connect abandoned rest)) as [[? ?]|].
  - rewrite last_cons, IH.
    destruct (last (Mcp.passes connect (abandoned ++ [s]) rest)) as [[? ?]|]; [done|].
    by rewrite Hc, He.
  - simpl. by rewrite Hc, He.
Qed.

Lemma load_servers_returns abandoned servers (st : Mcp.State) :
  Forall (λ pass, ∀ e, Mcp.failure pass.2 = Some e → is_Exception e = true)
    (Mcp.passes connect abandoned servers) →
  (Mcp.load_servers connect call_tool abandoned servers st).2 = Ret tt ∧
  length (Mcp.passes connect abandoned servers) = length servers.
Proof.
  revert abandoned st. induction servers as [|[s c] rest IH]; intros abandoned st Hall;
    [done|].
  destruct (load_servers_pass abandoned s c rest st)
    as [(listed & Hc & -> & Hp)|[(e & Hc & He & -> & Hp)|(e & Hc & He & -> & Hp)]];
    rewrite Hp in Hall |- *; apply Forall_cons in Hall as [Hhead Hall].
  - destruct (IH _ (started st s c listed) Hall) as [-> Hlen]. simpl. by rewrite Hlen.
  - destruct (IH _ st Hall) as [-> Hlen]. simpl. by rewrite Hlen.
  - simpl in Hhead. specialize (Hhead e Hc). congruence.
Qed.

Lemma load_servers_other abandoned servers (st : Mcp.State) (srv : string) :
  (∀ listed, (srv, Mcp.Listed listed) ∉ Mcp.passes connect abandoned servers) →
  Mcp.LOADER_STATE (Mcp.load_servers connect call_tool abandoned servers st).1 !! srv =
  Mcp.LOADER_STATE st !! srv ∧
  Mcp.MCP_SERVER_MANAGERS
    (Mcp.load_servers connect call_tool abandoned servers st).1 !! srv =
  Mcp.MCP_SERVER_MANAGERS st !! srv.
Proof.
  revert abandoned st. induction servers as [|[s c] rest IH]; intros abandoned st Hnot;
    [done|].
  destruct (load_servers_pass abandoned s c rest st)
    as [(listed & Hc & -> & Hp)|[(e & Hc & He & -> & Hp)|(e & Hc & He & -> & Hp)]];
    rewrite Hp in Hnot.
  - assert (srv ≠ s) as Hne.
    { intros ->. apply (Hnot listed), list_elem_of_here. }
    destruct (IH abandoned (started st s c listed)) as [-> ->].
    + intros l Hin. apply (Hnot l). by apply list_elem_of_further.
    + simpl. by rewrite !lookup_insert_ne.
  - apply IH. intros l Hin. apply (Hnot l). by apply list_elem_of_further.
  - done.
Qed.

Lemma load_servers_started abandoned servers (st : Mcp.State) srv listed :
  NoDup servers.*1 →
  (srv, Mcp.Listed listed) ∈ Mcp.passes connect abandoned servers →
  Mcp.LOADER_STATE (Mcp.load_servers connect call_tool abandoned servers st).1 !! srv =
  Some Mcp.initial_server_state ∧
  ∃ cfg, (srv, cfg) ∈ servers ∧
    Mcp.MCP_SERVER_MANAGERS
      (Mcp.load_servers connect call_tool abandoned servers st).1 !! srv =
    Some {| Mcp.server_name := srv; Mcp.server_config := cfg; Mcp.tools := listed |}.
Proof.
  revert abandoned st. induction servers as [|[s c] rest IH];
    intros abandoned st Hdup Hin.
  - by apply elem_of_nil in Hin.
  - rewrite fmap_cons in Hdup. simpl in Hdup. apply NoDup_cons in Hdup as [Hfresh Hdup].
    assert (Hrest : ∀ ab st0,
              (srv, Mcp.Listed listed) ∈ Mcp.passes connect ab rest →
              Mcp.LOADER_STATE (Mcp.load_servers connect call_tool ab rest st0).1 !! srv =
              Some Mcp.initial_server_state ∧
              ∃ cfg, (srv, cfg) ∈ (s, c) :: rest ∧
                Mcp.MCP_SERVER_MANAGERS
                  (Mcp.load_servers connect call_tool ab rest st0).1 !! srv =
                Some {| Mcp.server_name := srv; Mcp.server_config := cfg;
                        Mcp.tools := listed |}).
    { intros ab st0 H0. destruct (IH ab st0 Hdup H0) as (Hls & cfg & Hcfg & Hm).
      split; [exact Hls|]. exists cfg. split; [by apply list_elem_of_further|exact Hm]. }
    destruct (load_servers_pass abandoned s c rest st)
      as [(l & Hc & -> & Hp)|[(e & Hc & He & -> & Hp)|(e & Hc & He & -> & Hp)]];
      rewrite Hp in Hin; apply elem_of_cons in Hin as [Heq|Hin].
    + injection Heq as -> ->.
      destruct (load_servers_other abandoned rest (started st s c l) s) as [-> ->].
      { intros l' Hin'. apply Hfresh. by eapply passes_names. }
      simpl. rewrite !lookup_insert_eq. split; [done|].
      exists c. split; [apply list_elem_of_here|done].
    + by apply Hrest.
    + injection Heq as -> Heq. rewrite <- Heq in Hc. discriminate Hc.
    + by apply Hrest.
    + injection Heq as -> Heq. rewrite <- Heq in Hc. discriminate Hc.
    + by apply elem_of_nil in Hin.
Qed.

Lemma load_servers_origin abandoned servers (st : Mcp.State) (n : string) (t : Mcp.Tool) :
  Mcp.TOOL_REGISTRY (Mcp.load_servers connect call_tool abandoned servers st).1 !! n =
  Some t →
  Mcp.TOOL_REGISTRY st !! n = Some t ∨
  ∃ srv listed tool,
    (srv, Mcp.Listed listed) ∈ Mcp.passes connect abandoned servers ∧
    tool ∈ listed ∧ t = Mcp.server_tool call_tool srv tool.
Proof.
  revert abandoned st. induction servers as [|[s c] rest IH]; intros abandoned st Hn.
  - by left.
  - destruct (load_servers_pass abandoned s c rest st)
      as [(l & Hc & Hl & ->)|[(e & Hc & He & Hl & ->)|(e & Hc & He & Hl & ->)]];
      rewrite Hl in Hn.
    + destruct (IH _ _ Hn) as [H|(srv & listed & tool & Hin & ?)].
      * simpl in H. apply list_tools_origin in H as [H|(tool & Hin & ->)]; [by left|].
        right. exists s, l, tool. split; [apply list_elem_of_here|done].
      * right. exists srv, listed, tool. split; [by apply list_elem_of_further|done].
    + destruct (IH _ _ Hn) as [H|(srv & listed & tool & Hin & ?)]; [by left|].
      right. exists srv, listed, tool. split; [by apply list_elem_of_further|done].
    + by left.
Qed.

(** An [Exception] of one server and then an exception of the next that
    is not one: the second escapes, with the state as it was before the
    two. *)
Lemma load_mcp_tools_escape (s1 s2 : string) (c1 c2 : Mcp.ServerConfig)
    (rest : list (string * Mcp.ServerConfig)) (e1 e2 : exn) (st : Mcp.State) :
  Mcp.failure (connect [] s1 c1) = Some e1 → is_Exception e1 = true →
  Mcp.failure (connect [s1] s2 c2) = Some e2 → is_Exception e2 = false →
  Mcp.load_mcp_tools connect call_tool ((s1, c1) :: (s2, c2) :: rest) st =
  (st, Raise e2).
Proof.
  intros H1 He1 H2 He2. unfold Mcp.load_mcp_tools.
  destruct (load_servers_pass [] s1 c1 ((s2, c2) :: rest) st)
    as [(l & Hc & _)|[(e & Hc & He & -> & _)|(e & Hc & He & _)]];
    [rewrite Hc in H1; discriminate H1| |congruence].
  destruct (load_servers_pass ([] ++ [s1]) s2 c2 rest st)
    as [(l & Hc' & _)|[(e' & Hc' & He' & _)|(e' & Hc' & He' & -> & _)]].
  - simpl in Hc'. rewrite Hc' in H2. discriminate H2.
  - simpl in Hc'. congruence.
  - simpl in Hc'. congruence.
Qed.
End load_mcp_tools.

(** C7.  On the code the claim fails.  GitHub is spawned and fails the
    handshake, which is an [Exception]: the handler of [load_mcp_tools]
    catches it and goes on, but the manager is dropped with its exit stack
    open.  The initialisation of Figma is then cancelled, and
    [asyncio.CancelledError] is no [Exception]: it escapes the routine.
    Figma, which starts when it is configured alone, has no tool
    registered, no manager and no loader state. *)
Theorem abandoned_manager_cancels_next_server :
  let alone :=
    Mcp.load_mcp_tools Sample.github_left_open Sample.call_tool
      [("figma", Sample.figma_config)] Sample.mcp_empty in
  let both :=
    Mcp.load_mcp_tools Sample.github_left_open Sample.call_tool
      Sample.MCP_SERVERS Sample.mcp_empty in
  (snd alone = Ret tt ∧
   Mcp.TOOL_REGISTRY (fst alone) !! "get_figma_data" =
   Some (Mcp.server_tool Sample.call_tool "figma" Sample.get_figma_data) ∧
   Mcp.LOADER_STATE (fst alone) !! "figma" = Some Mcp.initial_server_state) ∧
  snd both = Raise CancelledError ∧
  Mcp.TOOL_REGISTRY (fst both) !! "get_figma_data" = None ∧
  Mcp.MCP_SERVER_MANAGERS (fst both) !! "figma" = None ∧
  Mcp.LOADER_STATE (fst both) !! "figma" = None.
Proof. vm_compute. repeat split. Qed.

(** ** The active tools only grow *)

Lemma activate_loop_extends (reg : gmap string FunctionCalling.Tool)
    (briefs : list (string * pyval)) (snapshot : list string) (names : list pyval)
    (act : list FunctionCalling.ToolDefinition) (rep : FunctionCalling.Report) :
  ∃ k, fst (FunctionCalling.activate_loop reg briefs snapshot names act rep) = act ++ k.
Proof.
  revert act rep. induction names as [|v names IH]; intros act rep; simpl.
  - exists []. by rewrite app_nil_r.
  - destruct v as [| | |s| |]; try apply IH.
    + case_bool_decide; [apply IH|].
      destruct (dict_mem briefs s); simpl; [|apply IH].
      destruct (reg !! s) as [tool|]; [|apply IH].
      destruct (IH (act ++ [FunctionCalling.definition tool])
                  (FunctionCalling.add_activated rep s)) as [k ->].
      exists (FunctionCalling.definition tool :: k). by rewrite <- app_assoc.
    + exists []. by rewrite app_nil_r.
    + exists []. by rewrite app_nil_r.
Qed.

Lemma loader_execute_extends_A (briefs : list (string * pyval))
    (st : FunctionCalling.State) (tool_names : pyval) :
  ∃ k, FunctionCalling.active_tools
         (fst (FunctionCalling.loader_execute briefs st tool_names)) =
       FunctionCalling.active_tools st ++ k.
Proof.
  unfold FunctionCalling.loader_execute.
  destruct tool_names as [| | | |names|]; try (exists []; by rewrite app_nil_r).
  unfold FunctionCalling.activation.
  destruct (activate_loop_extends (FunctionCalling.TOOL_REGISTRY st) briefs
              (FunctionCalling.active_tool_names st) names
              (FunctionCalling.active_tools st) FunctionCalling.empty_report) as [k Hk].
  destruct (FunctionCalling.activate_loop _ _ _ _ _ _) as [act r].
  simpl in *. by exists k.
Qed.

Lemma after_loader_extends (call : ToolCall) (st : FunctionCalling.State)
    (out : FunctionCalling.State * result string) :
  (∃ k, FunctionCalling.active_tools (fst out) = FunctionCalling.active_tools st ++ k) →
  ∃ k, FunctionCalling.active_tools
         (FunctionCalling.state_after (FunctionCalling.after_loader call out)) =
       FunctionCalling.active_tools st ++ k.
Proof. by destruct out as [st' [result|e]]. Qed.

Lemma dispatch_extends_A (json_loads : string → option pyval)
    (briefs : list (string * pyval)) (st : FunctionCalling.State) (call : ToolCall) :
  ∃ k, FunctionCalling.active_tools
         (FunctionCalling.state_after (FunctionCalling.dispatch json_loads briefs st call)) =
       FunctionCalling.active_tools st ++ k.
Proof.
  assert (Hsame : ∃ k, FunctionCalling.active_tools st =
                       FunctionCalling.active_tools st ++ k)
    by (exists []; by rewrite app_nil_r).
  unfold FunctionCalling.dispatch.
  destruct (String.eqb (call_name call) "loader").
  - destruct (json_loads (call_arguments call)) as [[| | | | |d]|]; try exact Hsame.
    apply after_loader_extends, loader_execute_extends_A.
  - destruct (FunctionCalling.TOOL_REGISTRY st !! call_name call) as [tool|];
      [|exact Hsame].
    destruct (json_loads (call_arguments call)) as [[| | | | |kwargs]|]; try exact Hsame.
    unfold FunctionCalling.call_function.
    destruct (FunctionCalling.function tool) as [f|].
    + by destruct (f kwargs).
    + destruct kwargs as [|[k v] [|? ?]]; try exact Hsame.
      destruct (String.eqb k "tool_names"); [|exact Hsame].
      apply after_loader_extends, loader_execute_extends_A.
Qed.

Lemma run_ops_extends_A (json_loads : string → option pyval)
    (briefs : list (string * pyval)) (ops : list (FunctionCalling.Op))
    (st : FunctionCalling.State) :
  ∃ k, FunctionCalling.active_tools (FunctionCalling.run_ops json_loads briefs st ops) =
       FunctionCalling.active_tools st ++ k.
Proof.
  revert st. induction ops as [|op ops IH]; intros st.
  - exists []. by rewrite app_nil_r.
  - unfold FunctionCalling.run_ops in *. simpl.
    destruct (IH (FunctionCalling.run_op json_loads briefs st op)) as [k ->].
    assert (∃ k0, FunctionCalling.active_tools
                    (FunctionCalling.run_op json_loads briefs st op) =
                  FunctionCalling.active_tools st ++ k0) as [k0 ->].
    { destruct op; [apply loader_execute_extends_A|apply dispatch_extends_A]. }
    exists (k0 ++ k). by rewrite app_assoc.
Qed.

Lemma load_tools_loop_extends (reg : gmap string Mcp.Tool) (srv : string)
    (snapshot names : list string) (act : list Mcp.ToolDefinition)
    (ls : gmap string Mcp.ServerState) (rep : Mcp.Report) :
  ∃ k, (Mcp.load_tools_loop reg srv snapshot names act ls rep).1.1 = act ++ k.
Proof.
  revert act ls rep. induction names as [|n names IH]; intros act ls rep; simpl.
  - exists []. by rewrite app_nil_r.
  - case_bool_decide; [apply IH|].
    destruct (reg !! n) as [tool_info|]; [|apply IH].
    case_bool_decide; [|apply IH].
    destruct (IH (act ++ [Mcp.definition tool_info])
                (alter (Mcp.add_active_tool n) srv ls)
                (Mcp.add_activated rep n)) as [k ->].
    exists (Mcp.definition tool_info :: k). by rewrite <- app_assoc.
Qed.

Lemma loader_execute_extends_B (st : Mcp.State) (action : string)
    (servers tool_names : option (list string)) (srv : option string) :
  ∃ k, Mcp.active_tools (fst (Mcp.loader_execute st action servers tool_names srv)) =
       Mcp.active_tools st ++ k.
Proof.
  assert (Hsame : ∃ k, Mcp.active_tools st = Mcp.active_tools st ++ k)
    by (exists []; by rewrite app_nil_r).
  unfold Mcp.loader_execute.
  destruct (String.eqb action "load_tool_summaries").
  - destruct (Mcp.falsy_list servers); [exact Hsame|].
    by destruct (Mcp.load_summaries_loop _ _ _).
  - destruct (String.eqb action "load_tools"); [|exact Hsame].
    destruct (Mcp.falsy_list tool_names || Mcp.falsy_str srv); [exact Hsame|].
    destruct (negb _); [exact Hsame|].
    destruct (Mcp.MCP_SERVER_MANAGERS st !! default "" srv); [|exact Hsame].
    unfold Mcp.activation.
    destruct (load_tools_loop_extends (Mcp.TOOL_REGISTRY st) (default "" srv)
                (Mcp.active_tool_names st) (default [] tool_names)
                (Mcp.active_tools st) (Mcp.LOADER_STATE st) Mcp.empty_report) as [k Hk].
    destruct (Mcp.load_tools_loop _ _ _ _ _ _ _) as [[act ls] rep].
    simpl in *. by exists k.
Qed.

Lemma refresh_keeps_names
    (describe : gmap string pyval → gmap string Mcp.ServerState → string)
    (st : Mcp.State) :
  Mcp.active_tool_names (Mcp.refresh_loader_tool_description describe st) =
  Mcp.active_tool_names st.
Proof.
  unfold Mcp.active_tool_names, Mcp.refresh_loader_tool_description. simpl.
  rewrite <- list_fmap_compose. apply list_fmap_ext.
  intros i tool _. simpl. by destruct (String.eqb (Mcp.fn_name tool) "loader").
Qed.

Lemma names_extend_B (st st' : Mcp.State) :
  (∃ k, Mcp.active_tools st' = Mcp.active_tools st ++ k) →
  ∃ k, Mcp.active_tool_names st' = Mcp.active_tool_names st ++ k.
Proof.
  intros [k Hk]. exists (Mcp.fn_name <$> k).
  unfold Mcp.active_tool_names. by rewrite Hk, fmap_app.
Qed.

Lemma dispatch_extends_B (json_loads : string → option pyval)
    (bind : list (string * pyval) → result Mcp.LoaderArguments)
    (describe : gmap string pyval → gmap string Mcp.ServerState → string)
    (st : Mcp.State) (call : ToolCall) :
  ∃ k, Mcp.active_tool_names
         (Mcp.state_after (Mcp.dispatch json_loads bind describe st call)) =
       Mcp.active_tool_names st ++ k.
Proof.
  assert (Hsame : ∃ k, Mcp.active_tool_names st = Mcp.active_tool_names st ++ k)
    by (exists []; by rewrite app_nil_r).
  unfold Mcp.dispatch.
  destruct (String.eqb (call_name call) "loader").
  - destruct (json_loads (call_arguments call)) as [[| | | | |d]|]; try exact Hsame.
    destruct (bind d) as [a|e]; [|exact Hsame].
    unfold Mcp.run_loader.
    pose proof (loader_execute_extends_B st (Mcp.arg_action a) (Mcp.arg_servers a)
                  (Mcp.arg_tools a) (Mcp.arg_server a)) as Hext.
    destruct (Mcp.loader_execute _ _ _ _ _) as [st' result]. simpl in *.
    rewrite refresh_keeps_names. by apply names_extend_B.
  - destruct (Mcp.TOOL_REGISTRY st !! call_name call) as [tool|]; [|exact Hsame].
    destruct (json_loads (call_arguments call)) as [[| | | | |kwargs]|]; try exact Hsame.
    unfold Mcp.call_function.
    destruct (Mcp.function tool) as [f|].
    + by destruct (f kwargs).
    + destruct (bind kwargs) as [a|e]; [|exact Hsame].
      unfold Mcp.run_loader.
      pose proof (loader_execute_extends_B st (Mcp.arg_action a) (Mcp.arg_servers a)
                    (Mcp.arg_tools a) (Mcp.arg_server a)) as Hext.
      destruct (Mcp.loader_execute _ _ _ _ _) as [st' result]. simpl in *.
      by apply names_extend_B.
Qed.

Lemma run_ops_extends_B (json_loads : string → option pyval)
    (bind : list (string * pyval) → result Mcp.LoaderArguments)
    (describe : gmap string pyval → gmap string Mcp.ServerState → string)
    (ops : list Mcp.Op) (st : Mcp.State) :
  ∃ k, Mcp.active_tool_names (Mcp.run_ops json_loads bind describe st ops) =
       Mcp.active_tool_names st ++ k.
Proof.
  revert st. induction ops as [|op ops IH]; intros st.
  - exists []. by rewrite app_nil_r.
  - unfold Mcp.run_ops in *. simpl.
    destruct (IH (Mcp.run_op json_loads bind describe st op)) as [k ->].
    assert (∃ k0, Mcp.active_tool_names (Mcp.run_op json_loads bind describe st op) =
                  Mcp.active_tool_names st ++ k0) as [k0 ->].
    { destruct op; [apply names_extend_B, loader_execute_extends_B
                   |apply dispatch_extends_B]. }
    exists (k0 ++ k). by rewrite app_assoc.
Qed.

(** The loader is active from the start of the conversation on. *)
Lemma start_conversation_loader_A (st : FunctionCalling.State)
    (loader_tool : FunctionCalling.Tool) :
  FunctionCalling.fn_name (FunctionCalling.definition loader_tool) = "loader" →
  "loader" ∈ FunctionCalling.active_tool_names
               (FunctionCalling.start_conversation st loader_tool).
Proof.
  intros H. unfold FunctionCalling.active_tool_names. simpl.
  rewrite fmap_app, elem_of_app. right. simpl. rewrite H. apply list_elem_of_here.
Qed.

Lemma start_conversation_loader_B (st : Mcp.State) (loader_tool : Mcp.Tool) :
  Mcp.fn_name (Mcp.definition loader_tool) = "loader" →
  "loader" ∈ Mcp.active_tool_names (Mcp.start_conversation st loader_tool).
Proof.
  intros H. unfold Mcp.active_tool_names. simpl.
  rewrite fmap_app, elem_of_app. right. simpl. rewrite H. apply list_elem_of_here.
Qed.

(** C8.  In both programs, after any sequence of loader operations and
    dispatched tool calls the names of the active tools are the names
    there were before, in the same order, followed by the names that were
    added: no entry is ever removed.  In particular a loader that is active
    stays active. *)
Theorem loader_never_removed
    (json_loads : string → option pyval) (briefs : list (string * pyval))
    (bind : list (string * pyval) → result Mcp.LoaderArguments)
    (describe : gmap string pyval → gmap string Mcp.ServerState → string)
    (stA : FunctionCalling.State) (opsA : list FunctionCalling.Op)
    (stB : Mcp.State) (opsB : list Mcp.Op) :
  "loader" ∈ FunctionCalling.active_tool_names stA →
  "loader" ∈ Mcp.active_tool_names stB →
  let stA' := FunctionCalling.run_ops json_loads briefs stA opsA in
  let stB' := Mcp.run_ops json_loads bind describe stB opsB in
  (FunctionCalling.active_tool_names stA `prefix_of` FunctionCalling.active_tool_names stA' ∧
   "loader" ∈ FunctionCalling.active_tool_names stA') ∧
  (Mcp.active_tool_names stB `prefix_of` Mcp.active_tool_names stB' ∧
   "loader" ∈ Mcp.active_tool_names stB').
Proof.
  intros HA HB stA' stB'. subst stA' stB'.
  destruct (run_ops_extends_A json_loads briefs opsA stA) as [kA HkA].
  destruct (run_ops_extends_B json_loads bind describe opsB stB) as [kB HkB].
  assert (HnA : FunctionCalling.active_tool_names
                  (FunctionCalling.run_ops json_loads briefs stA opsA) =
                FunctionCalling.active_tool_names stA ++ (FunctionCalling.fn_name <$> kA)).
  { unfold FunctionCalling.active_tool_names. by rewrite HkA, fmap_app. }
  rewrite HnA, HkB. repeat split.
  - by eexists.
  - apply elem_of_app. by left.
  - by eexists.
  - apply elem_of_app. by left.
Qed.

Lemma loader_never_removed_witness :
  "loader" ∈ FunctionCalling.active_tool_names Sample.state ∧
  "loader" ∈ Mcp.active_tool_names Sample.mcp_state ∧
  "loader" ∈ FunctionCalling.active_tool_names
               (FunctionCalling.run_ops Sample.json_loads Sample.briefs
                  Sample.state Sample.ops) ∧
  "loader" ∈ Mcp.active_tool_names
               (Mcp.run_ops Sample.json_loads Sample.bind_loader_arguments
                  Sample.generate_loader_description Sample.mcp_state Sample.mcp_ops).
Proof.
  assert (HA : "loader" ∈ FunctionCalling.active_tool_names Sample.state)
    by (apply start_conversation_loader_A; reflexivity).
  assert (HB : "loader" ∈ Mcp.active_tool_names Sample.mcp_state)
    by (apply list_elem_of_here).
  pose proof (loader_never_removed Sample.json_loads Sample.briefs
                Sample.bind_loader_arguments Sample.generate_loader_description
                Sample.state Sample.ops Sample.mcp_state Sample.mcp_ops HA HB) as H.
  simpl in H. destruct H as [[_ H1] [_ H2]].
  split; [exact HA|]. split; [exact HB|]. split; [exact H1|exact H2].
Defined.

(** ** Activating names the catalogue does not have *)

Section flat_activation.
Variable reg : gmap string FunctionCalling.Tool.
Variable briefs : list (string * pyval).
Variable snapshot : list string.

Let loop := FunctionCalling.activate_loop reg briefs snapshot.

(** One iteration on a string, by the branch it takes. *)
Lemma activate_loop_cons (s : string) (rest : list pyval)
    (act : list FunctionCalling.ToolDefinition) (rep : FunctionCalling.Report) :
  ((s ∈ snapshot) ∧
   loop (PStr s :: rest) act rep =
   loop rest act (FunctionCalling.add_error rep (s +:+ " already loaded."))) ∨
  ((s ∉ snapshot) ∧ (dict_mem briefs s = false ∨ reg !! s = None) ∧
   loop (PStr s :: rest) act rep =
   loop rest act (FunctionCalling.add_failed rep (PStr s))) ∨
  (∃ tool, (s ∉ snapshot) ∧ dict_mem briefs s = true ∧ reg !! s = Some tool ∧
   loop (PStr s :: rest) act rep =
   loop rest (act ++ [FunctionCalling.definition tool])
     (FunctionCalling.add_activated rep s)).
Proof.
  unfold loop. simpl. case_bool_decide as Hsnap; [by left|]. right.
  destruct (dict_mem briefs s) eqn:Hb; simpl.
  - destruct (reg !! s) as [tool|] eqn:Hr.
    + right. by exists tool.
    + left. split; [done|]. split; [by right|done].
  - left. split; [done|]. split; [by left|done].
Qed.

Lemma activate_loop_strings_return (names : list string)
    (act : list FunctionCalling.ToolDefinition) (rep : FunctionCalling.Report) :
  ∃ act' rep', loop (PStr <$> names) act rep = (act', Ret rep').
Proof.
  revert act rep. induction names as [|s names IH]; intros act rep.
  - by exists act, rep.
  - rewrite fmap_cons.
    destruct (activate_loop_cons s (PStr <$> names) act rep)
      as [(_ & ->)|[(_ & _ & ->)|(tool & _ & _ & _ & ->)]]; apply IH.
Qed.

(** The tools appended do not depend on the report so far. *)
Lemma activate_loop_report_irrelevant (names : list pyval)
    (act : list FunctionCalling.ToolDefinition) (rep1 rep2 : FunctionCalling.Report) :
  fst (loop names act rep1) = fst (loop names act rep2).
Proof.
  revert act rep1 rep2. unfold loop.
  induction names as [|v names IH]; intros act rep1 rep2; simpl; [done|].
  destruct v as [| | |s| |]; try apply IH; try done.
  case_bool_decide; [apply IH|].
  destruct (dict_mem briefs s); simpl; [|apply IH].
  destruct (reg !! s); apply IH.
Qed.

Section unknown.
Variable n : string.
Hypothesis Hunknown : dict_mem briefs n = false.

Lemma activate_loop_without (names : list string)
    (act : list FunctionCalling.ToolDefinition) (rep : FunctionCalling.Report) :
  fst (loop (PStr <$> filter (λ x, x ≠ n) names) act rep) =
  fst (loop (PStr <$> names) act rep).
Proof.
  revert act rep. induction names as [|s names IH]; intros act rep; [done|].
  rewrite filter_cons. destruct (decide (s ≠ n)) as [Hne|Heq].
  - rewrite !fmap_cons.
    destruct (activate_loop_cons s (PStr <$> names) act rep)
      as [(Hs & ->)|[(Hs & Hf & ->)|(tool & Hs & Hb & Hr & ->)]];
    destruct (activate_loop_cons s (PStr <$> filter (λ x, x ≠ n) names) act rep)
      as [(Hs' & ->)|[(Hs' & Hf' & ->)|(tool' & Hs' & Hb' & Hr' & ->)]];
    try done; try apply IH; try (destruct Hf as [?|?]; congruence);
    try (destruct Hf' as [?|?]; congruence).
    assert (tool' = tool) as -> by congruence. apply IH.
  - apply dec_stable in Heq as ->. rewrite fmap_cons.
    destruct (activate_loop_cons n (PStr <$> names) act rep)
      as [(Hs & ->)|[(Hs & Hf & ->)|(tool & Hs & Hb & Hr & ->)]];
      [| |congruence].
    + rewrite <- IH. apply activate_loop_report_irrelevant.
    + rewrite <- IH. apply activate_loop_report_irrelevant.
Qed.

Lemma activate_loop_not_activated (names : list string)
    (act act' : list FunctionCalling.ToolDefinition) (rep rep' : FunctionCalling.Report) :
  loop (PStr <$> names) act rep = (act', Ret rep') →
  n ∉ FunctionCalling.activated rep → n ∉ FunctionCalling.activated rep'.
Proof.
  revert act rep. induction names as [|s names IH]; intros act rep Hloop Hn.
  - injection Hloop as <- <-. done.
  - rewrite fmap_cons in Hloop.
    destruct (activate_loop_cons s (PStr <$> names) act rep)
      as [(Hs & Heq)|[(Hs & Hf & Heq)|(tool & Hs & Hb & Hr & Heq)]];
      rewrite Heq in Hloop; apply IH in Hloop; try done.
    simpl. rewrite elem_of_app, list_elem_of_singleton.
    intros [?| ->]; [done|congruence].
Qed.
End unknown.

Lemma activate_loop_failed_mono (names : list string) (v : pyval)
    (act act' : list FunctionCalling.ToolDefinition) (rep rep' : FunctionCalling.Report) :
  loop (PStr <$> names) act rep = (act', Ret rep') →
  v ∈ FunctionCalling.failed rep → v ∈ FunctionCalling.failed rep'.
Proof.
  revert act rep. induction names as [|s names IH]; intros act rep Hloop Hv.
  - injection Hloop as <- <-. done.
  - rewrite fmap_cons in Hloop.
    destruct (activate_loop_cons s (PStr <$> names) act rep)
      as [(Hs & Heq)|[(Hs & Hf & Heq)|(tool & Hs & Hb & Hr & Heq)]];
      rewrite Heq in Hloop; apply IH in Hloop; try done.
    simpl. apply elem_of_app. by left.
Qed.

Lemma activate_loop_failed_strings (names : list string)
    (act act' : list FunctionCalling.ToolDefinition) (rep rep' : FunctionCalling.Report) :
  loop (PStr <$> names) act rep = (act', Ret rep') →
  Forall (λ v, is_Some (as_str v)) (FunctionCalling.failed rep) →
  Forall (λ v, is_Some (as_str v)) (FunctionCalling.failed rep').
Proof.
  revert act rep. induction names as [|s names IH]; intros act rep Hloop Hv.
  - injection Hloop as <- <-. done.
  - rewrite fmap_cons in Hloop.
    destruct (activate_loop_cons s (PStr <$> names) act rep)
      as [(Hs & Heq)|[(Hs & Hf & Heq)|(tool & Hs & Hb & Hr & Heq)]];
      rewrite Heq in Hloop; apply IH in Hloop; try done.
    simpl. apply Forall_app. split; [done|].
    apply Forall_singleton. by eexists.
Qed.

Lemma activate_loop_reports_unknown (n : string) (names : list string)
    (act act' : list FunctionCalling.ToolDefinition) (rep rep' : FunctionCalling.Report) :
  dict_mem briefs n = false →
  n ∉ snapshot →
  n ∈ names →
  loop (PStr <$> names) act rep = (act', Ret rep') →
  PStr n ∈ FunctionCalling.failed rep'.
Proof.
  intros Hunknown Hsnap. revert act rep.
  induction names as [|s names IH]; intros act rep Hin Hloop.
  - by apply elem_of_nil in Hin.
  - rewrite fmap_cons in Hloop. apply elem_of_cons in Hin as [<-|Hin].
    + destruct (activate_loop_cons n (PStr <$> names) act rep)
        as [(Hs & Heq)|[(Hs & Hf & Heq)|(tool & Hs & Hb & Hr & Heq)]];
        [done| |congruence].
      rewrite Heq in Hloop. eapply activate_loop_failed_mono; [exact Hloop|].
      simpl. apply elem_of_app. right. apply list_elem_of_here.
    + destruct (activate_loop_cons s (PStr <$> names) act rep)
        as [(Hs & Heq)|[(Hs & Hf & Heq)|(tool & Hs & Hb & Hr & Heq)]];
        rewrite Heq in Hloop; by eapply IH.
Qed.

Lemma activate_loop_errors_mono (names : list string) (msg : string)
    (act act' : list FunctionCalling.ToolDefinition) (rep rep' : FunctionCalling.Report) :
  loop (PStr <$> names) act rep = (act', Ret rep') →
  msg ∈ FunctionCalling.errors rep → msg ∈ FunctionCalling.errors rep'.
Proof.
  revert act rep. induction names as [|s names IH]; intros act rep Hloop Hv.
  - injection Hloop as <- <-. done.
  - rewrite fmap_cons in Hloop.
    destruct (activate_loop_cons s (PStr <$> names) act rep)
      as [(Hs & Heq)|[(Hs & Hf & Heq)|(tool & Hs & Hb & Hr & Heq)]];
      rewrite Heq in Hloop; apply IH in Hloop; try done.
    simpl. apply elem_of_app. by left.
Qed.

(** A requested name that was active before the call gets the notice. *)
Lemma activate_loop_notes_active (n : string) (names : list string)
    (act act' : list FunctionCalling.ToolDefinition) (rep rep' : FunctionCalling.Report) :
  n ∈ snapshot →
  n ∈ names →
  loop (PStr <$> names) act rep = (act', Ret rep') →
  (n +:+ " already loaded.") ∈ FunctionCalling.errors rep'.
Proof.
  intros Hsnap. revert act rep.
  induction names as [|s names IH]; intros act rep Hin Hloop.
  - by apply elem_of_nil in Hin.
  - rewrite fmap_cons in Hloop. apply elem_of_cons in Hin as [<-|Hin].
    + destruct (activate_loop_cons n (PStr <$> names) act rep)
        as [(Hs & Heq)|[(Hs & Hf & Heq)|(tool & Hs & Hb & Hr & Heq)]];
        [|done|done].
      rewrite Heq in Hloop. eapply activate_loop_errors_mono; [exact Hloop|].
      simpl. apply elem_of_app. right. apply list_elem_of_here.
    + destruct (activate_loop_cons s (PStr <$> names) act rep)
        as [(Hs & Heq)|[(Hs & Hf & Heq)|(tool & Hs & Hb & Hr & Heq)]];
        rewrite Heq in Hloop; by eapply IH.
Qed.
End flat_activation.

Lemma join_vals_strings (sep : string) (l : list pyval) :
  Forall (λ v, is_Some (as_str v)) l → ∃ text, join_vals sep l = Ret text.
Proof.
  intros H. unfold join_vals.
  destruct (mapM as_str l) as [ss|] eqn:Hm; [by eexists|].
  apply mapM_is_Some in H. rewrite Hm in H. by destruct H.
Qed.

Lemma render_report_returns (rep : FunctionCalling.Report) :
  Forall (λ v, is_Some (as_str v)) (FunctionCalling.failed rep) →
  ∃ response, FunctionCalling.render_report rep = Ret response.
Proof.
  intros H. unfold FunctionCalling.render_report.
  destruct (FunctionCalling.failed rep) eqn:Hf; [by eexists|].
  destruct (join_vals_strings ", " _ H) as [text ->]. by eexists.
Qed.

(** The same for the loop of [load_tools]. *)
Section server_activation.
Variable reg : gmap string Mcp.Tool.
Variable srv : string.
Variable snapshot : list string.

Let loop := Mcp.load_tools_loop reg srv snapshot.

Let tool_of_server := Mcp.tool_of_server reg srv.

Lemma load_tools_loop_cons (s : string) (rest : list string)
    (act : list Mcp.ToolDefinition) (ls : gmap string Mcp.ServerState)
    (rep : Mcp.Report) :
  ((s ∈ snapshot) ∧
   loop (s :: rest) act ls rep =
   loop rest act ls (Mcp.add_error rep (s +:+ " already loaded."))) ∨
  ((s ∉ snapshot) ∧ ¬ tool_of_server s ∧
   loop (s :: rest) act ls rep = loop rest act ls (Mcp.add_failed rep s)) ∨
  (∃ tool_info, (s ∉ snapshot) ∧ reg !! s = Some tool_info ∧
   Mcp.server tool_info = Some srv ∧
   loop (s :: rest) act ls rep =
   loop rest (act ++ [Mcp.definition tool_info])
     (alter (Mcp.add_active_tool s) srv ls) (Mcp.add_activated rep s)).
Proof.
  unfold loop, tool_of_server, Mcp.tool_of_server. simpl.
  case_bool_decide as Hsnap; [by left|]. right.
  destruct (reg !! s) as [tool_info|] eqn:Hr.
  - case_bool_decide as Hsrv.
    + right. by exists tool_info.
    + left. split; [done|]. split; [|done].
      intros (t & Ht & Hs). congruence.
  - left. split; [done|]. split; [|done]. intros (t & Ht & _). congruence.
Qed.

Lemma load_tools_loop_report_irrelevant (names : list string)
    (act : list Mcp.ToolDefinition) (ls : gmap string Mcp.ServerState)
    (rep1 rep2 : Mcp.Report) :
  (loop names act ls rep1).1 = (loop names act ls rep2).1.
Proof.
  revert act ls rep1 rep2. unfold loop.
  induction names as [|s names IH]; intros act ls rep1 rep2; simpl; [done|].
  case_bool_decide; [apply IH|].
  destruct (reg !! s); [|apply IH].
  case_bool_decide; apply IH.
Qed.

Section unknown.
Variable n : string.
Hypothesis Hunknown : ¬ tool_of_server n.

Lemma load_tools_loop_without (names : list string)
    (act : list Mcp.ToolDefinition) (ls : gmap string Mcp.ServerState)
    (rep : Mcp.Report) :
  (loop (filter (λ x, x ≠ n) names) act ls rep).1 = (loop names act ls rep).1.
Proof.
  revert act ls rep. induction names as [|s names IH]; intros act ls rep; [done|].
  rewrite filter_cons. destruct (decide (s ≠ n)) as [Hne|Heq].
  - destruct (load_tools_loop_cons s names act ls rep)
      as [(Hs & ->)|[(Hs & Hf & ->)|(tool & Hs & Hr & Hsrv & ->)]];
    destruct (load_tools_loop_cons s (filter (λ x, x ≠ n) names) act ls rep)
      as [(Hs' & ->)|[(Hs' & Hf' & ->)|(tool' & Hs' & Hr' & Hsrv' & ->)]];
    try done; try apply IH.
    + destruct Hf. by exists tool'.
    + destruct Hf'. by exists tool.
    + assert (tool' = tool) as -> by congruence. apply IH.
  - apply dec_stable in Heq as ->.
    destruct (load_tools_loop_cons n names act ls rep)
      as [(Hs & ->)|[(Hs & Hf & ->)|(tool & Hs & Hr & Hsrv & ->)]].
    + rewrite <- IH. apply load_tools_loop_report_irrelevant.
    + rewrite <- IH. apply load_tools_loop_report_irrelevant.
    + destruct Hunknown. by exists tool.
Qed.

Lemma load_tools_loop_not_activated (names : list string)
    (act : list Mcp.ToolDefinition) (ls : gmap string Mcp.ServerState)
    (rep : Mcp.Report) :
  n ∉ Mcp.activated rep → n ∉ Mcp.activated (loop names act ls rep).2.
Proof.
  revert act ls rep. induction names as [|s names IH]; intros act ls rep Hn; [done|].
  destruct (load_tools_loop_cons s names act ls rep)
    as [(Hs & ->)|[(Hs & Hf & ->)|(tool & Hs & Hr & Hsrv & ->)]];
    apply IH; try done.
  simpl. rewrite elem_of_app, list_elem_of_singleton.
  intros [?| ->]; [done|]. destruct Hunknown. by exists tool.
Qed.
End unknown.

Lemma load_tools_loop_failed_mono (names : list string) (v : string)
    (act : list Mcp.ToolDefinition) (ls : gmap string Mcp.ServerState)
    (rep : Mcp.Report) :
  v ∈ Mcp.failed rep → v ∈ Mcp.failed (loop names act ls rep).2.
Proof.
  revert act ls rep. induction names as [|s names IH]; intros act ls rep Hv; [done|].
  destruct (load_tools_loop_cons s names act ls rep)
    as [(Hs & ->)|[(Hs & Hf & ->)|(tool & Hs & Hr & Hsrv & ->)]];
    apply IH; try done.
  simpl. apply elem_of_app. by left.
Qed.

Lemma load_tools_loop_reports_unknown (n : string) (names : list string)
    (act : list Mcp.ToolDefinition) (ls : gmap string Mcp.ServerState)
    (rep : Mcp.Report) :
  ¬ tool_of_server n →
  n ∉ snapshot →
  n ∈ names →
  n ∈ Mcp.failed (loop names act ls rep).2.
Proof.
  intros Hunknown Hsnap. revert act ls rep.
  induction names as [|s names IH]; intros act ls rep Hin.
  - by apply elem_of_nil in Hin.
  - apply elem_of_cons in Hin as [<-|Hin].
    + destruct (load_tools_loop_cons n names act ls rep)
        as [(Hs & ->)|[(Hs & Hf & ->)|(tool & Hs & Hr & Hsrv & ->)]].
      * done.
      * apply load_tools_loop_failed_mono. simpl.
        apply elem_of_app. right. apply list_elem_of_here.
      * destruct Hunknown. by exists tool.
    + destruct (load_tools_loop_cons s names act ls rep)
        as [(Hs & ->)|[(Hs & Hf & ->)|(tool & Hs & Hr & Hsrv & ->)]];
        by apply IH.
Qed.

Lemma load_tools_loop_errors_mono (names : list string) (msg : string)
    (act : list Mcp.ToolDefinition) (ls : gmap string Mcp.ServerState)
    (rep : Mcp.Report) :
  msg ∈ Mcp.errors rep → msg ∈ Mcp.errors (loop names act ls rep).2.
Proof.
  revert act ls rep. induction names as [|s names IH]; intros act ls rep Hv; [done|].
  destruct (load_tools_loop_cons s names act ls rep)
    as [(Hs & ->)|[(Hs & Hf & ->)|(tool & Hs & Hr & Hsrv & ->)]];
    apply IH; try done.
  simpl. apply elem_of_app. by left.
Qed.

(** A requested name that was active before the call gets the notice. *)
Lemma load_tools_loop_notes_active (n : string) (names : list string)
    (act : list Mcp.ToolDefinition) (ls : gmap string Mcp.ServerState)
    (rep : Mcp.Report) :
  n ∈ snapshot →
  n ∈ names →
  (n +:+ " already loaded.") ∈ Mcp.errors (loop names act ls rep).2.
Proof.
  intros Hsnap. revert act ls rep.
  induction names as [|s names IH]; intros act ls rep Hin.
  - by apply elem_of_nil in Hin.
  - apply elem_of_cons in Hin as [<-|Hin].
    + destruct (load_tools_loop_cons n names act ls rep)
        as [(Hs & ->)|[(Hs & Hf & ->)|(tool & Hs & Hr & Hsrv & ->)]]; [|done|done].
      apply load_tools_loop_errors_mono. simpl.
      apply elem_of_app. right. apply list_elem_of_here.
    + destruct (load_tools_loop_cons s names act ls rep)
        as [(Hs & ->)|[(Hs & Hf & ->)|(tool & Hs & Hr & Hsrv & ->)]];
        by apply IH.
Qed.
End server_activation.

Lemma loader_execute_state (briefs : list (string * pyval)) (st : FunctionCalling.State)
    (names : list pyval) :
  fst (FunctionCalling.loader_execute briefs st (PList names)) =
  FunctionCalling.set_active_tools st (fst (FunctionCalling.activation briefs st names)).
Proof.
  unfold FunctionCalling.loader_execute.
  by destruct (FunctionCalling.activation briefs st names).
Qed.

Lemma load_tools_unfold (st : Mcp.State) (servers : option (list string))
    (names : list string) (srv : string) :
  Mcp.loader_execute st "load_tools" servers (Some names) (Some srv) =
  if Mcp.falsy_list (Some names) || String.eqb srv "" then
    (st, "Error: tools list and server are required for load_tools action.")
  else if negb (Mcp.summaries_loaded_for st srv) then
    (st, "Error: Tool summaries for " +:+ srv +:+ " must be loaded first.")
  else
    match Mcp.MCP_SERVER_MANAGERS st !! srv with
    | None => (st, "Error: No manager for server " +:+ srv +:+ ".")
    | Some _ =>
        (Mcp.set_loader_state
           (Mcp.set_active_tools st (Mcp.activation st srv names).1.1)
           (Mcp.activation st srv names).1.2,
         Mcp.render_report srv (Mcp.activation st srv names).2)
    end.
Proof.
  unfold Mcp.loader_execute.
  change (String.eqb "load_tools" "load_tool_summaries") with false.
  change (String.eqb "load_tools" "load_tools") with true.
  cbv iota. simpl Mcp.falsy_str. simpl default.
  destruct (Mcp.falsy_list (Some names) || String.eqb srv ""); [done|].
  destruct (negb (Mcp.summaries_loaded_for st srv)); [done|].
  destruct (Mcp.MCP_SERVER_MANAGERS st !! srv); [|done].
  by destruct (Mcp.activation st srv names) as [[act ls] rep].
Qed.

Lemma load_tools_state_without (st : Mcp.State) (servers : option (list string))
    (names : list string) (srv n : string) :
  ¬ Mcp.tool_of_server (Mcp.TOOL_REGISTRY st) srv n →
  fst (Mcp.loader_execute st "load_tools" servers
         (Some (filter (λ x, x ≠ n) names)) (Some srv)) =
  fst (Mcp.loader_execute st "load_tools" servers (Some names) (Some srv)).
Proof.
  intros Hunknown.
  pose proof (load_tools_loop_without (Mcp.TOOL_REGISTRY st) srv
                (Mcp.active_tool_names st) n Hunknown names (Mcp.active_tools st)
                (Mcp.LOADER_STATE st) Mcp.empty_report) as Hsame.
  fold (Mcp.activation st srv (filter (λ x, x ≠ n) names)) in Hsame.
  fold (Mcp.activation st srv names) in Hsame.
  rewrite !load_tools_unfold.
  destruct (String.eqb srv ""); [by rewrite !orb_true_r|]. rewrite !orb_false_r.
  destruct names as [|a names]; [done|].
  change (Mcp.falsy_list (Some (a :: names))) with false. cbv iota.
  destruct (negb (Mcp.summaries_loaded_for st srv));
    [by destruct (Mcp.falsy_list _)|].
  destruct (Mcp.MCP_SERVER_MANAGERS st !! srv); [|by destruct (Mcp.falsy_list _)].
  simpl fst. rewrite <- Hsame.
  destruct (filter (λ x, x ≠ n) (a :: names)) as [|b l]; [|done].
  simpl. by destruct st.
Qed.

(** ** The answer of the loader, as text *)

Lemma string_app_assoc (a b c : string) : (a +:+ b) +:+ c = a +:+ (b +:+ c).
Proof.
  induction a as [|x a IH]; [done|].
  change (String x ((a +:+ b) +:+ c) = String x (a +:+ (b +:+ c))). by rewrite IH.
Qed.

(** The failed names and the notices stand in the answer of the flat
    loader. *)
Lemma render_report_failed_text_A (rep : FunctionCalling.Report) (response : string) :
  FunctionCalling.render_report rep = Ret response →
  FunctionCalling.failed rep ≠ [] →
  ∃ head names tail,
    join_vals ", " (FunctionCalling.failed rep) = Ret names ∧
    response = head +:+ " Failed to activate: " +:+ names +:+ "." +:+ tail.
Proof.
  unfold FunctionCalling.render_report. intros Hr Hf.
  destruct (FunctionCalling.failed rep) as [|v l] eqn:Hfailed; [done|].
  destruct (join_vals ", " (v :: l)) as [names|e]; [|done].
  injection Hr as <-.
  match goal with
  | |- context [?h +:+ " Failed to activate: " +:+ names +:+ "."] => exists h, names
  end.
  destruct (FunctionCalling.errors rep) as [|m errs].
  - exists " They are now available for use in the next message.".
    split; [reflexivity|]. by rewrite !string_app_assoc.
  - exists (" They are now available for use in the next message." +:+
            "Errors: " +:+ join ", " (m :: errs)).
    split; [reflexivity|]. by rewrite !string_app_assoc.
Qed.

Lemma render_report_errors_text_A (rep : FunctionCalling.Report) (response : string) :
  FunctionCalling.render_report rep = Ret response →
  FunctionCalling.errors rep ≠ [] →
  ∃ head, response = head +:+ "Errors: " +:+ join ", " (FunctionCalling.errors rep).
Proof.
  unfold FunctionCalling.render_report. intros Hr He.
  destruct (FunctionCalling.errors rep) as [|m l] eqn:Herrors; [done|].
  destruct (FunctionCalling.failed rep) as [|v f].
  - injection Hr as <-. by eexists.
  - destruct (join_vals ", " (v :: f)) as [names|e]; [|done].
    injection Hr as <-. by eexists.
Qed.

(** The same for the answer of [load_tools]. *)
Lemma render_report_failed_text_B (srv : string) (rep : Mcp.Report) :
  Mcp.failed rep ≠ [] →
  ∃ head tail,
    Mcp.render_report srv rep =
    head +:+ " Failed: " +:+ join ", " (Mcp.failed rep) +:+ "." +:+ tail.
Proof.
  unfold Mcp.render_report. intros Hf.
  destruct (Mcp.failed rep) as [|v l] eqn:Hfailed; [done|].
  match goal with
  | |- context [?h +:+ " Failed: " +:+ join ", " (v :: l) +:+ "."] => exists h
  end.
  destruct (Mcp.errors rep) as [|m errs].
  - exists "". reflexivity.
  - exists (" Errors: " +:+ join ", " (m :: errs)). by rewrite !string_app_assoc.
Qed.

Lemma render_report_errors_text_B (srv : string) (rep : Mcp.Report) :
  Mcp.errors rep ≠ [] →
  ∃ head,
    Mcp.render_report srv rep = head +:+ " Errors: " +:+ join ", " (Mcp.errors rep).
Proof.
  unfold Mcp.render_report. intros He.
  destruct (Mcp.errors rep) as [|m l] eqn:Herrors; [done|]. by eexists.
Qed.

(** Every answer of [load_tools] that is a report starts with one of its
    two sentences on what was activated. *)
Lemma render_report_head_B (srv : string) (rep : Mcp.Report) :
  ∃ rest, Mcp.render_report srv rep = String "N" rest ∨
          Mcp.render_report srv rep = String "A" rest.
Proof.
  unfold Mcp.render_report.
  destruct (Mcp.activated rep), (Mcp.failed rep), (Mcp.errors rep);
    eexists; (by left) || (by right).
Qed.

(** A [load_tools] call that does not pass its checks is refused: it
    answers with the error of the first check that fails and changes
    nothing. *)
Lemma load_tools_refusal (st : Mcp.State) (servers : option (list string))
    (names : list string) (srv : string) :
  let out := Mcp.loader_execute st "load_tools" servers (Some names) (Some srv) in
  (names = [] ∨ srv = "" →
   out = (st, "Error: tools list and server are required for load_tools action.")) ∧
  (names ≠ [] → srv ≠ "" → Mcp.summaries_loaded_for st srv = false →
   out = (st, "Error: Tool summaries for " +:+ srv +:+ " must be loaded first.")) ∧
  (names ≠ [] → srv ≠ "" → Mcp.summaries_loaded_for st srv = true →
   Mcp.MCP_SERVER_MANAGERS st !! srv = None →
   out = (st, "Error: No manager for server " +:+ srv +:+ ".")).
Proof.
  cbv zeta. rewrite load_tools_unfold. split; [|split].
  - intros [->| ->]; [done|]. by rewrite orb_true_r.
  - intros Hnames Hsrv Hsum. apply String.eqb_neq in Hsrv. rewrite Hsrv, Hsum.
    by destruct names.
  - intros Hnames Hsrv Hsum Hman. apply String.eqb_neq in Hsrv.
    rewrite Hsrv, Hsum, Hman. by destruct names.
Qed.

(** The example of the specification: with [calculator] and
    [get_weather] registered and only the loader active, activating
    [["calculator"; "bogus"]] reports the first as activated and the second
    as failed, and the loader and the calculator are active afterwards. *)
Lemma activate_calculator_and_bogus :
  let out := FunctionCalling.loader_execute Sample.briefs Sample.state
               (PList [PStr "calculator"; PStr "bogus"]) in
  FunctionCalling.active_tool_names (fst out) = ["loader"; "calculator"] ∧
  snd (FunctionCalling.activation Sample.briefs Sample.state
         [PStr "calculator"; PStr "bogus"]) =
  Ret {| FunctionCalling.activated := ["calculator"];
         FunctionCalling.failed := [PStr "bogus"];
         FunctionCalling.errors := [] |} ∧
  snd out =
  Ret "Activated tools: calculator. Failed to activate: bogus. They are now available for use in the next message.".
Proof. vm_compute. repeat split. Qed.

(** C6, as the specification has it, fails, in two ways.  The loader
    itself is not in the briefs, and asking to activate it while it is
    active gives the already-loaded notice, not an entry of the failed
    list.  And [load_tools] on an unknown name before the summaries of the
    server are loaded is refused: the answer is the error of the check, a
    report of no list. *)
Lemma active_unknown_name_is_not_failed :
  ¬ Spec.unknown_name_is_reported_failed Sample.briefs Sample.state ["loader"] "loader" ∧
  ¬ Spec.unknown_server_tool_is_reported_failed Sample.mcp_state "github"
      ["bogus"] "bogus".
Proof.
  split.
  - intros H. destruct H as (rep & Hrep & Hin).
    + reflexivity.
    + apply list_elem_of_here.
    + vm_compute in Hrep. injection Hrep as <-. simpl in Hin.
      by apply elem_of_nil in Hin.
  - intros H. destruct H as (rep & Hrep & Hin).
    + intros (t & Ht & _). vm_compute in Ht. discriminate Ht.
    + apply list_elem_of_here.
    + assert (Hanswer : snd (Mcp.loader_execute Sample.mcp_state "load_tools" None
                                (Some ["bogus"]) (Some "github")) =
                         "Error: Tool summaries for github must be loaded first.")
        by (vm_compute; reflexivity).
      rewrite Hanswer in Hrep.
      destruct (render_report_head_B "github" rep) as [rest [Hh|Hh]];
        rewrite Hh in Hrep; discriminate Hrep.
Qed.

(** C6, amended.  Take an activation call on a list of names and a name
    [n] the catalogue does not have: not a key of the briefs (flat mode),
    not a registered tool of the given server (server mode).  The call
    answers with a text and does not raise; the state after the call is the
    state the call leaves when [n] is struck from the list.  In flat mode,
    and in server mode when the call passes the checks of [load_tools] (a
    non-empty list, a server name, the summaries of the server loaded, a
    manager for it), the answer is the report of the call: [n] is not among
    the activated names; when [n] is requested and was not active, it is in
    the failed list, which stands in the answer; when it is requested and
    was active, its already-loaded notice is among the errors, which stand
    in the answer.  A server-mode call that fails a check is refused: the
    state is unchanged and the answer is the error of the first check that
    fails. *)
Theorem unknown_name_fails_without_effect
    (briefs : list (string * pyval)) (stA : FunctionCalling.State)
    (stB : Mcp.State) (srv : string) (servers : option (list string))
    (names : list string) (n : string) :
  dict_mem briefs n = false →
  ¬ Mcp.tool_of_server (Mcp.TOOL_REGISTRY stB) srv n →
  (∃ rep response,
     snd (FunctionCalling.activation briefs stA (PStr <$> names)) = Ret rep ∧
     FunctionCalling.render_report rep = Ret response ∧
     snd (FunctionCalling.loader_execute briefs stA (PList (PStr <$> names))) =
     Ret response ∧
     (n ∉ FunctionCalling.activated rep) ∧
     (n ∈ names → n ∉ FunctionCalling.active_tool_names stA →
      PStr n ∈ FunctionCalling.failed rep ∧
      ∃ head failed_names tail,
        join_vals ", " (FunctionCalling.failed rep) = Ret failed_names ∧
        response =
        head +:+ " Failed to activate: " +:+ failed_names +:+ "." +:+ tail) ∧
     (n ∈ names → n ∈ FunctionCalling.active_tool_names stA →
      (n +:+ " already loaded.") ∈ FunctionCalling.errors rep ∧
      ∃ head,
        response = head +:+ "Errors: " +:+ join ", " (FunctionCalling.errors rep)) ∧
     fst (FunctionCalling.loader_execute briefs stA
            (PList (PStr <$> filter (λ x, x ≠ n) names))) =
     fst (FunctionCalling.loader_execute briefs stA (PList (PStr <$> names)))) ∧
  (let out := Mcp.loader_execute stB "load_tools" servers (Some names) (Some srv) in
   let rep := (Mcp.activation stB srv names).2 in
   fst (Mcp.loader_execute stB "load_tools" servers
          (Some (filter (λ x, x ≠ n) names)) (Some srv)) = fst out ∧
   (names ≠ [] → srv ≠ "" → Mcp.summaries_loaded_for stB srv = true →
    is_Some (Mcp.MCP_SERVER_MANAGERS stB !! srv) →
    snd out = Mcp.render_report srv rep ∧
    (n ∉ Mcp.activated rep) ∧
    (n ∈ names → n ∉ Mcp.active_tool_names stB →
     n ∈ Mcp.failed rep ∧
     ∃ head tail,
       snd out = head +:+ " Failed: " +:+ join ", " (Mcp.failed rep) +:+ "." +:+ tail) ∧
    (n ∈ names → n ∈ Mcp.active_tool_names stB →
     (n +:+ " already loaded.") ∈ Mcp.errors rep ∧
     ∃ head, snd out = head +:+ " Errors: " +:+ join ", " (Mcp.errors rep))) ∧
   (names = [] ∨ srv = "" →
    out = (stB, "Error: tools list and server are required for load_tools action.")) ∧
   (names ≠ [] → srv ≠ "" → Mcp.summaries_loaded_for stB srv = false →
    out = (stB, "Error: Tool summaries for " +:+ srv +:+ " must be loaded first.")) ∧
   (names ≠ [] → srv ≠ "" → Mcp.summaries_loaded_for stB srv = true →
    Mcp.MCP_SERVER_MANAGERS stB !! srv = None →
    out = (stB, "Error: No manager for server " +:+ srv +:+ "."))).
Proof.
  intros HA HB. split.
  - destruct (activate_loop_strings_return (FunctionCalling.TOOL_REGISTRY stA) briefs
                (FunctionCalling.active_tool_names stA) names
                (FunctionCalling.active_tools stA) FunctionCalling.empty_report)
      as (act & rep & Hloop).
    assert (Hstr : Forall (λ v, is_Some (as_str v)) (FunctionCalling.failed rep)).
    { eapply activate_loop_failed_strings; [exact Hloop|]. apply Forall_nil_2. }
    destruct (render_report_returns rep Hstr) as [response Hresp].
    exists rep, response.
    assert (Hact : FunctionCalling.activation briefs stA (PStr <$> names) =
                   (act, Ret rep)) by exact Hloop.
    split; [by rewrite Hact|]. split; [exact Hresp|].
    split; [unfold FunctionCalling.loader_execute; by rewrite Hact|].
    split; [eapply activate_loop_not_activated;
            [exact HA|exact Hloop|apply not_elem_of_nil]|].
    split; [|split].
    + intros Hin Hsnap.
      assert (Hfailed : PStr n ∈ FunctionCalling.failed rep)
        by (by eapply activate_loop_reports_unknown).
      split; [exact Hfailed|].
      apply render_report_failed_text_A; [exact Hresp|].
      intros Hnil. rewrite Hnil in Hfailed. by apply elem_of_nil in Hfailed.
    + intros Hin Hsnap.
      assert (Herr : (n +:+ " already loaded.") ∈ FunctionCalling.errors rep)
        by (eapply activate_loop_notes_active; [exact Hsnap|exact Hin|exact Hloop]).
      split; [exact Herr|].
      apply render_report_errors_text_A; [exact Hresp|].
      intros Hnil. rewrite Hnil in Herr. by apply elem_of_nil in Herr.
    + rewrite !loader_execute_state. f_equal.
      by apply activate_loop_without.
  - cbv zeta. split; [by apply load_tools_state_without|]. split.
    + intros Hnames Hsrv Hsum [m Hm].
      assert (Hout : snd (Mcp.loader_execute stB "load_tools" servers (Some names)
                            (Some srv)) =
                     Mcp.render_report srv (Mcp.activation stB srv names).2).
      { rewrite load_tools_unfold.
        apply String.eqb_neq in Hsrv. rewrite Hsrv, Hsum, Hm. by destruct names. }
      split; [exact Hout|].
      split; [apply load_tools_loop_not_activated; [exact HB|apply not_elem_of_nil]|].
      split.
      * intros Hin Hsnap.
        assert (Hfailed : n ∈ Mcp.failed (Mcp.activation stB srv names).2)
          by (by apply load_tools_loop_reports_unknown).
        split; [exact Hfailed|]. rewrite Hout.
        apply render_report_failed_text_B.
        intros Hnil. rewrite Hnil in Hfailed. by apply elem_of_nil in Hfailed.
      * intros Hin Hsnap.
        assert (Herr : (n +:+ " already loaded.") ∈
                       Mcp.errors (Mcp.activation stB srv names).2)
          by (by apply load_tools_loop_notes_active).
        split; [exact Herr|]. rewrite Hout.
        apply render_report_errors_text_B.
        intros Hnil. rewrite Hnil in Herr. by apply elem_of_nil in Herr.
    + apply load_tools_refusal.
Qed.

(** The example of the specification as an instance: [bogus] is not in
    the briefs and not a GitHub tool.  With the summaries of GitHub loaded
    the answer names it as failed; before that, the call is refused. *)
Lemma unknown_name_fails_without_effect_witness :
  dict_mem Sample.briefs "bogus" = false ∧
  ¬ Mcp.tool_of_server (Mcp.TOOL_REGISTRY Sample.mcp_state_summaries) "github" "bogus" ∧
  fst (FunctionCalling.loader_execute Sample.briefs Sample.state
         (PList (PStr <$> ["calculator"]))) =
  fst (FunctionCalling.loader_execute Sample.briefs Sample.state
         (PList (PStr <$> ["calculator"; "bogus"]))) ∧
  "bogus" ∈ Mcp.failed
              (Mcp.activation Sample.mcp_state_summaries "github"
                 ["list_repos"; "bogus"]).2 ∧
  snd (Mcp.loader_execute Sample.mcp_state_summaries "load_tools" None
         (Some ["list_repos"; "bogus"]) (Some "github")) =
  Mcp.render_report "github"
    (Mcp.activation Sample.mcp_state_summaries "github" ["list_repos"; "bogus"]).2.
Proof.
  assert (HA : dict_mem Sample.briefs "bogus" = false) by reflexivity.
  assert (HB : ¬ Mcp.tool_of_server (Mcp.TOOL_REGISTRY Sample.mcp_state_summaries)
                   "github" "bogus").
  { intros (t & Ht & _). vm_compute in Ht. discriminate Ht. }
  split; [exact HA|]. split; [exact HB|].
  destruct (unknown_name_fails_without_effect Sample.briefs Sample.state
              Sample.mcp_state_summaries "github" None ["calculator"; "bogus"] "bogus"
              HA HB) as [(rep & response & _ & _ & _ & _ & _ & _ & Hstate) _].
  split; [exact Hstate|].
  destruct (unknown_name_fails_without_effect Sample.briefs Sample.state
              Sample.mcp_state_summaries "github" None ["list_repos"; "bogus"] "bogus"
              HA HB) as [_ (_ & Hpass & _)].
  destruct Hpass as (Hout & _ & Hfailed & _).
  { discriminate. }
  { discriminate. }
  { reflexivity. }
  { eexists. reflexivity. }
  split; [|exact Hout].
  apply Hfailed.
  - apply list_elem_of_further, list_elem_of_here.
  - intros Hin. apply list_elem_of_In in Hin. simpl in Hin.
    destruct Hin as [Heq|[]]. discriminate Heq.
Defined.

(** * Further properties of the code *)

(** ** Text and dictionaries *)

Lemma string_length_app (s1 s2 : string) :
  String.length (s1 +:+ s2) = (String.length s1 + String.length s2)%nat.
Proof. induction s1 as [|c s1 IH]; simpl; [done|]. by rewrite IH. Qed.

Lemma string_length_prefix (n : nat) (s : string) :
  (n <= String.length s)%nat → String.length (String.substring 0 n s) = n.
Proof.
  revert s. induction n as [|n IH]; intros s Hn.
  - by destruct s.
  - destruct s as [|c s]; simpl in *; [lia|]. rewrite IH; [done|lia].
Qed.

(** X1.  The text that stands for a description is never longer than 103
    characters: a description of at most 100 characters is kept as it is,
    a longer one becomes exactly 103 characters (100 of its own and three
    dots). *)
Theorem truncate_description_length (desc : string) :
  String.length (truncate_description desc) =
  (if Nat.ltb 100 (String.length desc) then 103 else String.length desc)%nat ∧
  (String.length (truncate_description desc) <= 103)%nat.
Proof.
  unfold truncate_description.
  destruct (Nat.ltb_spec 100 (String.length desc)) as [Hlong|Hshort].
  - rewrite string_length_app, string_length_prefix by lia. simpl. lia.
  - lia.
Qed.

Lemma dict_set_keys {V} (d : list (string * V)) (k : string) (v : V) :
  (dict_set d k v).*1 = if bool_decide (k ∈ d.*1) then d.*1 else d.*1 ++ [k].
Proof.
  induction d as [|[k' v'] d IH]; [done|].
  cbn [dict_set]. destruct (String.eqb_spec k k') as [->|Hne]; rewrite !fmap_cons.
  - by rewrite bool_decide_eq_true_2 by apply list_elem_of_here.
  - rewrite IH. cbn [fst]. case_bool_decide as Hin.
    + by rewrite bool_decide_eq_true_2 by (by apply list_elem_of_further).
    + rewrite bool_decide_eq_false_2; [done|].
      intros [?|?]%elem_of_cons; [congruence|done].
Qed.

Lemma dict_mem_get {V} (d : list (string * V)) (k : string) :
  dict_mem d k = true ↔ is_Some (dict_get d k).
Proof.
  unfold dict_mem, dict_get. rewrite bool_decide_eq_true.
  induction d as [|[k' v'] d IH]; simpl.
  - split; [by intros ?%elem_of_nil|by intros [? ?]].
  - rewrite elem_of_cons. destruct (String.eqb_spec k k') as [->|Hne]; simpl.
    + split; [by eexists|by left].
    + rewrite <- IH. split; [intros [?|?]; [congruence|done]|by right].
Qed.

Section fallback_keys.
Variable reg : gmap string FunctionCalling.Tool.

Let step (briefs : list (string * pyval)) (tool_name : string) :=
  match reg !! tool_name with
  | Some tool =>
      dict_set briefs tool_name
        (PStr (truncate_description
                 (FunctionCalling.fn_description (FunctionCalling.definition tool))))
  | None => briefs
  end.

Lemma fallback_fold_keys (l : list string) (d : list (string * pyval)) :
  NoDup d.*1 →
  NoDup (foldl step d l).*1 ∧
  ∀ n, n ∈ (foldl step d l).*1 ↔ n ∈ d.*1 ∨ (n ∈ l ∧ is_Some (reg !! n)).
Proof.
  revert d. induction l as [|a l IH]; intros d Hd; simpl.
  - split; [done|]. intros n. split; [by left|].
    intros [?|[?%elem_of_nil _]]; done.
  - assert (Hstep : NoDup (step d a).*1 ∧
                    ∀ n, n ∈ (step d a).*1 ↔ n ∈ d.*1 ∨ (n = a ∧ is_Some (reg !! n))).
    { unfold step. destruct (reg !! a) as [tool|] eqn:Ha.
      - rewrite dict_set_keys. case_bool_decide as Hin.
        + split; [done|]. intros n. split; [by left|].
          intros [?|[-> _]]; done.
        + split.
          * apply NoDup_app. split; [done|]. split; [|apply NoDup_singleton].
            intros x Hx ->%list_elem_of_singleton. done.
          * intros n. rewrite elem_of_app, list_elem_of_singleton.
            split; [intros [?| ->]; [by left|right; by rewrite Ha]|].
            intros [?|[-> _]]; [by left|by right].
      - split; [done|]. intros n. split; [by left|].
        intros [?|[-> [? ?]]]; [done|congruence]. }
    destruct Hstep as [Hnd Hkeys].
    destruct (IH _ Hnd) as [Hnd' Hkeys']. split; [done|].
    intros n. rewrite Hkeys', Hkeys, elem_of_cons. split.
    + intros [[?|[-> ?]]|[? ?]]; [by left|right; split; [by left|done]
                                 |right; split; [by right|done]].
    + intros [?|[[->|?] ?]]; [by left; left|by left; right|by right].
Qed.
End fallback_keys.

(** X2.  The dictionary of the truncation fallback has exactly the
    requested names that are registered as its keys, each once, however
    often a name is requested. *)
Theorem fallback_briefs_keys (reg : gmap string FunctionCalling.Tool)
    (tools_list : list string) :
  NoDup (FunctionCalling.fallback_briefs reg tools_list).*1 ∧
  ∀ n, dict_mem (FunctionCalling.fallback_briefs reg tools_list) n = true ↔
       n ∈ tools_list ∧ is_Some (reg !! n).
Proof.
  destruct (fallback_fold_keys reg tools_list [] (NoDup_nil_2)) as [Hnd Hkeys].
  split; [exact Hnd|]. intros n. unfold dict_mem. rewrite bool_decide_eq_true.
  unfold FunctionCalling.fallback_briefs. rewrite Hkeys. simpl.
  split; [intros [?%elem_of_nil|?]; done|by right].
Qed.

(** ** The flat loader, name by name *)

Section flat_fates.
Variable reg : gmap string FunctionCalling.Tool.
Variable briefs : list (string * pyval).
Variable snapshot : list string.

Let f := FunctionCalling.fate reg briefs snapshot.

Lemma activate_loop_step (s : string) (rest : list pyval)
    (act : list FunctionCalling.ToolDefinition) (rep : FunctionCalling.Report) :
  FunctionCalling.activate_loop reg briefs snapshot (PStr s :: rest) act rep =
  match f s with
  | FunctionCalling.AlreadyLoaded =>
      FunctionCalling.activate_loop reg briefs snapshot rest act
        (FunctionCalling.add_error rep (s +:+ " already loaded."))
  | FunctionCalling.NotActivated =>
      FunctionCalling.activate_loop reg briefs snapshot rest act
        (FunctionCalling.add_failed rep (PStr s))
  | FunctionCalling.Activate tool =>
      FunctionCalling.activate_loop reg briefs snapshot rest
        (act ++ [FunctionCalling.definition tool])
        (FunctionCalling.add_activated rep s)
  end.
Proof.
  unfold f, FunctionCalling.fate. simpl. case_bool_decide; [done|].
  destruct (dict_mem briefs s); simpl; [|done]. by destruct (reg !! s).
Qed.

Lemma activate_loop_fates (names : list string)
    (act : list FunctionCalling.ToolDefinition) (rep : FunctionCalling.Report) :
  FunctionCalling.activate_loop reg briefs snapshot (PStr <$> names) act rep =
  (act ++ FunctionCalling.definitions_of f names,
   Ret {| FunctionCalling.activated :=
            FunctionCalling.activated rep ++ FunctionCalling.activated_of f names;
          FunctionCalling.failed :=
            FunctionCalling.failed rep ++ FunctionCalling.failed_of f names;
          FunctionCalling.errors :=
            FunctionCalling.errors rep ++ FunctionCalling.errors_of f names |}).
Proof.
  revert act rep. induction names as [|s names IH]; intros act rep.
  - simpl. rewrite !app_nil_r. by destruct rep.
  - rewrite fmap_cons, activate_loop_step.
    unfold FunctionCalling.definitions_of, FunctionCalling.activated_of,
      FunctionCalling.failed_of, FunctionCalling.errors_of in *.
    cbn [omap list_omap].
    destruct (f s); rewrite IH; simpl; by rewrite <- ?app_assoc.
Qed.

Lemma fates_partition (names : list string) :
  (length (FunctionCalling.activated_of f names) +
   length (FunctionCalling.failed_of f names) +
   length (FunctionCalling.errors_of f names) = length names)%nat ∧
  length (FunctionCalling.definitions_of f names) =
  length (FunctionCalling.activated_of f names).
Proof.
  unfold FunctionCalling.definitions_of, FunctionCalling.activated_of,
    FunctionCalling.failed_of, FunctionCalling.errors_of.
  induction names as [|s names [IH1 IH2]]; [done|].
  cbn [omap list_omap]. destruct (f s); simpl; lia.
Qed.

Lemma activated_of_spec (names : list string) (s : string) :
  s ∈ FunctionCalling.activated_of f names ↔
  s ∈ names ∧ (s ∉ snapshot) ∧ dict_mem briefs s = true ∧ is_Some (reg !! s).
Proof.
  unfold FunctionCalling.activated_of. rewrite list_elem_of_omap. split.
  - intros (x & Hx & Hfx). unfold f, FunctionCalling.fate in Hfx.
    case_bool_decide; [done|].
    destruct (dict_mem briefs x) eqn:Hb; simpl in Hfx; [|done].
    destruct (reg !! x) eqn:Hr; [|done]. injection Hfx as <-.
    by rewrite Hr.
  - intros (Hin & Hs & Hb & [t Ht]). exists s. split; [done|].
    unfold f, FunctionCalling.fate.
    by rewrite (bool_decide_eq_false_2 _ Hs), Hb, Ht.
Qed.

Lemma activated_of_sublist (names : list string) :
  FunctionCalling.activated_of f names `sublist_of` names.
Proof.
  unfold FunctionCalling.activated_of.
  induction names as [|s names IH]; [done|].
  cbn [omap list_omap]. destruct (f s); simpl;
    [by apply sublist_cons|by apply sublist_cons|by apply sublist_skip].
Qed.

Lemma definitions_of_names (names : list string) :
  FunctionCalling.registered_by_name reg →
  FunctionCalling.fn_name <$> FunctionCalling.definitions_of f names =
  FunctionCalling.activated_of f names.
Proof.
  intros Hwf.
  unfold FunctionCalling.definitions_of, FunctionCalling.activated_of.
  induction names as [|s names IH]; [done|].
  cbn [omap list_omap]. destruct (f s) as [| |tool] eqn:Hf; [exact IH|exact IH|].
  rewrite fmap_cons, IH. f_equal. apply Hwf.
  unfold f, FunctionCalling.fate in Hf. case_bool_decide; [done|].
  destruct (dict_mem briefs s); simpl in Hf; [|done].
  destruct (reg !! s); [|done]. by injection Hf as ->.
Qed.
End flat_fates.

Lemma loader_execute_fates (briefs : list (string * pyval))
    (st : FunctionCalling.State) (names : list string) :
  FunctionCalling.loader_execute briefs st (PList (PStr <$> names)) =
  (FunctionCalling.set_active_tools st
     (FunctionCalling.active_tools st ++
      FunctionCalling.definitions_of
        (FunctionCalling.fate (FunctionCalling.TOOL_REGISTRY st) briefs
           (FunctionCalling.active_tool_names st)) names),
   FunctionCalling.render_report
     {| FunctionCalling.activated :=
          FunctionCalling.activated_of
            (FunctionCalling.fate (FunctionCalling.TOOL_REGISTRY st) briefs
               (FunctionCalling.active_tool_names st)) names;
        FunctionCalling.failed :=
          FunctionCalling.failed_of
            (FunctionCalling.fate (FunctionCalling.TOOL_REGISTRY st) briefs
               (FunctionCalling.active_tool_names st)) names;
        FunctionCalling.errors :=
          FunctionCalling.errors_of
            (FunctionCalling.fate (FunctionCalling.TOOL_REGISTRY st) briefs
               (FunctionCalling.active_tool_names st)) names |}).
Proof.
  unfold FunctionCalling.loader_execute, FunctionCalling.activation.
  by rewrite activate_loop_fates.
Qed.

(** X3.  On a list of strings the flat loader decides each name on its
    own, by the registry, the briefs and the names that were active before
    the call: a name that was active gets the already-loaded notice, a name
    with a brief and a registry binding is activated, any other name
    fails.  The definitions appended, the three lists of the report and
    the answer follow from these decisions, in the order of the request. *)
Theorem loader_execute_by_fate (briefs : list (string * pyval))
    (st : FunctionCalling.State) (names : list string) :
  let f := FunctionCalling.fate (FunctionCalling.TOOL_REGISTRY st) briefs
             (FunctionCalling.active_tool_names st) in
  FunctionCalling.loader_execute briefs st (PList (PStr <$> names)) =
  (FunctionCalling.set_active_tools st
     (FunctionCalling.active_tools st ++ FunctionCalling.definitions_of f names),
   FunctionCalling.render_report
     {| FunctionCalling.activated := FunctionCalling.activated_of f names;
        FunctionCalling.failed := FunctionCalling.failed_of f names;
        FunctionCalling.errors := FunctionCalling.errors_of f names |}).
Proof.
  intros f. unfold FunctionCalling.loader_execute, FunctionCalling.activation.
  by rewrite activate_loop_fates.
Qed.

(** X4.  The report of the flat loader accounts for every requested name
    exactly once: the activated, failed and already-loaded lists together
    are as long as the request, and the active tools grow by one definition
    for each activated name. *)
Theorem loader_execute_accounts (briefs : list (string * pyval))
    (st : FunctionCalling.State) (names : list string) :
  ∃ rep,
    snd (FunctionCalling.activation briefs st (PStr <$> names)) = Ret rep ∧
    (length (FunctionCalling.activated rep) + length (FunctionCalling.failed rep) +
     length (FunctionCalling.errors rep) = length names)%nat ∧
    length (FunctionCalling.active_tools
              (fst (FunctionCalling.loader_execute briefs st (PList (PStr <$> names))))) =
    (length (FunctionCalling.active_tools st) +
     length (FunctionCalling.activated rep))%nat.
Proof.
  eexists. unfold FunctionCalling.loader_execute, FunctionCalling.activation.
  rewrite activate_loop_fates. simpl. split; [reflexivity|].
  destruct (fates_partition (FunctionCalling.TOOL_REGISTRY st) briefs
              (FunctionCalling.active_tool_names st) names) as [H1 H2].
  split; [exact H1|]. by rewrite length_app, H2.
Qed.

(** X5.  The flat loader activates a name only if it was requested, was
    not active before the call, has a brief and is registered; and every
    requested name of that kind is activated. *)
Theorem loader_execute_activates_exactly (briefs : list (string * pyval))
    (st : FunctionCalling.State) (names : list string) (n : string) :
  ∃ rep,
    snd (FunctionCalling.activation briefs st (PStr <$> names)) = Ret rep ∧
    (n ∈ FunctionCalling.activated rep ↔
     n ∈ names ∧ (n ∉ FunctionCalling.active_tool_names st) ∧
     dict_mem briefs n = true ∧
     is_Some (FunctionCalling.TOOL_REGISTRY st !! n)).
Proof.
  eexists. unfold FunctionCalling.activation. rewrite activate_loop_fates.
  split; [reflexivity|]. simpl. apply activated_of_spec.
Qed.

(** X6.  With every binding registered under its own name, a request
    without repeated names keeps the active tools free of repeated names. *)
Theorem loader_execute_keeps_names_distinct (briefs : list (string * pyval))
    (st : FunctionCalling.State) (names : list string) :
  FunctionCalling.registered_by_name (FunctionCalling.TOOL_REGISTRY st) →
  NoDup names →
  NoDup (FunctionCalling.active_tool_names st) →
  NoDup (FunctionCalling.active_tool_names
           (fst (FunctionCalling.loader_execute briefs st (PList (PStr <$> names))))).
Proof.
  intros Hwf Hnames Hact. rewrite loader_execute_fates.
  unfold FunctionCalling.active_tool_names at 1. simpl.
  rewrite fmap_app, definitions_of_names by done.
  apply NoDup_app. split; [exact Hact|]. split.
  - intros x Hx Hin. apply activated_of_spec in Hin as (_ & Hnot & _). by apply Hnot.
  - eapply sublist_NoDup; [exact Hnames|apply activated_of_sublist].
Qed.

Lemma omap_none {A B} (g : A → option B) (l : list A) :
  (∀ x, x ∈ l → g x = None) → omap g l = [].
Proof.
  induction l as [|a l IH]; intros H; [done|].
  cbn [omap list_omap]. rewrite (H a) by apply list_elem_of_here.
  apply IH. intros x Hx. apply H. by apply list_elem_of_further.
Qed.

(** X7.  With every binding registered under its own name, repeating a
    request changes nothing: the second call activates no name and leaves
    the state as the first call left it. *)
Theorem loader_execute_again (briefs : list (string * pyval))
    (st : FunctionCalling.State) (names : list string) :
  FunctionCalling.registered_by_name (FunctionCalling.TOOL_REGISTRY st) →
  let st1 := fst (FunctionCalling.loader_execute briefs st (PList (PStr <$> names))) in
  fst (FunctionCalling.loader_execute briefs st1 (PList (PStr <$> names))) = st1 ∧
  ∃ rep, snd (FunctionCalling.activation briefs st1 (PStr <$> names)) = Ret rep ∧
         FunctionCalling.activated rep = [].
Proof.
  intros Hwf st1.
  assert (Hnames1 : FunctionCalling.active_tool_names st1 =
                    FunctionCalling.active_tool_names st ++
                    FunctionCalling.activated_of
                      (FunctionCalling.fate (FunctionCalling.TOOL_REGISTRY st) briefs
                         (FunctionCalling.active_tool_names st)) names).
  { subst st1. rewrite loader_execute_fates.
    unfold FunctionCalling.active_tool_names at 1. simpl.
    by rewrite fmap_app, definitions_of_names. }
  assert (Hreg1 : FunctionCalling.TOOL_REGISTRY st1 = FunctionCalling.TOOL_REGISTRY st).
  { subst st1. by rewrite loader_execute_fates. }
  assert (Hnone : ∀ s, s ∈ names →
            ∀ t, FunctionCalling.fate (FunctionCalling.TOOL_REGISTRY st1) briefs
                   (FunctionCalling.active_tool_names st1) s ≠
                 FunctionCalling.Activate t).
  { intros s Hs t Hf. unfold FunctionCalling.fate in Hf.
    case_bool_decide as Hin; [done|].
    destruct (dict_mem briefs s) eqn:Hb; simpl in Hf; [|done].
    destruct (FunctionCalling.TOOL_REGISTRY st1 !! s) as [t'|] eqn:Hr; [|done].
    apply Hin. rewrite Hnames1, elem_of_app.
    destruct (decide (s ∈ FunctionCalling.active_tool_names st)) as [?|Hnot];
      [by left|right].
    apply activated_of_spec. rewrite <- Hreg1, Hr. by eauto. }
  split.
  - rewrite (loader_execute_fates briefs st1 names). simpl.
    unfold FunctionCalling.definitions_of. rewrite omap_none.
    + rewrite app_nil_r. by destruct st1.
    + intros s Hs. specialize (Hnone s Hs).
      destruct (FunctionCalling.fate _ _ _ s); [done|done|]. by destruct (Hnone tool).
  - eexists. unfold FunctionCalling.activation. rewrite activate_loop_fates.
    split; [reflexivity|]. simpl.
    unfold FunctionCalling.activated_of. apply omap_none.
    intros s Hs. specialize (Hnone s Hs).
    destruct (FunctionCalling.fate _ _ _ s); [done|done|]. by destruct (Hnone tool).
Qed.

Lemma activate_loop_non_string (reg : gmap string FunctionCalling.Tool)
    (briefs : list (string * pyval)) (snapshot : list string) (names : list pyval)
    (act : list FunctionCalling.ToolDefinition) (rep : FunctionCalling.Report) :
  Exists (λ v, as_str v = None) names ∨
  Exists (λ v, as_str v = None) (FunctionCalling.failed rep) →
  match snd (FunctionCalling.activate_loop reg briefs snapshot names act rep) with
  | Raise e => e = TypeError
  | Ret rep' => Exists (λ v, as_str v = None) (FunctionCalling.failed rep')
  end.
Proof.
  revert act rep. induction names as [|v names IH]; intros act rep H.
  - destruct H as [H|H]; [by apply Exists_nil in H|exact H].
  - assert (Hrest : ∀ rep0,
              (∀ x, x ∈ FunctionCalling.failed rep → x ∈ FunctionCalling.failed rep0) →
              (as_str v = None → Exists (λ v, as_str v = None)
                                   (FunctionCalling.failed rep0)) →
              Exists (λ v, as_str v = None) names ∨
              Exists (λ v, as_str v = None) (FunctionCalling.failed rep0)).
    { intros rep0 Hsub Hv. destruct H as [H|H].
      - apply Exists_cons in H as [H|H]; [right; by apply Hv|by left].
      - right. apply Exists_exists in H as (x & Hx & Hnone).
        apply Exists_exists. exists x. split; [by apply Hsub|done]. }
    assert (Hadd : ∀ x, x ∈ FunctionCalling.failed rep →
                        x ∈ FunctionCalling.failed (FunctionCalling.add_failed rep v)).
    { intros x Hx. simpl. apply elem_of_app. by left. }
    assert (Hhere : as_str v = None →
                    Exists (λ v, as_str v = None)
                      (FunctionCalling.failed (FunctionCalling.add_failed rep v))).
    { intros Hv. simpl. apply Exists_app. right. by apply Exists_cons_hd. }
    destruct v as [|b|z|s|l|d]; simpl; try (apply IH, Hrest; done); try done.
    case_bool_decide; [apply IH, Hrest; done|].
    destruct (dict_mem briefs s); simpl; [|apply IH, Hrest; done].
    destruct (reg !! s); apply IH, Hrest; done.
Qed.

Lemma join_vals_non_string (sep : string) (l : list pyval) :
  Exists (λ v, as_str v = None) l → join_vals sep l = Raise TypeError.
Proof.
  intros H. unfold join_vals. destruct (mapM as_str l) as [ss|] eqn:Hm; [|done].
  assert (Hall : Forall (λ v, is_Some (as_str v)) l).
  { apply mapM_is_Some. by rewrite Hm. }
  apply Exists_exists in H as (x & Hx & Hnone).
  rewrite Forall_forall in Hall. destruct (Hall x Hx) as [? ?]. congruence.
Qed.

(** X8.  A list that holds anything but strings makes the flat loader
    raise [TypeError]: a list or a dictionary among the names cannot be
    looked up in the briefs, and any other value lands in the failed list,
    which can then not be joined into the answer. *)
Theorem loader_execute_non_string_item (briefs : list (string * pyval))
    (st : FunctionCalling.State) (names : list pyval) :
  Exists (λ v, as_str v = None) names →
  snd (FunctionCalling.loader_execute briefs st (PList names)) = Raise TypeError.
Proof.
  intros H. unfold FunctionCalling.loader_execute, FunctionCalling.activation.
  pose proof (activate_loop_non_string (FunctionCalling.TOOL_REGISTRY st) briefs
                (FunctionCalling.active_tool_names st) names
                (FunctionCalling.active_tools st) FunctionCalling.empty_report
                (or_introl H)) as Hloop.
  destruct (FunctionCalling.activate_loop _ _ _ _ _ _) as [act [rep|e]];
    simpl in *; [|by subst].
  unfold FunctionCalling.render_report.
  destruct (FunctionCalling.failed rep) as [|x l] eqn:Hf;
    [by apply Exists_nil in Hloop|].
  by rewrite (join_vals_non_string _ _ Hloop).
Qed.

Lemma loader_execute_non_string_item_witness :
  Exists (λ v, as_str v = None) [PStr "calculator"; PNum 7] ∧
  snd (FunctionCalling.loader_execute Sample.briefs Sample.state
         (PList [PStr "calculator"; PNum 7])) = Raise TypeError.
Proof.
  assert (H : Exists (λ v, as_str v = None) [PStr "calculator"; PNum 7]).
  { apply Exists_cons_tl, Exists_cons_hd. reflexivity. }
  split; [exact H|].
  exact (loader_execute_non_string_item Sample.briefs Sample.state _ H).
Defined.

(** ** Bindings sit under their own names *)

Lemma register_by_name_A (t : FunctionCalling.Tool)
    (reg : gmap string FunctionCalling.Tool) :
  FunctionCalling.registered_by_name reg →
  FunctionCalling.registered_by_name (FunctionCalling.register t reg).
Proof.
  intros Hwf n t' Hn. unfold FunctionCalling.register in Hn.
  rewrite lookup_insert in Hn. case_decide as Heq.
  - by injection Hn as <-.
  - by apply Hwf.
Qed.

Lemma register_all_by_name_A (ts : list FunctionCalling.Tool)
    (reg : gmap string FunctionCalling.Tool) :
  FunctionCalling.registered_by_name reg →
  FunctionCalling.registered_by_name (FunctionCalling.register_all ts reg).
Proof.
  revert reg. unfold FunctionCalling.register_all.
  induction ts as [|t ts IH]; intros reg Hwf; [done|].
  simpl. by apply IH, register_by_name_A.
Qed.

Lemma empty_by_name_A : FunctionCalling.registered_by_name ∅.
Proof. intros n t Hn. by rewrite lookup_empty in Hn. Qed.

Lemma sample_registry_by_name : FunctionCalling.registered_by_name Sample.registry.
Proof. apply register_all_by_name_A, empty_by_name_A. Qed.

Lemma register_by_name_B (t : Mcp.Tool) (reg : gmap string Mcp.Tool) :
  Mcp.registered_by_name reg → Mcp.registered_by_name (Mcp.register t reg).
Proof.
  intros Hwf n t' Hn. unfold Mcp.register in Hn.
  rewrite lookup_insert in Hn. case_decide as Heq.
  - by injection Hn as <-.
  - by apply Hwf.
Qed.

Lemma list_tools_by_name
    (call_tool : string → string → list (string * pyval) → result string)
    (srv : string) (listed : list Mcp.McpTool) (reg : gmap string Mcp.Tool) :
  Mcp.registered_by_name reg →
  Mcp.registered_by_name (Mcp.list_tools call_tool srv listed reg).
Proof.
  revert reg. unfold Mcp.list_tools.
  induction listed as [|t l IH]; intros reg Hwf; [done|].
  simpl. by apply IH, register_by_name_B.
Qed.

Lemma load_servers_by_name
    (connect : list string → string → Mcp.ServerConfig → Mcp.Session)
    (call_tool : string → string → list (string * pyval) → result string)
    (abandoned : list string) (servers : list (string * Mcp.ServerConfig))
    (st : Mcp.State) :
  Mcp.registered_by_name (Mcp.TOOL_REGISTRY st) →
  Mcp.registered_by_name
    (Mcp.TOOL_REGISTRY (Mcp.load_servers connect call_tool abandoned servers st).1).
Proof.
  revert abandoned st. induction servers as [|[s c] rest IH]; intros abandoned st Hwf;
    [done|].
  destruct (load_servers_pass connect call_tool abandoned s c rest st)
    as [(l & Hc & -> & _)|[(e & Hc & He & -> & _)|(e & Hc & He & -> & _)]];
    [|by apply IH|done].
  apply IH. simpl. by apply list_tools_by_name.
Qed.

Lemma mcp_empty_by_name : Mcp.registered_by_name ∅.
Proof. intros n t Hn. by rewrite lookup_empty in Hn. Qed.

(** X9.  Every way the two programs have of filling the registry keeps
    each binding under the name of its own definition: a single
    registration, a run of registrations, the listing of a server's tools
    and the start of all servers. *)
Theorem registry_keeps_bindings_by_name
    (connect : list string → string → Mcp.ServerConfig → Mcp.Session)
    (call_tool : string → string → list (string * pyval) → result string)
    (regA : gmap string FunctionCalling.Tool) (stB : Mcp.State) :
  FunctionCalling.registered_by_name regA →
  Mcp.registered_by_name (Mcp.TOOL_REGISTRY stB) →
  (∀ ts, FunctionCalling.registered_by_name (FunctionCalling.register_all ts regA)) ∧
  (∀ ts, Mcp.registered_by_name (Mcp.register_all ts (Mcp.TOOL_REGISTRY stB))) ∧
  (∀ srv listed,
     Mcp.registered_by_name (Mcp.list_tools call_tool srv listed (Mcp.TOOL_REGISTRY stB))) ∧
  (∀ servers st',
     Mcp.load_mcp_tools connect call_tool servers stB = (st', Ret tt) →
     Mcp.registered_by_name (Mcp.TOOL_REGISTRY st')).
Proof.
  intros HA HB. split; [intros ts; by apply register_all_by_name_A|].
  split.
  - intros ts. generalize (Mcp.TOOL_REGISTRY stB) HB. unfold Mcp.register_all.
    induction ts as [|t ts IH]; intros reg Hwf; [done|].
    simpl. by apply IH, register_by_name_B.
  - split; [intros srv listed; by apply list_tools_by_name|].
    intros servers st' Hload.
    pose proof (load_servers_by_name connect call_tool [] servers stB HB) as Hwf.
    unfold Mcp.load_mcp_tools in Hload. by rewrite Hload in Hwf.
Qed.

Lemma registry_keeps_bindings_by_name_witness :
  FunctionCalling.registered_by_name ∅ ∧
  Mcp.registered_by_name (Mcp.TOOL_REGISTRY Sample.mcp_empty) ∧
  FunctionCalling.registered_by_name
    (FunctionCalling.register_all [Sample.calculator; Sample.get_weather] ∅).
Proof.
  split; [exact empty_by_name_A|]. split; [exact mcp_empty_by_name|].
  exact (proj1 (registry_keeps_bindings_by_name Sample.github_up Sample.call_tool
                  ∅ Sample.mcp_empty empty_by_name_A mcp_empty_by_name)
           [Sample.calculator; Sample.get_weather]).
Defined.

Lemma loader_execute_keeps_names_distinct_witness :
  FunctionCalling.registered_by_name (FunctionCalling.TOOL_REGISTRY Sample.state) ∧
  NoDup ["calculator"; "bogus"] ∧
  NoDup (FunctionCalling.active_tool_names Sample.state) ∧
  NoDup (FunctionCalling.active_tool_names
           (fst (FunctionCalling.loader_execute Sample.briefs Sample.state
                   (PList (PStr <$> ["calculator"; "bogus"]))))).
Proof.
  assert (H1 : FunctionCalling.registered_by_name
                 (FunctionCalling.TOOL_REGISTRY Sample.state))
    by exact sample_registry_by_name.
  assert (H2 : NoDup ["calculator"; "bogus"]).
  { apply NoDup_cons. split; [|apply NoDup_singleton].
    intros Hin. apply list_elem_of_In in Hin. simpl in Hin.
    destruct Hin as [Heq|[]]. discriminate Heq. }
  assert (H3 : NoDup (FunctionCalling.active_tool_names Sample.state))
    by apply NoDup_singleton.
  split; [exact H1|]. split; [exact H2|]. split; [exact H3|].
  exact (loader_execute_keeps_names_distinct Sample.briefs Sample.state _ H1 H2 H3).
Defined.

Lemma loader_execute_again_witness :
  FunctionCalling.registered_by_name (FunctionCalling.TOOL_REGISTRY Sample.state) ∧
  let st1 := fst (FunctionCalling.loader_execute Sample.briefs Sample.state
                    (PList (PStr <$> ["calculator"; "bogus"]))) in
  fst (FunctionCalling.loader_execute Sample.briefs st1
         (PList (PStr <$> ["calculator"; "bogus"]))) = st1.
Proof.
  assert (H1 : FunctionCalling.registered_by_name
                 (FunctionCalling.TOOL_REGISTRY Sample.state))
    by exact sample_registry_by_name.
  split; [exact H1|].
  exact (proj1 (loader_execute_again Sample.briefs Sample.state
                  ["calculator"; "bogus"] H1)).
Defined.

(** ** Creating the flat loader *)

Lemma generate_briefs_unparsable (json_loads : string → option pyval)
    (strip : string → string) (reg : gmap string FunctionCalling.Tool)
    (tools_list : list string) (response : Completion) :
  omap (λ n, FunctionCalling.definition <$> reg !! n) tools_list ≠ [] →
  response = ResponseMalformed ∨
  (∃ text, response = ResponseContent (Some text) ∧ text ≠ "" ∧
           json_loads (strip text) = None) →
  FunctionCalling.generate_briefs json_loads strip reg tools_list response =
  Ret (PDict (FunctionCalling.fallback_briefs reg tools_list)).
Proof.
  intros Hdefs Hresp. unfold FunctionCalling.generate_briefs.
  destruct tools_list as [|a l]; [done|].
  destruct (omap _ (a :: l)); [done|].
  destruct Hresp as [->|(text & -> & Htext & Hload)]; [done|].
  apply String.eqb_neq in Htext. by rewrite Htext, Hload.
Qed.

Lemma omap_registered (reg : gmap string FunctionCalling.Tool) (l : list string)
    (n : string) :
  n ∈ l → is_Some (reg !! n) →
  omap (λ n, FunctionCalling.definition <$> reg !! n) l ≠ [].
Proof.
  intros Hin [t Ht] Hnil.
  assert (FunctionCalling.definition t ∈
          omap (λ n, FunctionCalling.definition <$> reg !! n) l) as Hd.
  { apply list_elem_of_omap. exists n. split; [done|]. by rewrite Ht. }
  rewrite Hnil in Hd. by apply elem_of_nil in Hd.
Qed.

(** X10.  When some tool is registered and the summarising model answers
    with nothing, or with JSON that is not an object, [create_loader_tool]
    raises [AttributeError] (the briefs have no [items]) and the loader is
    not registered. *)
Theorem create_loader_tool_without_dictionary (json_loads : string → option pyval)
    (strip : string → string) (py_str : pyval → string)
    (current_tools : list string) (content : option string)
    (st : FunctionCalling.State) :
  omap (λ n, FunctionCalling.definition <$> FunctionCalling.TOOL_REGISTRY st !! n)
    current_tools ≠ [] →
  content = None ∨ content = Some "" ∨
  (∃ text parsed, content = Some text ∧ text ≠ "" ∧
                  json_loads (strip text) = Some parsed ∧ ∀ d, parsed ≠ PDict d) →
  FunctionCalling.create_loader_tool json_loads strip py_str current_tools
    (ResponseContent content) st = (st, Raise AttributeError).
Proof.
  intros Hdefs Hcontent. unfold FunctionCalling.create_loader_tool.
  destruct Hcontent as [->|[->|(text & parsed & -> & Htext & Hload & Hnot)]].
  - by rewrite generate_briefs_empty_reply by auto.
  - by rewrite generate_briefs_empty_reply by auto.
  - rewrite (generate_briefs_returns_parsed _ _ _ _ _ parsed) by done.
    destruct parsed as [| | | | |d]; try done. by destruct (Hnot d).
Qed.

Lemma create_loader_tool_without_dictionary_witness :
  omap (λ n, FunctionCalling.definition <$>
             FunctionCalling.TOOL_REGISTRY Sample.state !! n)
    ["calculator"; "get_weather"] ≠ [] ∧
  FunctionCalling.create_loader_tool Sample.json_loads Sample.strip (λ _, "")
    ["calculator"; "get_weather"] (ResponseContent None) Sample.state =
  (Sample.state, Raise AttributeError).
Proof.
  assert (H : omap (λ n, FunctionCalling.definition <$>
                         FunctionCalling.TOOL_REGISTRY Sample.state !! n)
                ["calculator"; "get_weather"] ≠ []) by discriminate.
  split; [exact H|].
  apply (create_loader_tool_without_dictionary Sample.json_loads Sample.strip
           (λ _, "") ["calculator"; "get_weather"] None Sample.state H).
  by left.
Defined.

(** X11.  When the reply of the summarising model cannot be read or is
    not JSON, [create_loader_tool] still returns: the loader is registered
    under the name [loader], the active tools are untouched, and the loader
    it returns can activate every tool that was registered before it (any
    name other than [loader] that is not yet active). *)
Theorem create_loader_tool_fallback (json_loads : string → option pyval)
    (strip : string → string) (py_str : pyval → string)
    (current_tools : list string) (response : Completion)
    (st : FunctionCalling.State) (n : string) (tool : FunctionCalling.Tool) :
  (∀ m, m ∈ current_tools ↔ is_Some (FunctionCalling.TOOL_REGISTRY st !! m)) →
  response = ResponseMalformed ∨
  (∃ text, response = ResponseContent (Some text) ∧ text ≠ "" ∧
           json_loads (strip text) = None) →
  FunctionCalling.TOOL_REGISTRY st !! n = Some tool →
  n ≠ "loader" →
  n ∉ FunctionCalling.active_tool_names st →
  ∃ st' loader,
    FunctionCalling.create_loader_tool json_loads strip py_str current_tools
      response st = (st', Ret loader) ∧
    FunctionCalling.TOOL_REGISTRY st' =
    FunctionCalling.register (FunctionCalling.loader_tool loader)
      (FunctionCalling.TOOL_REGISTRY st) ∧
    FunctionCalling.fn_name
      (FunctionCalling.definition (FunctionCalling.loader_tool loader)) = "loader" ∧
    FunctionCalling.active_tools st' = FunctionCalling.active_tools st ∧
    FunctionCalling.loader_execute (FunctionCalling.loader_briefs loader) st'
      (PList [PStr n]) =
    (FunctionCalling.set_active_tools st'
       (FunctionCalling.active_tools st ++ [FunctionCalling.definition tool]),
     Ret (("Activated tools: " +:+ n +:+ ".") +:+
          " They are now available for use in the next message.")).
Proof.
  intros Hkeys Hresp Hn Hloader Hactive.
  assert (Hin : n ∈ current_tools) by (apply Hkeys; by eexists).
  unfold FunctionCalling.create_loader_tool.
  rewrite generate_briefs_unparsable;
    [|by eapply omap_registered; [exact Hin|eexists]|exact Hresp].
  cbn [FunctionCalling.generate_loader_description].
  eexists _, _. split; [reflexivity|]. cbn [FunctionCalling.loader_tool
    FunctionCalling.loader_briefs FunctionCalling.TOOL_REGISTRY
    FunctionCalling.active_tools].
  split; [reflexivity|]. split; [reflexivity|]. split; [reflexivity|].
  unfold FunctionCalling.loader_execute, FunctionCalling.activation.
  cbn [FunctionCalling.activate_loop FunctionCalling.TOOL_REGISTRY
         FunctionCalling.active_tools].
  change (FunctionCalling.active_tool_names
            {| FunctionCalling.TOOL_REGISTRY := _;
               FunctionCalling.active_tools := FunctionCalling.active_tools st |})
    with (FunctionCalling.active_tool_names st).
  rewrite (bool_decide_eq_false_2 _ Hactive).
  assert (Hmem : dict_mem (FunctionCalling.fallback_briefs
                             (FunctionCalling.TOOL_REGISTRY st) current_tools) n = true).
  { unfold dict_mem. apply bool_decide_eq_true.
    destruct (fallback_fold_keys (FunctionCalling.TOOL_REGISTRY st) current_tools []
                NoDup_nil_2) as [_ Hk].
    apply Hk. right. split; [done|by eexists]. }
  rewrite Hmem. cbn [negb].
  unfold FunctionCalling.register at 1. cbn [FunctionCalling.definition
    FunctionCalling.LOADER_TOOL_DEFINITION FunctionCalling.fn_name].
  rewrite lookup_insert_ne by done. rewrite Hn. reflexivity.
Qed.

Lemma create_loader_tool_fallback_witness :
  ∃ st' loader,
    FunctionCalling.create_loader_tool Sample.json_loads Sample.strip (λ _, "")
      ["bash"; "read"; "calculator"; "get_weather"]
      (ResponseContent (Some "Sorry, I cannot produce JSON today."))
      Sample.loaded_module = (st', Ret loader) ∧
    FunctionCalling.active_tool_names
      (fst (FunctionCalling.loader_execute (FunctionCalling.loader_briefs loader) st'
              (PList [PStr "get_weather"]))) = ["get_weather"].
Proof.
  destruct (create_loader_tool_fallback Sample.json_loads Sample.strip (λ _, "")
              ["bash"; "read"; "calculator"; "get_weather"]
              (ResponseContent (Some "Sorry, I cannot produce JSON today."))
              Sample.loaded_module "get_weather"
              {| FunctionCalling.definition := FunctionCalling.WEATHER_DEFINITION;
                 FunctionCalling.function :=
                   FunctionCalling.LocalFunction
                     (λ _, Ret "Weather in New York: sunny, 21 C") |})
    as (st' & loader & Hcreate & _ & _ & _ & Hexec).
  - intros m. split.
    + intros Hm. apply list_elem_of_In in Hm. simpl in Hm.
      destruct Hm as [<-|[<-|[<-|[<-|[]]]]]; by eexists.
    + intros [t Ht]. simpl in Ht.
      destruct (decide (m = "get_weather")) as [->|H1];
        [do 3 apply list_elem_of_further; apply list_elem_of_here|].
      destruct (decide (m = "calculator")) as [->|H2];
        [do 2 apply list_elem_of_further; apply list_elem_of_here|].
      destruct (decide (m = "read")) as [->|H3];
        [apply list_elem_of_further, list_elem_of_here|].
      destruct (decide (m = "bash")) as [->|H4]; [apply list_elem_of_here|].
      unfold FunctionCalling.register_all, FunctionCalling.register in Ht.
      simpl in Ht. rewrite !lookup_insert_ne in Ht by done.
      by rewrite lookup_empty in Ht.
  - right. eexists. split; [reflexivity|]. split; [discriminate|reflexivity].
  - reflexivity.
  - discriminate.
  - intros Hin. by apply elem_of_nil in Hin.
  - exists st', loader. split; [exact Hcreate|]. by rewrite Hexec.
Defined.

(** ** Briefs without a request to the model *)

(** X12.  When no requested name is registered (in server mode: no
    listed tool is registered for the server), the brief generators return
    their empty result whatever the model would have answered, an exception
    included: the model is not asked. *)
Theorem generate_briefs_nothing_registered (json_loads : string → option pyval)
    (strip : string → string) (hashable_descriptors : bool)
    (regA : gmap string FunctionCalling.Tool) (names : list string)
    (regB : gmap string Mcp.Tool) (tools_list : list Mcp.McpTool)
    (mcp_server_name : string) (response : Completion) :
  (∀ n, n ∈ names → regA !! n = None) →
  (∀ tool, tool ∈ tools_list →
           ¬ Mcp.tool_of_server regB mcp_server_name (Mcp.name tool)) →
  FunctionCalling.generate_briefs json_loads strip regA names response =
  Ret (PDict []) ∧
  Mcp.generate_briefs json_loads strip hashable_descriptors regB tools_list
    mcp_server_name response = Ret Mcp.no_briefs.
Proof.
  intros HA HB. split.
  - unfold FunctionCalling.generate_briefs. destruct names as [|a l]; [done|].
    rewrite omap_none; [done|]. intros n Hn. by rewrite (HA n Hn).
  - unfold Mcp.generate_briefs. destruct tools_list as [|a l]; [done|].
    destruct (String.eqb mcp_server_name ""); [done|].
    rewrite omap_none; [done|]. intros tool Htool. unfold Mcp.owned_definition.
    destruct (regB !! Mcp.name tool) as [t|] eqn:Ht; [|done].
    case_bool_decide; [|done]. destruct (HB tool Htool). by exists t.
Qed.

Lemma generate_briefs_nothing_registered_witness :
  FunctionCalling.generate_briefs Sample.json_loads Sample.strip ∅ ["bash"]
    (CompletionRaises (OtherError "no network")) = Ret (PDict []) ∧
  Mcp.generate_briefs Sample.json_loads Sample.strip false ∅ [Sample.list_repos]
    "github" (CompletionRaises (OtherError "no network")) = Ret Mcp.no_briefs.
Proof.
  apply (generate_briefs_nothing_registered Sample.json_loads Sample.strip false
           ∅ ["bash"] ∅ [Sample.list_repos] "github").
  - intros n _. apply lookup_empty.
  - intros tool _ (t & Ht & _). by rewrite lookup_empty in Ht.
Defined.

(** ** Configuration *)

(** X13.  [llm_config] holds a setting exactly when its environment
    variable is set, with the value of the variable: [model] for [MODEL],
    [api_base] for [API_BASE], [api_key] for [API_KEY], and no other key. *)
Theorem llm_config_lookup (environ : gmap string string) (key : string) :
  dict_get (Config.llm_config environ) key =
  if String.eqb key "model" then environ !! "MODEL"
  else if String.eqb key "api_base" then environ !! "API_BASE"
  else if String.eqb key "api_key" then environ !! "API_KEY"
  else None.
Proof.
  unfold Config.llm_config. cbn [omap list_omap fst snd].
  destruct (environ !! "MODEL"), (environ !! "API_BASE"), (environ !! "API_KEY");
    unfold dict_get; cbn;
    destruct (String.eqb_spec key "model") as [->|?]; try done;
    destruct (String.eqb_spec key "api_base") as [->|?]; try done;
    by destruct (String.eqb_spec key "api_key") as [->|?].
Qed.

(** ** One message per call, in order *)

Lemma dispatch_appends_A (json_loads : string → option pyval)
    (briefs : list (string * pyval)) (st : FunctionCalling.State) (call : ToolCall) :
  let d := FunctionCalling.dispatch json_loads briefs st call in
  (FunctionCalling.appended d = [] ∨
   ∃ text, FunctionCalling.appended d = [tool_message call text] ∧
           FunctionCalling.raised d = None) ∧
  FunctionCalling.TOOL_REGISTRY (FunctionCalling.state_after d) =
  FunctionCalling.TOOL_REGISTRY st.
Proof.
  assert (Hloader : ∀ v,
            let d := FunctionCalling.after_loader call
                       (FunctionCalling.loader_execute briefs st v) in
            (FunctionCalling.appended d = [] ∨
             ∃ text, FunctionCalling.appended d = [tool_message call text] ∧
                     FunctionCalling.raised d = None) ∧
            FunctionCalling.TOOL_REGISTRY (FunctionCalling.state_after d) =
            FunctionCalling.TOOL_REGISTRY st).
  { intros v. unfold FunctionCalling.loader_execute.
    destruct v as [| | | |names|]; simpl; try (split; [right; by eexists|done]).
    destruct (FunctionCalling.activation briefs st names) as [act [rep|e]]; simpl;
      [|by split; [left|]].
    destruct (FunctionCalling.render_report rep); simpl;
      split; try done; [right; by eexists|by left]. }
  unfold FunctionCalling.dispatch.
  destruct (String.eqb (call_name call) "loader").
  - destruct (json_loads (call_arguments call)) as [[| | | | |d]|];
      try (simpl; split; [by left|done]).
    apply Hloader.
  - destruct (FunctionCalling.TOOL_REGISTRY st !! call_name call) as [tool|];
      [|simpl; split; [by left|done]].
    destruct (json_loads (call_arguments call)) as [[| | | | |kwargs]|];
      try (simpl; split; [by left|done]).
    unfold FunctionCalling.call_function.
    destruct (FunctionCalling.function tool) as [f|].
    + destruct (f kwargs); simpl; split; try done; [right; by eexists|by left].
    + destruct kwargs as [|[k v] [|? ?]]; try (simpl; split; [by left|done]).
      destruct (String.eqb k "tool_names"); [apply Hloader|simpl; split; [by left|done]].
Qed.

Lemma loader_execute_static_B (st : Mcp.State) (action : string)
    (servers tool_names : option (list string)) (srv : option string) :
  let st' := fst (Mcp.loader_execute st action servers tool_names srv) in
  Mcp.TOOL_REGISTRY st' = Mcp.TOOL_REGISTRY st ∧
  Mcp.MCP_SERVER_MANAGERS st' = Mcp.MCP_SERVER_MANAGERS st ∧
  Mcp.SERVER_BRIEFS st' = Mcp.SERVER_BRIEFS st.
Proof.
  unfold Mcp.loader_execute.
  destruct (String.eqb action "load_tool_summaries").
  - destruct (Mcp.falsy_list servers); [done|].
    by destruct (Mcp.load_summaries_loop _ _ _).
  - destruct (String.eqb action "load_tools"); [|done].
    destruct (Mcp.falsy_list tool_names || Mcp.falsy_str srv); [done|].
    destruct (negb _); [done|].
    destruct (Mcp.MCP_SERVER_MANAGERS st !! default "" srv); [|done].
    by destruct (Mcp.activation _ _ _) as [[act ls] rep].
Qed.

Lemma dispatch_appends_B (json_loads : string → option pyval)
    (bind : list (string * pyval) → result Mcp.LoaderArguments)
    (describe : gmap string pyval → gmap string Mcp.ServerState → string)
    (st : Mcp.State) (call : ToolCall) :
  let d := Mcp.dispatch json_loads bind describe st call in
  (Mcp.appended d = [] ∨
   ∃ text, Mcp.appended d = [tool_message call text] ∧ Mcp.raised d = None) ∧
  Mcp.TOOL_REGISTRY (Mcp.state_after d) = Mcp.TOOL_REGISTRY st ∧
  Mcp.MCP_SERVER_MANAGERS (Mcp.state_after d) = Mcp.MCP_SERVER_MANAGERS st ∧
  Mcp.SERVER_BRIEFS (Mcp.state_after d) = Mcp.SERVER_BRIEFS st.
Proof.
  unfold Mcp.dispatch.
  destruct (String.eqb (call_name call) "loader").
  - destruct (json_loads (call_arguments call)) as [[| | | | |d]|];
      try (simpl; split; [by left|done]).
    destruct (bind d) as [a|e]; [|simpl; split; [by left|done]].
    unfold Mcp.run_loader.
    pose proof (loader_execute_static_B st (Mcp.arg_action a) (Mcp.arg_servers a)
                  (Mcp.arg_tools a) (Mcp.arg_server a)) as Hst.
    destruct (Mcp.loader_execute _ _ _ _ _) as [st' result]. simpl in *.
    split; [right; by eexists|done].
  - destruct (Mcp.TOOL_REGISTRY st !! call_name call) as [tool|];
      [|simpl; split; [by left|done]].
    destruct (json_loads (call_arguments call)) as [[| | | | |kwargs]|];
      try (simpl; split; [by left|done]).
    unfold Mcp.call_function.
    destruct (Mcp.function tool) as [f|].
    + destruct (f kwargs); simpl; split; try done; [right; by eexists|by left].
    + destruct (bind kwargs) as [a|e]; [|simpl; split; [by left|done]].
      unfold Mcp.run_loader.
      pose proof (loader_execute_static_B st (Mcp.arg_action a) (Mcp.arg_servers a)
                    (Mcp.arg_tools a) (Mcp.arg_server a)) as Hst.
      destruct (Mcp.loader_execute _ _ _ _ _) as [st' result]. simpl in *.
      split; [right; by eexists|done].
Qed.

Lemma run_tool_calls_answers_A (json_loads : string → option pyval)
    (briefs : list (string * pyval)) (calls : list ToolCall)
    (st : FunctionCalling.State) :
  let d := FunctionCalling.run_tool_calls json_loads briefs st calls in
  tool_call_id <$> FunctionCalling.appended d `sublist_of` call_id <$> calls ∧
  Forall (λ m, role m = "tool") (FunctionCalling.appended d).
Proof.
  revert st. induction calls as [|call calls IH]; intros st; simpl.
  - done.
  - destruct (dispatch_appends_A json_loads briefs st call) as [Hd _].
    destruct (FunctionCalling.raised (FunctionCalling.dispatch json_loads briefs st call))
      as [e|] eqn:Hr.
    + destruct Hd as [->|(text & -> & Hnone)]; [|congruence].
      split; [apply sublist_nil_l|done].
    + destruct (IH (FunctionCalling.state_after
                      (FunctionCalling.dispatch json_loads briefs st call)))
        as (Hsub & Hrole).
      simpl. destruct Hd as [->|(text & -> & _)]; simpl.
      * split; [by apply sublist_cons|done].
      * split; [by apply sublist_skip|by apply Forall_cons].
Qed.

Lemma run_tool_calls_answers_B (json_loads : string → option pyval)
    (bind : list (string * pyval) → result Mcp.LoaderArguments)
    (describe : gmap string pyval → gmap string Mcp.ServerState → string)
    (calls : list ToolCall) (st : Mcp.State) :
  let d := Mcp.run_tool_calls json_loads bind describe st calls in
  tool_call_id <$> Mcp.appended d `sublist_of` call_id <$> calls ∧
  Forall (λ m, role m = "tool") (Mcp.appended d).
Proof.
  revert st. induction calls as [|call calls IH]; intros st; simpl.
  - done.
  - destruct (dispatch_appends_B json_loads bind describe st call) as [Hd _].
    destruct (Mcp.raised (Mcp.dispatch json_loads bind describe st call))
      as [e|] eqn:Hr.
    + destruct Hd as [->|(text & -> & Hnone)]; [|congruence].
      split; [apply sublist_nil_l|done].
    + destruct (IH (Mcp.state_after (Mcp.dispatch json_loads bind describe st call)))
        as (Hsub & Hrole).
      simpl. destruct Hd as [->|(text & -> & _)]; simpl.
      * split; [by apply sublist_cons|done].
      * split; [by apply sublist_skip|by apply Forall_cons].
Qed.

(** X14.  In both programs the tool calls of one assistant message are
    answered in order with at most one message each: the call ids of the
    messages appended are a subsequence of the ids of the calls, and every
    such message has the role [tool].  (A call of an unregistered tool, and
    every call after one that raises, gets no message.) *)
Theorem tool_calls_answered_in_order (json_loads : string → option pyval)
    (briefs : list (string * pyval))
    (bind : list (string * pyval) → result Mcp.LoaderArguments)
    (describe : gmap string pyval → gmap string Mcp.ServerState → string)
    (stA : FunctionCalling.State) (stB : Mcp.State) (calls : list ToolCall) :
  let dA := FunctionCalling.run_tool_calls json_loads briefs stA calls in
  let dB := Mcp.run_tool_calls json_loads bind describe stB calls in
  (tool_call_id <$> FunctionCalling.appended dA `sublist_of` call_id <$> calls ∧
   Forall (λ m, role m = "tool") (FunctionCalling.appended dA)) ∧
  (tool_call_id <$> Mcp.appended dB `sublist_of` call_id <$> calls ∧
   Forall (λ m, role m = "tool") (Mcp.appended dB)).
Proof.
  intros dA dB. split.
  - apply run_tool_calls_answers_A.
  - apply run_tool_calls_answers_B.
Qed.

(** X15.  A loader call whose payload has no [tool_names] key, or an
    empty list under it, changes nothing and is answered with the text for
    no activation. *)
Theorem loader_call_without_names (json_loads : string → option pyval)
    (briefs : list (string * pyval)) (st : FunctionCalling.State) (call : ToolCall)
    (payload : list (string * pyval)) :
  call_name call = "loader" →
  json_loads (call_arguments call) = Some (PDict payload) →
  dict_get payload "tool_names" = None ∨
  dict_get payload "tool_names" = Some (PList []) →
  FunctionCalling.dispatch json_loads briefs st call =
  {| FunctionCalling.state_after := st;
     FunctionCalling.appended :=
       [tool_message call
          "No tools activated. They are now available for use in the next message."];
     FunctionCalling.invoked := [];
     FunctionCalling.raised := None |}.
Proof.
  intros Hname Hload Hkey. unfold FunctionCalling.dispatch.
  rewrite Hname. simpl. rewrite Hload.
  assert (default (PList []) (dict_get payload "tool_names") = PList []) as ->
    by (by destruct Hkey as [-> | ->]).
  simpl. by destruct st.
Qed.

Lemma loader_call_without_names_witness :
  FunctionCalling.dispatch (λ _, Some (PDict [])) Sample.briefs Sample.state
    {| call_id := "call_2"; call_name := "loader"; call_arguments := "{}" |} =
  {| FunctionCalling.state_after := Sample.state;
     FunctionCalling.appended :=
       [{| role := "tool"; tool_call_id := "call_2";
           content :=
             "No tools activated. They are now available for use in the next message." |}];
     FunctionCalling.invoked := [];
     FunctionCalling.raised := None |}.
Proof.
  apply (loader_call_without_names (λ _, Some (PDict [])) Sample.briefs Sample.state
           {| call_id := "call_2"; call_name := "loader"; call_arguments := "{}" |} []).
  - reflexivity.
  - reflexivity.
  - by left.
Defined.

(** ** What a conversation leaves alone *)

Lemma loader_execute_registry_A (briefs : list (string * pyval))
    (st : FunctionCalling.State) (v : pyval) :
  FunctionCalling.TOOL_REGISTRY (fst (FunctionCalling.loader_execute briefs st v)) =
  FunctionCalling.TOOL_REGISTRY st.
Proof.
  unfold FunctionCalling.loader_execute. destruct v as [| | | |names|]; try done.
  by destruct (FunctionCalling.activation briefs st names).
Qed.

Lemma run_op_static_B (json_loads : string → option pyval)
    (bind : list (string * pyval) → result Mcp.LoaderArguments)
    (describe : gmap string pyval → gmap string Mcp.ServerState → string)
    (st : Mcp.State) (op : Mcp.Op) :
  let st' := Mcp.run_op json_loads bind describe st op in
  Mcp.TOOL_REGISTRY st' = Mcp.TOOL_REGISTRY st ∧
  Mcp.MCP_SERVER_MANAGERS st' = Mcp.MCP_SERVER_MANAGERS st ∧
  Mcp.SERVER_BRIEFS st' = Mcp.SERVER_BRIEFS st.
Proof.
  destruct op as [a|call]; simpl.
  - apply loader_execute_static_B.
  - apply dispatch_appends_B.
Qed.

(** X16.  Nothing that happens in a conversation rebinds a tool: after
    any sequence of loader operations and dispatched tool calls the flat
    registry is what it was.  In the server program the registry has the
    same names, every binding whose definition is not named [loader] is
    what it was (the loader's own definition is the object that sits in the
    active tools, so the refresh of its description shows in the registry
    as well), and the managers and the briefs of the servers are
    unchanged. *)
Theorem conversation_keeps_registry (json_loads : string → option pyval)
    (briefs : list (string * pyval))
    (bind : list (string * pyval) → result Mcp.LoaderArguments)
    (describe : gmap string pyval → gmap string Mcp.ServerState → string)
    (stA : FunctionCalling.State) (opsA : list FunctionCalling.Op)
    (stB : Mcp.State) (opsB : list Mcp.Op) :
  FunctionCalling.TOOL_REGISTRY (FunctionCalling.run_ops json_loads briefs stA opsA) =
  FunctionCalling.TOOL_REGISTRY stA ∧
  (let stB' := Mcp.run_ops json_loads bind describe stB opsB in
   (∀ n, is_Some (Mcp.TOOL_REGISTRY stB' !! n) ↔ is_Some (Mcp.TOOL_REGISTRY stB !! n)) ∧
   (∀ n t, Mcp.TOOL_REGISTRY stB !! n = Some t →
           Mcp.fn_name (Mcp.definition t) ≠ "loader" →
           Mcp.TOOL_REGISTRY stB' !! n = Some t) ∧
   Mcp.MCP_SERVER_MANAGERS stB' = Mcp.MCP_SERVER_MANAGERS stB ∧
   Mcp.SERVER_BRIEFS stB' = Mcp.SERVER_BRIEFS stB).
Proof.
  split.
  - revert stA. unfold FunctionCalling.run_ops.
    induction opsA as [|op ops IH]; intros st; [done|].
    simpl. rewrite IH. destruct op as [v|call]; simpl.
    + apply loader_execute_registry_A.
    + apply dispatch_appends_A.
  - assert (Hstatic :
      Mcp.TOOL_REGISTRY (Mcp.run_ops json_loads bind describe stB opsB) =
      Mcp.TOOL_REGISTRY stB ∧
      Mcp.MCP_SERVER_MANAGERS (Mcp.run_ops json_loads bind describe stB opsB) =
      Mcp.MCP_SERVER_MANAGERS stB ∧
      Mcp.SERVER_BRIEFS (Mcp.run_ops json_loads bind describe stB opsB) =
      Mcp.SERVER_BRIEFS stB).
    { revert stB. unfold Mcp.run_ops.
      induction opsB as [|op ops IH]; intros st; [done|].
      simpl. destruct (IH (Mcp.run_op json_loads bind describe st op)) as (-> & -> & ->).
      apply run_op_static_B. }
    destruct Hstatic as (Hreg & Hman & Hbriefs). simpl.
    rewrite Hreg. by repeat split.
Qed.

Lemma server_state_grows_refl (o : option Mcp.ServerState) :
  Mcp.server_state_grows o o.
Proof. destruct o; simpl; [|done]. by split; [|split]. Qed.

Lemma server_state_grows_trans (a b c : option Mcp.ServerState) :
  Mcp.server_state_grows a b → Mcp.server_state_grows b c →
  Mcp.server_state_grows a c.
Proof.
  destruct a as [a|], b as [b|], c as [c|]; simpl; try done.
  intros (H1 & H2 & H3) (H4 & H5 & H6). split; [congruence|]. split; [auto|].
  by etrans.
Qed.

Lemma alter_mark_grows (a s : string) (ls : gmap string Mcp.ServerState) :
  Mcp.server_state_grows (ls !! s) (alter Mcp.mark_summaries_loaded a ls !! s).
Proof.
  rewrite lookup_alter. case_decide as Heq; [|apply server_state_grows_refl].
  subst. destruct (ls !! s); simpl; [|done]. by split; [|split].
Qed.

Lemma alter_add_grows (n a s : string) (ls : gmap string Mcp.ServerState) :
  Mcp.server_state_grows (ls !! s) (alter (Mcp.add_active_tool n) a ls !! s).
Proof.
  rewrite lookup_alter. case_decide as Heq; [|apply server_state_grows_refl].
  subst. destruct (ls !! s); simpl; [|done].
  split; [done|]. split; [done|]. by apply prefix_app_r.
Qed.

Lemma load_summaries_loop_grows (servers : list string)
    (ls : gmap string Mcp.ServerState) (loaded : list string) (s : string) :
  Mcp.server_state_grows (ls !! s) ((Mcp.load_summaries_loop servers ls loaded).1 !! s).
Proof.
  revert ls loaded. induction servers as [|a servers IH]; intros ls loaded; simpl.
  - apply server_state_grows_refl.
  - destruct (ls !! a); [|apply server_state_grows_refl].
    eapply server_state_grows_trans; [apply (alter_mark_grows a)|apply IH].
Qed.

Lemma load_tools_loop_grows (reg : gmap string Mcp.Tool) (srv : string)
    (snapshot names : list string) (act : list Mcp.ToolDefinition)
    (ls : gmap string Mcp.ServerState) (rep : Mcp.Report) (s : string) :
  Mcp.server_state_grows (ls !! s)
    ((Mcp.load_tools_loop reg srv snapshot names act ls rep).1.2 !! s).
Proof.
  revert act ls rep. induction names as [|n names IH]; intros act ls rep; simpl.
  - apply server_state_grows_refl.
  - case_bool_decide; [apply IH|].
    destruct (reg !! n); [|apply IH].
    case_bool_decide; [|apply IH].
    eapply server_state_grows_trans; [apply (alter_add_grows n srv)|apply IH].
Qed.

Lemma loader_execute_grows (st : Mcp.State) (action : string)
    (servers tool_names : option (list string)) (srv : option string) (s : string) :
  Mcp.server_state_grows (Mcp.LOADER_STATE st !! s)
    (Mcp.LOADER_STATE (fst (Mcp.loader_execute st action servers tool_names srv)) !! s).
Proof.
  unfold Mcp.loader_execute.
  destruct (String.eqb action "load_tool_summaries").
  - destruct (Mcp.falsy_list servers); [apply server_state_grows_refl|].
    pose proof (load_summaries_loop_grows (default [] servers) (Mcp.LOADER_STATE st) [] s).
    by destruct (Mcp.load_summaries_loop _ _ _).
  - destruct (String.eqb action "load_tools"); [|apply server_state_grows_refl].
    destruct (Mcp.falsy_list tool_names || Mcp.falsy_str srv);
      [apply server_state_grows_refl|].
    destruct (negb _); [apply server_state_grows_refl|].
    destruct (Mcp.MCP_SERVER_MANAGERS st !! default "" srv);
      [|apply server_state_grows_refl].
    unfold Mcp.activation.
    pose proof (load_tools_loop_grows (Mcp.TOOL_REGISTRY st) (default "" srv)
                  (Mcp.active_tool_names st) (default [] tool_names)
                  (Mcp.active_tools st) (Mcp.LOADER_STATE st) Mcp.empty_report s).
    by destruct (Mcp.load_tools_loop _ _ _ _ _ _ _) as [[act ls] rep].
Qed.

Lemma dispatch_grows (json_loads : string → option pyval)
    (bind : list (string * pyval) → result Mcp.LoaderArguments)
    (describe : gmap string pyval → gmap string Mcp.ServerState → string)
    (st : Mcp.State) (call : ToolCall) (s : string) :
  Mcp.server_state_grows (Mcp.LOADER_STATE st !! s)
    (Mcp.LOADER_STATE (Mcp.state_after (Mcp.dispatch json_loads bind describe st call))
       !! s).
Proof.
  unfold Mcp.dispatch.
  destruct (String.eqb (call_name call) "loader").
  - destruct (json_loads (call_arguments call)) as [[| | | | |d]|];
      try apply server_state_grows_refl.
    destruct (bind d) as [a|e]; [|apply server_state_grows_refl].
    unfold Mcp.run_loader.
    pose proof (loader_execute_grows st (Mcp.arg_action a) (Mcp.arg_servers a)
                  (Mcp.arg_tools a) (Mcp.arg_server a) s) as Hg.
    by destruct (Mcp.loader_execute _ _ _ _ _) as [st' result].
  - destruct (Mcp.TOOL_REGISTRY st !! call_name call) as [tool|];
      [|apply server_state_grows_refl].
    destruct (json_loads (call_arguments call)) as [[| | | | |kwargs]|];
      try apply server_state_grows_refl.
    unfold Mcp.call_function.
    destruct (Mcp.function tool) as [f|].
    + destruct (f kwargs); apply server_state_grows_refl.
    + destruct (bind kwargs) as [a|e]; [|apply server_state_grows_refl].
      unfold Mcp.run_loader.
      pose proof (loader_execute_grows st (Mcp.arg_action a) (Mcp.arg_servers a)
                    (Mcp.arg_tools a) (Mcp.arg_server a) s) as Hg.
      by destruct (Mcp.loader_execute _ _ _ _ _) as [st' result].
Qed.

(** X17.  The loader state of a server only moves forward during a
    conversation: after any sequence of loader operations and dispatched
    tool calls a server that had no entry has none, a server that had one
    keeps it, summaries that were loaded are still loaded, and the server's
    list of active tools is the old list with names appended. *)
Theorem loader_state_only_grows (json_loads : string → option pyval)
    (bind : list (string * pyval) → result Mcp.LoaderArguments)
    (describe : gmap string pyval → gmap string Mcp.ServerState → string)
    (st : Mcp.State) (ops : list Mcp.Op) (s : string) :
  Mcp.server_state_grows (Mcp.LOADER_STATE st !! s)
    (Mcp.LOADER_STATE (Mcp.run_ops json_loads bind describe st ops) !! s).
Proof.
  revert st. unfold Mcp.run_ops.
  induction ops as [|op ops IH]; intros st; [apply server_state_grows_refl|].
  simpl. eapply server_state_grows_trans; [|apply IH].
  destruct op as [a|call]; simpl.
  - apply loader_execute_grows.
  - apply dispatch_grows.
Qed.

(** ** What each request offers to the model *)

Lemma run_tool_calls_extends_A (json_loads : string → option pyval)
    (briefs : list (string * pyval)) (calls : list ToolCall)
    (st : FunctionCalling.State) :
  ∃ k, FunctionCalling.active_tool_names
         (FunctionCalling.state_after
            (FunctionCalling.run_tool_calls json_loads briefs st calls)) =
       FunctionCalling.active_tool_names st ++ k.
Proof.
  revert st. induction calls as [|call calls IH]; intros st; simpl.
  - exists []. by rewrite app_nil_r.
  - destruct (dispatch_extends_A json_loads briefs st call) as [k0 Hk0].
    assert (Hn0 : FunctionCalling.active_tool_names
                    (FunctionCalling.state_after
                       (FunctionCalling.dispatch json_loads briefs st call)) =
                  FunctionCalling.active_tool_names st ++ (FunctionCalling.fn_name <$> k0)).
    { unfold FunctionCalling.active_tool_names. by rewrite Hk0, fmap_app. }
    destruct (FunctionCalling.raised (FunctionCalling.dispatch json_loads briefs st call)).
    + by eexists.
    + simpl.
      destruct (IH (FunctionCalling.state_after
                      (FunctionCalling.dispatch json_loads briefs st call))) as [k ->].
      rewrite Hn0, <- app_assoc. by eexists.
Qed.

Lemma run_tool_calls_extends_B (json_loads : string → option pyval)
    (bind : list (string * pyval) → result Mcp.LoaderArguments)
    (describe : gmap string pyval → gmap string Mcp.ServerState → string)
    (calls : list ToolCall) (st : Mcp.State) :
  ∃ k, Mcp.active_tool_names
         (Mcp.state_after (Mcp.run_tool_calls json_loads bind describe st calls)) =
       Mcp.active_tool_names st ++ k.
Proof.
  revert st. induction calls as [|call calls IH]; intros st; simpl.
  - exists []. by rewrite app_nil_r.
  - destruct (dispatch_extends_B json_loads bind describe st call) as [k0 Hk0].
    destruct (Mcp.raised (Mcp.dispatch json_loads bind describe st call)).
    + by eexists.
    + simpl.
      destruct (IH (Mcp.state_after (Mcp.dispatch json_loads bind describe st call)))
        as [k ->].
      rewrite Hk0, <- app_assoc. by eexists.
Qed.

Section offers.
Context {Request State : Type}.
Variable names_of : Request → list string.
Variable active : State → list string.

Lemma offers_grow_one (st : State) (r : Request) :
  names_of r = active st → offers_grow names_of active st [r].
Proof.
  intros Hr. split; [|split].
  - intros r' ->%list_elem_of_singleton. exists []. by rewrite app_nil_r.
  - intros i r1 r2 H1 H2. by destruct i.
  - intros r' [= <-]. done.
Qed.

Lemma offers_grow_cons (st st' : State) (r : Request) (new : list Request) :
  names_of r = active st →
  (∃ k, active st' = active st ++ k) →
  offers_grow names_of active st' new → offers_grow names_of active st (r :: new).
Proof.
  intros Hr [k Hk] (Hall & Hadj & Hhead). split; [|split].
  - intros r' [->|Hin]%elem_of_cons.
    + exists []. by rewrite app_nil_r.
    + destruct (Hall r' Hin) as [k' ->]. rewrite Hk, <- app_assoc. by eexists.
  - intros [|i] r1 r2 H1 H2.
    + injection H1 as <-. simpl in H2.
      assert (head new = Some r2) as Hh by (by destruct new).
      rewrite (Hhead r2 Hh), Hr, Hk. by eexists.
    + simpl in H1, H2. by eapply Hadj.
  - intros r' [= <-]. done.
Qed.
End offers.

Lemma main_loop_offers_A (json_loads : string → option pyval)
    (briefs : list (string * pyval)) (replies : list Reply)
    (st : FunctionCalling.State) (msgs : list Entry)
    (reqs : list FunctionCalling.Request) :
  ∃ new,
    FunctionCalling.requests
      (FunctionCalling.main_loop json_loads briefs replies st msgs reqs) = reqs ++ new ∧
    (replies ≠ [] →
     offers_grow (λ r, FunctionCalling.fn_name <$> FunctionCalling.request_tools r)
       FunctionCalling.active_tool_names st new) ∧
    (replies = [] → new = []).
Proof.
  revert st msgs reqs. induction replies as [|reply rest IH]; intros st msgs reqs.
  - exists []. simpl. by rewrite app_nil_r.
  - set (req := {| FunctionCalling.request_messages := msgs;
                   FunctionCalling.request_tools := FunctionCalling.active_tools st |}).
    assert (Hone : offers_grow
                     (λ r, FunctionCalling.fn_name <$> FunctionCalling.request_tools r)
                     FunctionCalling.active_tool_names st [req])
      by (by apply offers_grow_one).
    cbn [FunctionCalling.main_loop]. fold req.
    destruct reply as [e| |text calls]; try (by exists [req]).
    destruct calls as [|call calls]; [by exists [req]|].
    destruct (FunctionCalling.raised
                (FunctionCalling.run_tool_calls json_loads briefs st (call :: calls)))
      eqn:Hr; [by exists [req]|].
    destruct (IH (FunctionCalling.state_after
                    (FunctionCalling.run_tool_calls json_loads briefs st (call :: calls)))
                ((msgs ++ [AssistantEntry text (call :: calls)]) ++
                 (ToolEntry <$> FunctionCalling.appended
                    (FunctionCalling.run_tool_calls json_loads briefs st (call :: calls))))
                (reqs ++ [req])) as (new & Hreq & Hgrow & Hnil).
    exists (req :: new). split.
    + rewrite Hreq. by rewrite <- app_assoc.
    + split; [|done]. intros _. destruct rest as [|reply' rest'].
      * by rewrite Hnil.
      * eapply offers_grow_cons; [done|apply run_tool_calls_extends_A|].
        by apply Hgrow.
Qed.

Lemma main_loop_offers_B (json_loads : string → option pyval)
    (bind : list (string * pyval) → result Mcp.LoaderArguments)
    (describe : gmap string pyval → gmap string Mcp.ServerState → string)
    (replies : list Reply) (st : Mcp.State) (msgs : list Entry)
    (reqs : list Mcp.Request) :
  ∃ new,
    Mcp.requests (Mcp.main_loop json_loads bind describe replies st msgs reqs) =
    reqs ++ new ∧
    (replies ≠ [] →
     offers_grow (λ r, Mcp.fn_name <$> Mcp.request_tools r) Mcp.active_tool_names
       st new) ∧
    (replies = [] → new = []).
Proof.
  revert st msgs reqs. induction replies as [|reply rest IH]; intros st msgs reqs.
  - exists []. simpl. by rewrite app_nil_r.
  - set (req := {| Mcp.request_messages := msgs;
                   Mcp.request_tools := Mcp.active_tools st |}).
    assert (Hone : offers_grow (λ r, Mcp.fn_name <$> Mcp.request_tools r)
                     Mcp.active_tool_names st [req])
      by (by apply offers_grow_one).
    cbn [Mcp.main_loop]. fold req.
    destruct reply as [e| |text calls]; try (by exists [req]).
    destruct calls as [|call calls]; [by exists [req]|].
    destruct (Mcp.raised
                (Mcp.run_tool_calls json_loads bind describe st (call :: calls)))
      eqn:Hr; [by exists [req]|].
    destruct (IH (Mcp.state_after
                    (Mcp.run_tool_calls json_loads bind describe st (call :: calls)))
                ((msgs ++ [AssistantEntry text (call :: calls)]) ++
                 (ToolEntry <$> Mcp.appended
                    (Mcp.run_tool_calls json_loads bind describe st (call :: calls))))
                (reqs ++ [req])) as (new & Hreq & Hgrow & Hnil).
    exists (req :: new). split.
    + rewrite Hreq. by rewrite <- app_assoc.
    + split; [|done]. intros _. destruct rest as [|reply' rest'].
      * by rewrite Hnil.
      * eapply offers_grow_cons; [done|apply run_tool_calls_extends_B|].
        by apply Hgrow.
Qed.

(** X18.  In both programs every request sent to the model offers the
    loader, and each request offers the tools of the request before it, in
    the same order, followed by those activated in between: nothing that
    was offered once is withdrawn. *)
Theorem requests_offer_loader (json_loads : string → option pyval)
    (briefs : list (string * pyval))
    (bind : list (string * pyval) → result Mcp.LoaderArguments)
    (describe : gmap string pyval → gmap string Mcp.ServerState → string)
    (loaderA : FunctionCalling.Tool) (loaderB : Mcp.Tool) (replies : list Reply)
    (stA : FunctionCalling.State) (stB : Mcp.State) :
  FunctionCalling.fn_name (FunctionCalling.definition loaderA) = "loader" →
  Mcp.fn_name (Mcp.definition loaderB) = "loader" →
  let offeredA :=
    (λ r, FunctionCalling.fn_name <$> FunctionCalling.request_tools r) <$>
    FunctionCalling.requests (FunctionCalling.main json_loads briefs loaderA replies stA) in
  let offeredB :=
    (λ r, Mcp.fn_name <$> Mcp.request_tools r) <$>
    Mcp.requests (Mcp.conversation json_loads bind describe loaderB replies stB) in
  (Forall (λ names, "loader" ∈ names) offeredA ∧
   ∀ i a b, offeredA !! i = Some a → offeredA !! S i = Some b → a `prefix_of` b) ∧
  (Forall (λ names, "loader" ∈ names) offeredB ∧
   ∀ i a b, offeredB !! i = Some a → offeredB !! S i = Some b → a `prefix_of` b).
Proof.
  intros HA HB offeredA offeredB. subst offeredA offeredB.
  unfold FunctionCalling.main, Mcp.conversation. split.
  - destruct (main_loop_offers_A json_loads briefs replies
                (FunctionCalling.start_conversation stA loaderA)
                [UserEntry "I need to calculate 15 * 7 and then get the weather in New York."]
                []) as (new & -> & Hgrow & Hnil).
    simpl. destruct replies as [|reply rest]; [by rewrite Hnil|].
    destruct Hgrow as (Hall & Hadj & _); [done|]. split.
    + apply Forall_fmap, Forall_forall. intros r Hr. simpl.
      destruct (Hall r Hr) as [k ->]. apply elem_of_app. left.
      by apply start_conversation_loader_A.
    + intros i a b Ha Hb. rewrite list_lookup_fmap in Ha, Hb.
      destruct (new !! i) as [r1|] eqn:H1; [|done].
      destruct (new !! S i) as [r2|] eqn:H2; [|done].
      simpl in Ha, Hb. injection Ha as <-. injection Hb as <-.
      destruct (Hadj i r1 r2 H1 H2) as [k Hk]. by exists k.
  - destruct (main_loop_offers_B json_loads bind describe replies
                (Mcp.start_conversation stB loaderB)
                [UserEntry "Provide a list of 5 of my public GitHub repositories"]
                []) as (new & -> & Hgrow & Hnil).
    simpl. destruct replies as [|reply rest]; [by rewrite Hnil|].
    destruct Hgrow as (Hall & Hadj & _); [done|]. split.
    + apply Forall_fmap, Forall_forall. intros r Hr. simpl.
      destruct (Hall r Hr) as [k ->]. apply elem_of_app. left.
      by apply start_conversation_loader_B.
    + intros i a b Ha Hb. rewrite list_lookup_fmap in Ha, Hb.
      destruct (new !! i) as [r1|] eqn:H1; [|done].
      destruct (new !! S i) as [r2|] eqn:H2; [|done].
      simpl in Ha, Hb. injection Ha as <-. injection Hb as <-.
      destruct (Hadj i r1 r2 H1 H2) as [k Hk]. by exists k.
Qed.

(** ** [load_tools], name by name *)

Lemma alter_add_active_tools_nil (srv : string) (ls : gmap string Mcp.ServerState) :
  alter (Mcp.add_active_tools []) srv ls = ls.
Proof.
  apply map_eq. intros s. rewrite lookup_alter. case_decide; [|done]. subst.
  destruct (ls !! s) as [[d sl ats]|]; [|done]. simpl.
  unfold Mcp.add_active_tools. simpl. by rewrite app_nil_r.
Qed.

Lemma alter_add_active_tools_cons (srv n : string) (more : list string)
    (ls : gmap string Mcp.ServerState) :
  alter (Mcp.add_active_tools more) srv (alter (Mcp.add_active_tool n) srv ls) =
  alter (Mcp.add_active_tools (n :: more)) srv ls.
Proof.
  apply map_eq. intros s. destruct (decide (srv = s)) as [->|Hne].
  - rewrite !lookup_alter_eq.
    destruct (ls !! s) as [[d sl ats]|]; [|done]. simpl.
    unfold Mcp.add_active_tools, Mcp.add_active_tool. simpl.
    by rewrite <- app_assoc.
  - by rewrite !lookup_alter_ne.
Qed.

Section server_fates.
Variable reg : gmap string Mcp.Tool.
Variable srv : string.
Variable snapshot : list string.

Let f := Mcp.fate reg srv snapshot.

Lemma load_tools_loop_fates (names : list string) (act : list Mcp.ToolDefinition)
    (ls : gmap string Mcp.ServerState) (rep : Mcp.Report) :
  Mcp.load_tools_loop reg srv snapshot names act ls rep =
  (act ++ Mcp.definitions_of f names,
   alter (Mcp.add_active_tools (Mcp.activated_of f names)) srv ls,
   {| Mcp.activated := Mcp.activated rep ++ Mcp.activated_of f names;
      Mcp.failed := Mcp.failed rep ++ Mcp.failed_of f names;
      Mcp.errors := Mcp.errors rep ++ Mcp.errors_of f names |}).
Proof.
  revert act ls rep. induction names as [|n names IH]; intros act ls rep.
  - simpl. rewrite !app_nil_r, alter_add_active_tools_nil. by destruct rep.
  - assert (Hstep : Mcp.load_tools_loop reg srv snapshot (n :: names) act ls rep =
                    match f n with
                    | Mcp.AlreadyLoaded =>
                        Mcp.load_tools_loop reg srv snapshot names act ls
                          (Mcp.add_error rep (n +:+ " already loaded."))
                    | Mcp.NotActivated =>
                        Mcp.load_tools_loop reg srv snapshot names act ls
                          (Mcp.add_failed rep n)
                    | Mcp.Activate tool_info =>
                        Mcp.load_tools_loop reg srv snapshot names
                          (act ++ [Mcp.definition tool_info])
                          (alter (Mcp.add_active_tool n) srv ls)
                          (Mcp.add_activated rep n)
                    end).
    { unfold f, Mcp.fate. simpl. case_bool_decide; [done|].
      destruct (reg !! n); [|done]. by case_bool_decide. }
    rewrite Hstep.
    unfold Mcp.definitions_of, Mcp.activated_of, Mcp.failed_of, Mcp.errors_of in *.
    cbn [omap list_omap].
    destruct (f n); rewrite IH; simpl;
      rewrite <- ?app_assoc, ?alter_add_active_tools_cons; done.
Qed.

Lemma activated_of_spec_B (names : list string) (n : string) :
  n ∈ Mcp.activated_of f names ↔
  n ∈ names ∧ (n ∉ snapshot) ∧ Mcp.tool_of_server reg srv n.
Proof.
  unfold Mcp.activated_of, Mcp.tool_of_server. rewrite list_elem_of_omap. split.
  - intros (x & Hx & Hfx). unfold f, Mcp.fate in Hfx.
    case_bool_decide; [done|].
    destruct (reg !! x) as [t|] eqn:Hr; [|done].
    case_bool_decide; [|done]. injection Hfx as <-. by eauto.
  - intros (Hin & Hs & t & Ht & Hsrv). exists n. split; [done|].
    unfold f, Mcp.fate. rewrite (bool_decide_eq_false_2 _ Hs), Ht.
    by rewrite (bool_decide_eq_true_2 _ Hsrv).
Qed.

Lemma activated_of_sublist_B (names : list string) :
  Mcp.activated_of f names `sublist_of` names.
Proof.
  unfold Mcp.activated_of. induction names as [|n names IH]; [done|].
  cbn [omap list_omap]. destruct (f n); simpl;
    [by apply sublist_cons|by apply sublist_cons|by apply sublist_skip].
Qed.

Lemma definitions_of_names_B (names : list string) :
  Mcp.registered_by_name reg →
  Mcp.fn_name <$> Mcp.definitions_of f names = Mcp.activated_of f names.
Proof.
  intros Hwf. unfold Mcp.definitions_of, Mcp.activated_of.
  induction names as [|n names IH]; [done|].
  cbn [omap list_omap]. destruct (f n) as [| |t] eqn:Hf; [exact IH|exact IH|].
  rewrite fmap_cons, IH. f_equal. apply Hwf.
  unfold f, Mcp.fate in Hf. case_bool_decide; [done|].
  destruct (reg !! n); [|done]. case_bool_decide; [|done]. by injection Hf as ->.
Qed.

Lemma definitions_of_owned (names : list string) :
  Forall (λ d, ∃ n t, n ∈ names ∧ reg !! n = Some t ∧ Mcp.server t = Some srv ∧
                      d = Mcp.definition t)
    (Mcp.definitions_of f names).
Proof.
  apply Forall_forall. intros d Hd. unfold Mcp.definitions_of in Hd.
  apply list_elem_of_omap in Hd as (n & Hn & Hfn).
  unfold f, Mcp.fate in Hfn. case_bool_decide; [done|].
  destruct (reg !! n) as [t|] eqn:Hr; [|done].
  case_bool_decide; [|done]. injection Hfn as <-. by exists n, t.
Qed.

Lemma fates_partition_B (names : list string) :
  (length (Mcp.activated_of f names) + length (Mcp.failed_of f names) +
   length (Mcp.errors_of f names) = length names)%nat.
Proof.
  unfold Mcp.activated_of, Mcp.failed_of, Mcp.errors_of.
  induction names as [|n names IH]; [done|].
  cbn [omap list_omap]. destruct (f n); simpl; lia.
Qed.
End server_fates.

(** What a [load_tools] call that passes its checks does. *)
Lemma load_tools_by_fate (st : Mcp.State) (servers : option (list string))
    (names : list string) (srv : string) :
  names ≠ [] → srv ≠ "" →
  Mcp.summaries_loaded_for st srv = true →
  is_Some (Mcp.MCP_SERVER_MANAGERS st !! srv) →
  let f := Mcp.fate (Mcp.TOOL_REGISTRY st) srv (Mcp.active_tool_names st) in
  Mcp.loader_execute st "load_tools" servers (Some names) (Some srv) =
  (Mcp.set_loader_state
     (Mcp.set_active_tools st (Mcp.active_tools st ++ Mcp.definitions_of f names))
     (alter (Mcp.add_active_tools (Mcp.activated_of f names)) srv (Mcp.LOADER_STATE st)),
   Mcp.render_report srv
     {| Mcp.activated := Mcp.activated_of f names;
        Mcp.failed := Mcp.failed_of f names;
        Mcp.errors := Mcp.errors_of f names |}).
Proof.
  intros Hnames Hsrv Hsum [m Hm] f. rewrite load_tools_unfold.
  apply String.eqb_neq in Hsrv. rewrite Hsrv, Hsum, Hm.
  destruct names as [|a names]; [done|]. simpl negb. cbv iota.
  change (Mcp.falsy_list (Some (a :: names)) || false) with false. cbv iota.
  unfold Mcp.activation. by rewrite load_tools_loop_fates.
Qed.

(** A [load_tools] call that fails one of its checks returns the state it
    was given. *)
Lemma load_tools_refused (st : Mcp.State) (servers : option (list string))
    (names : list string) (srv : string) :
  ¬ (names ≠ [] ∧ srv ≠ "" ∧ Mcp.summaries_loaded_for st srv = true ∧
     is_Some (Mcp.MCP_SERVER_MANAGERS st !! srv)) →
  fst (Mcp.loader_execute st "load_tools" servers (Some names) (Some srv)) = st.
Proof.
  intros Hnot. rewrite load_tools_unfold.
  destruct names as [|a names]; [done|].
  destruct (String.eqb_spec srv "") as [->|Hsrv]; [done|].
  change (Mcp.falsy_list (Some (a :: names)) || false) with false. cbv iota.
  destruct (Mcp.summaries_loaded_for st srv) eqn:Hsum; [|done]. simpl.
  destruct (Mcp.MCP_SERVER_MANAGERS st !! srv) eqn:Hm; [|done].
  destruct Hnot. split; [done|]. split; [done|]. split; [done|by eexists].
Qed.

Lemma load_tools_checks_dec (st : Mcp.State) (names : list string) (srv : string) :
  (names ≠ [] ∧ srv ≠ "" ∧ Mcp.summaries_loaded_for st srv = true ∧
   is_Some (Mcp.MCP_SERVER_MANAGERS st !! srv)) ∨
  ¬ (names ≠ [] ∧ srv ≠ "" ∧ Mcp.summaries_loaded_for st srv = true ∧
     is_Some (Mcp.MCP_SERVER_MANAGERS st !! srv)).
Proof.
  destruct names as [|a names]; [right; by intros [? _]|].
  destruct (decide (srv = "")) as [->|?]; [right; by intros (_ & ? & _)|].
  destruct (Mcp.summaries_loaded_for st srv); [|right; by intros (_ & _ & ? & _)].
  destruct (Mcp.MCP_SERVER_MANAGERS st !! srv) eqn:Hm.
  - left. split; [done|]. split; [done|]. split; [done|by eexists].
  - right. intros (_ & _ & _ & [? ?]). congruence.
Qed.

(** X19.  A [load_tools] call that passes its checks (a non-empty list,
    a server whose summaries are loaded and that has a manager) decides
    each name on its own, by the registry and the names that were active
    before the call: a name that was active gets the already-loaded notice,
    a registered tool of the server is activated, any other name fails.
    The report accounts for every requested name exactly once. *)
Theorem load_tools_accounts (st : Mcp.State) (servers : option (list string))
    (names : list string) (srv : string) :
  names ≠ [] → srv ≠ "" →
  Mcp.summaries_loaded_for st srv = true →
  is_Some (Mcp.MCP_SERVER_MANAGERS st !! srv) →
  ∃ rep,
    snd (Mcp.loader_execute st "load_tools" servers (Some names) (Some srv)) =
    Mcp.render_report srv rep ∧
    (∀ n, n ∈ Mcp.activated rep ↔
          n ∈ names ∧ (n ∉ Mcp.active_tool_names st) ∧
          Mcp.tool_of_server (Mcp.TOOL_REGISTRY st) srv n) ∧
    (length (Mcp.activated rep) + length (Mcp.failed rep) +
     length (Mcp.errors rep) = length names)%nat ∧
    length (Mcp.active_tools
              (fst (Mcp.loader_execute st "load_tools" servers (Some names) (Some srv)))) =
    (length (Mcp.active_tools st) + length (Mcp.activated rep))%nat.
Proof.
  intros Hnames Hsrv Hsum Hm. rewrite load_tools_by_fate by done.
  eexists. split; [reflexivity|]. simpl. split; [|split].
  - intros n. apply activated_of_spec_B.
  - apply fates_partition_B.
  - rewrite length_app. f_equal.
    unfold Mcp.definitions_of, Mcp.activated_of.
    induction names as [|a names IH]; [done|].
    cbn [omap list_omap].
    destruct (Mcp.fate _ _ _ a); simpl.
    + destruct names; [done|]. by apply IH.
    + destruct names; [done|]. by apply IH.
    + destruct names; [done|]. f_equal. by apply IH.
Qed.

(** X20.  With every binding registered under its own name, a
    [load_tools] call keeps the two records of what is active in step: the
    names it appends to the active tools are the names it appends to the
    server's own list of active tools, in the same order; the entries of
    the other servers and every summaries flag are left as they were. *)
Theorem load_tools_keeps_lists_in_step (st : Mcp.State)
    (servers : option (list string)) (names : list string) (srv : string) :
  Mcp.registered_by_name (Mcp.TOOL_REGISTRY st) →
  let st' := fst (Mcp.loader_execute st "load_tools" servers (Some names) (Some srv)) in
  ∃ added,
    Mcp.active_tool_names st' = Mcp.active_tool_names st ++ added ∧
    Mcp.server_active_tools <$> Mcp.LOADER_STATE st' !! srv =
    (λ s, Mcp.server_active_tools s ++ added) <$> Mcp.LOADER_STATE st !! srv ∧
    (∀ other, other ≠ srv →
              Mcp.LOADER_STATE st' !! other = Mcp.LOADER_STATE st !! other) ∧
    (∀ s, Mcp.summaries_loaded <$> Mcp.LOADER_STATE st' !! s =
          Mcp.summaries_loaded <$> Mcp.LOADER_STATE st !! s).
Proof.
  intros Hwf st'. subst st'.
  destruct (load_tools_checks_dec st names srv) as [(H1 & H2 & H3 & H4)|Hnot].
  - rewrite load_tools_by_fate by done. simpl.
    exists (Mcp.activated_of
              (Mcp.fate (Mcp.TOOL_REGISTRY st) srv (Mcp.active_tool_names st)) names).
    split; [|split; [|split]].
    + unfold Mcp.active_tool_names at 1. simpl.
      by rewrite fmap_app, definitions_of_names_B.
    + rewrite lookup_alter_eq. by destruct (Mcp.LOADER_STATE st !! srv).
    + intros other Hne. by rewrite lookup_alter_ne.
    + intros s. destruct (decide (srv = s)) as [->|Hne].
      * rewrite lookup_alter_eq. by destruct (Mcp.LOADER_STATE st !! s).
      * by rewrite lookup_alter_ne.
  - rewrite load_tools_refused by done. exists []. rewrite app_nil_r.
    split; [done|]. split; [|done].
    destruct (Mcp.LOADER_STATE st !! srv); [|done]. simpl. by rewrite app_nil_r.
Qed.

(** X21.  With every binding registered under its own name, a
    [load_tools] request without repeated names keeps the active tools free
    of repeated names. *)
Theorem load_tools_keeps_names_distinct (st : Mcp.State)
    (servers : option (list string)) (names : list string) (srv : string) :
  Mcp.registered_by_name (Mcp.TOOL_REGISTRY st) →
  NoDup names →
  NoDup (Mcp.active_tool_names st) →
  NoDup (Mcp.active_tool_names
           (fst (Mcp.loader_execute st "load_tools" servers (Some names) (Some srv)))).
Proof.
  intros Hwf Hnames Hact.
  destruct (load_tools_checks_dec st names srv) as [(H1 & H2 & H3 & H4)|Hnot].
  - rewrite load_tools_by_fate by done.
    unfold Mcp.active_tool_names at 1. simpl.
    rewrite fmap_app, definitions_of_names_B by done.
    apply NoDup_app. split; [exact Hact|]. split.
    + intros x Hx Hin. apply activated_of_spec_B in Hin as (_ & Hnot & _).
      by apply Hnot.
    + eapply sublist_NoDup; [exact Hnames|apply activated_of_sublist_B].
  - by rewrite load_tools_refused.
Qed.

(** X22.  [load_tools] never activates a tool of another server: every
    definition it appends to the active tools is the definition of a
    requested name that the registry binds to a tool of the given server. *)
Theorem load_tools_activates_own_tools_only (st : Mcp.State)
    (servers : option (list string)) (names : list string) (srv : string) :
  ∃ added,
    Mcp.active_tools
      (fst (Mcp.loader_execute st "load_tools" servers (Some names) (Some srv))) =
    Mcp.active_tools st ++ added ∧
    Forall (λ d, ∃ n t, n ∈ names ∧ Mcp.TOOL_REGISTRY st !! n = Some t ∧
                        Mcp.server t = Some srv ∧ d = Mcp.definition t) added.
Proof.
  destruct (load_tools_checks_dec st names srv) as [(H1 & H2 & H3 & H4)|Hnot].
  - rewrite load_tools_by_fate by done. simpl. eexists. split; [reflexivity|].
    apply definitions_of_owned.
  - rewrite load_tools_refused by done. exists []. by rewrite app_nil_r.
Qed.

Lemma sample_mcp_registry_by_name :
  Mcp.registered_by_name (Mcp.TOOL_REGISTRY Sample.mcp_state_summaries).
Proof.
  change (Mcp.TOOL_REGISTRY Sample.mcp_state_summaries)
    with (Mcp.register Sample.mcp_loader_tool
            (Mcp.list_tools Sample.call_tool "github"
               [Sample.list_repos; Sample.search_code] ∅)).
  apply register_by_name_B, list_tools_by_name, mcp_empty_by_name.
Qed.

Lemma load_tools_accounts_witness :
  ∃ rep,
    snd (Mcp.loader_execute Sample.mcp_state_summaries "load_tools" None
           (Some ["list_repos"; "get_figma_data"]) (Some "github")) =
    Mcp.render_report "github" rep ∧
    (length (Mcp.activated rep) + length (Mcp.failed rep) +
     length (Mcp.errors rep) = 2)%nat.
Proof.
  destruct (load_tools_accounts Sample.mcp_state_summaries None
              ["list_repos"; "get_figma_data"] "github")
    as (rep & Hrep & _ & Hlen & _).
  - discriminate.
  - discriminate.
  - reflexivity.
  - by eexists.
  - exists rep. by split.
Defined.

Lemma load_tools_keeps_lists_in_step_witness :
  Mcp.registered_by_name (Mcp.TOOL_REGISTRY Sample.mcp_state_summaries) ∧
  ∃ added,
    Mcp.active_tool_names
      (fst (Mcp.loader_execute Sample.mcp_state_summaries "load_tools" None
              (Some ["list_repos"; "get_figma_data"]) (Some "github"))) =
    Mcp.active_tool_names Sample.mcp_state_summaries ++ added.
Proof.
  split; [exact sample_mcp_registry_by_name|].
  destruct (load_tools_keeps_lists_in_step Sample.mcp_state_summaries None
              ["list_repos"; "get_figma_data"] "github" sample_mcp_registry_by_name)
    as (added & Hnames & _).
  by exists added.
Defined.

Lemma load_tools_keeps_names_distinct_witness :
  Mcp.registered_by_name (Mcp.TOOL_REGISTRY Sample.mcp_state_summaries) ∧
  NoDup ["list_repos"; "get_figma_data"] ∧
  NoDup (Mcp.active_tool_names Sample.mcp_state_summaries) ∧
  NoDup (Mcp.active_tool_names
           (fst (Mcp.loader_execute Sample.mcp_state_summaries "load_tools" None
                   (Some ["list_repos"; "get_figma_data"]) (Some "github")))).
Proof.
  assert (H2 : NoDup ["list_repos"; "get_figma_data"]).
  { apply NoDup_cons. split; [|apply NoDup_singleton].
    intros Hin. apply list_elem_of_In in Hin. simpl in Hin.
    destruct Hin as [Heq|[]]. discriminate Heq. }
  assert (H3 : NoDup (Mcp.active_tool_names Sample.mcp_state_summaries))
    by apply NoDup_singleton.
  split; [exact sample_mcp_registry_by_name|]. split; [exact H2|]. split; [exact H3|].
  exact (load_tools_keeps_names_distinct Sample.mcp_state_summaries None _ "github"
           sample_mcp_registry_by_name H2 H3).
Defined.

Lemma requests_offer_loader_witness :
  FunctionCalling.fn_name (FunctionCalling.definition Sample.loader_tool) = "loader" ∧
  Mcp.fn_name (Mcp.definition Sample.mcp_loader_tool) = "loader" ∧
  Forall (λ names, "loader" ∈ names)
    ((λ r, FunctionCalling.fn_name <$> FunctionCalling.request_tools r) <$>
     FunctionCalling.requests
       (FunctionCalling.main Sample.json_loads Sample.briefs Sample.loader_tool
          Sample.replies Sample.module_state)).
Proof.
  split; [reflexivity|]. split; [reflexivity|].
  exact (proj1 (proj1 (requests_offer_loader Sample.json_loads Sample.briefs
                         Sample.bind_loader_arguments Sample.generate_loader_description
                         Sample.loader_tool Sample.mcp_loader_tool Sample.replies
                         Sample.module_state Sample.mcp_empty eq_refl eq_refl))).
Defined.

(** ** [load_tool_summaries] on known servers *)

Lemma load_summaries_loop_known (servers : list string)
    (ls : gmap string Mcp.ServerState) (loaded : list string) :
  Forall (λ s, is_Some (ls !! s)) servers →
  Mcp.load_summaries_loop servers ls loaded =
  (Mcp.mark_all servers ls,
   match loaded ++ servers with
   | [] => "No tool summaries loaded."
   | _ => "Loaded tool summaries for servers: " +:+ join ", " (loaded ++ servers) +:+ "."
   end).
Proof.
  revert ls loaded. induction servers as [|a servers IH]; intros ls loaded Hknown.
  - simpl. by rewrite app_nil_r.
  - apply Forall_cons in Hknown as [[x Ha] Hknown]. simpl. rewrite Ha.
    rewrite IH.
    + by rewrite <- app_assoc.
    + eapply Forall_impl; [exact Hknown|]. intros s Hs. simpl in Hs.
      rewrite lookup_alter. case_decide; [|done]. rewrite Ha. by eexists.
Qed.

Lemma mark_all_again (servers : list string) (ls : gmap string Mcp.ServerState) :
  Mcp.mark_all servers (Mcp.mark_all servers ls) = Mcp.mark_all servers ls.
Proof.
  apply map_eq. intros s. rewrite !lookup_mark_all.
  case_bool_decide; [|done]. apply mark_twice.
Qed.

(** X23.  [load_tool_summaries] on a non-empty list of servers that are
    all known marks the summaries of exactly these servers as loaded,
    leaves everything else as it was, names the servers in its answer, and
    can be repeated: a second call gives the same state and the same
    answer. *)
Theorem load_tool_summaries_known (st : Mcp.State) (servers : list string)
    (tool_names : option (list string)) (srv : option string) :
  servers ≠ [] →
  Forall (λ s, is_Some (Mcp.LOADER_STATE st !! s)) servers →
  let out := Mcp.loader_execute st "load_tool_summaries" (Some servers) tool_names srv in
  snd out = "Loaded tool summaries for servers: " +:+ join ", " servers +:+ "." ∧
  (∀ s, Mcp.LOADER_STATE (fst out) !! s =
        if bool_decide (s ∈ servers)
        then Mcp.mark_summaries_loaded <$> Mcp.LOADER_STATE st !! s
        else Mcp.LOADER_STATE st !! s) ∧
  Mcp.active_tools (fst out) = Mcp.active_tools st ∧
  Mcp.TOOL_REGISTRY (fst out) = Mcp.TOOL_REGISTRY st ∧
  Mcp.loader_execute (fst out) "load_tool_summaries" (Some servers) tool_names srv = out.
Proof.
  intros Hne Hknown out. subst out.
  assert (Hrun : ∀ st0, Forall (λ s, is_Some (Mcp.LOADER_STATE st0 !! s)) servers →
            Mcp.loader_execute st0 "load_tool_summaries" (Some servers) tool_names srv =
            (Mcp.set_loader_state st0 (Mcp.mark_all servers (Mcp.LOADER_STATE st0)),
             "Loaded tool summaries for servers: " +:+ join ", " servers +:+ ".")).
  { intros st0 Hk. unfold Mcp.loader_execute.
    change (String.eqb "load_tool_summaries" "load_tool_summaries") with true.
    cbv iota. destruct servers as [|a l]; [done|].
    change (Mcp.falsy_list (Some (a :: l))) with false. cbv iota.
    simpl default. by rewrite load_summaries_loop_known. }
  rewrite (Hrun st Hknown). simpl.
  split; [done|]. split; [apply lookup_mark_all|]. split; [done|]. split; [done|].
  rewrite Hrun.
  - simpl. by rewrite mark_all_again.
  - simpl. eapply Forall_impl; [exact Hknown|]. intros s [x Hs]. simpl.
    rewrite lookup_mark_all, Hs. by case_bool_decide; eexists.
Qed.

Lemma load_tool_summaries_known_witness :
  Forall (λ s, is_Some (Mcp.LOADER_STATE Sample.mcp_state !! s)) ["github"] ∧
  snd (Mcp.loader_execute Sample.mcp_state "load_tool_summaries" (Some ["github"])
         None None) =
  "Loaded tool summaries for servers: github.".
Proof.
  assert (Hknown : Forall (λ s, is_Some (Mcp.LOADER_STATE Sample.mcp_state !! s))
                          ["github"]).
  { constructor; [|constructor]. exists Mcp.initial_server_state. reflexivity. }
  split; [exact Hknown|].
  refine (proj1 (load_tool_summaries_known Sample.mcp_state ["github"] None None _ Hknown)).
  discriminate.
Defined.

(** ** Listing tools and starting servers *)

Lemma most_recent_fmap {A B} (g : A → B) (name_of : B → string) (n : string)
    (l : list A) :
  Spec.most_recent name_of n (g <$> l) = g <$> Spec.most_recent (λ x, name_of (g x)) n l.
Proof.
  induction l as [|a l IH]; [done|]. rewrite fmap_cons. simpl. rewrite IH.
  destruct (Spec.most_recent _ n l); simpl; [done|]. by case_bool_decide.
Qed.

Lemma list_tools_as_register_all
    (call_tool : string → string → list (string * pyval) → result string)
    (srv : string) (listed : list Mcp.McpTool) (reg : gmap string Mcp.Tool) :
  Mcp.list_tools call_tool srv listed reg =
  Mcp.register_all (Mcp.server_tool call_tool srv <$> listed) reg.
Proof.
  revert reg. unfold Mcp.list_tools, Mcp.register_all.
  induction listed as [|a l IH]; intros reg; [done|]. simpl. apply IH.
Qed.

(** X24.  After a server's tools are listed, a name the server listed is
    bound to the last descriptor listed under it, as a tool of that server
    that proxies the call; any other name keeps the binding it had. *)
Theorem list_tools_last_listed_wins
    (call_tool : string → string → list (string * pyval) → result string)
    (srv : string) (listed : list Mcp.McpTool) (reg : gmap string Mcp.Tool)
    (n : string) :
  Mcp.list_tools call_tool srv listed reg !! n =
  match Spec.most_recent Mcp.name n listed with
  | Some tool => Some (Mcp.server_tool call_tool srv tool)
  | None => reg !! n
  end.
Proof.
  rewrite list_tools_as_register_all, lookup_register_all_B, most_recent_fmap.
  change (λ x, Mcp.fn_name (Mcp.definition (Mcp.server_tool call_tool srv x)))
    with Mcp.name.
  by destruct (Spec.most_recent Mcp.name n listed).
Qed.

Lemma register_all_app_B (l1 l2 : list Mcp.Tool) (reg : gmap string Mcp.Tool) :
  Mcp.register_all (l1 ++ l2) reg = Mcp.register_all l2 (Mcp.register_all l1 reg).
Proof. unfold Mcp.register_all. apply foldl_app. Qed.

Lemma load_servers_registry
    (connect : list string → string → Mcp.ServerConfig → Mcp.Session)
    (call_tool : string → string → list (string * pyval) → result string)
    (abandoned : list string) (servers : list (string * Mcp.ServerConfig))
    (st : Mcp.State) :
  Mcp.TOOL_REGISTRY (Mcp.load_servers connect call_tool abandoned servers st).1 =
  Mcp.register_all
    ((λ p, Mcp.server_tool call_tool (fst p) (snd p)) <$>
     (Mcp.passes connect abandoned servers ≫= Mcp.listed_by))
    (Mcp.TOOL_REGISTRY st).
Proof.
  revert abandoned st. induction servers as [|[s c] rest IH]; intros abandoned st;
    [done|].
  destruct (load_servers_pass connect call_tool abandoned s c rest st)
    as [(l & Hc & -> & ->)|[(e & Hc & He & -> & ->)|(e & Hc & He & -> & ->)]];
    rewrite bind_cons, fmap_app, register_all_app_B.
  - rewrite IH. simpl. f_equal.
    rewrite list_tools_as_register_all. f_equal.
    unfold Mcp.listed_by. simpl. by rewrite <- list_fmap_compose.
  - rewrite IH. f_equal. unfold Mcp.listed_by. simpl.
    by destruct (connect abandoned s c).
  - unfold Mcp.listed_by. simpl. by destruct (connect abandoned s c).
Qed.

(** X25.  When [load_mcp_tools] returns, a tool name is bound to the
    tool of the last server, in the order of the configuration, that
    started and listed it (and there to the last descriptor listed under
    the name); a name no started server listed keeps the binding it had.
    A name listed by two servers therefore belongs to the later one only. *)
Theorem load_mcp_tools_later_server_wins
    (connect : list string → string → Mcp.ServerConfig → Mcp.Session)
    (call_tool : string → string → list (string * pyval) → result string)
    (MCP_SERVERS : list (string * Mcp.ServerConfig)) (st st' : Mcp.State) :
  Mcp.load_mcp_tools connect call_tool MCP_SERVERS st = (st', Ret tt) →
  ∀ n, Mcp.TOOL_REGISTRY st' !! n =
       match Spec.most_recent (λ p, Mcp.name (snd p)) n
               (Mcp.started_tools connect MCP_SERVERS) with
       | Some p => Some (Mcp.server_tool call_tool (fst p) (snd p))
       | None => Mcp.TOOL_REGISTRY st !! n
       end.
Proof.
  intros Hload n.
  pose proof (load_servers_registry connect call_tool [] MCP_SERVERS st) as Hreg.
  unfold Mcp.load_mcp_tools in Hload. rewrite Hload in Hreg. simpl in Hreg.
  rewrite Hreg, lookup_register_all_B, most_recent_fmap.
  change (λ x, Mcp.fn_name (Mcp.definition
                              (Mcp.server_tool call_tool (fst x) (snd x))))
    with (λ p : string * Mcp.McpTool, Mcp.name (snd p)).
  unfold Mcp.started_tools.
  by destruct (Spec.most_recent _ n (Mcp.passes connect [] MCP_SERVERS ≫= Mcp.listed_by)).
Qed.

(** Both servers of the program start and list a [search_code]: the name
    is bound to the tool of Figma, the later server. *)
Lemma load_mcp_tools_later_server_wins_witness :
  ∃ st',
    Mcp.load_mcp_tools Sample.both_up Sample.call_tool Sample.MCP_SERVERS
      Sample.mcp_empty = (st', Ret tt) ∧
    Mcp.TOOL_REGISTRY st' !! "search_code" =
    Some (Mcp.server_tool Sample.call_tool "figma" Sample.figma_search) ∧
    Mcp.TOOL_REGISTRY st' !! "list_repos" =
    Some (Mcp.server_tool Sample.call_tool "github" Sample.list_repos).
Proof.
  eexists. split; [reflexivity|].
  split;
    rewrite (load_mcp_tools_later_server_wins Sample.both_up Sample.call_tool
               Sample.MCP_SERVERS Sample.mcp_empty _ eq_refl);
    reflexivity.
Defined.

(** ** Disclosure right after the start *)





(** ** Failures that are caught *)

Lemma most_recent_elem {T} (name_of : T → string) (n : string) (l : list T) (y : T) :
  Spec.most_recent name_of n l = Some y → y ∈ l ∧ name_of y = n.
Proof.
  induction l as [|a l IH]; intros Hy; [done|]. simpl in Hy.
  destruct (Spec.most_recent name_of n l) as [w|].
  - injection Hy as <-. destruct (IH eq_refl) as [? ?].
    split; [by apply list_elem_of_further|done].
  - case_bool_decide; [|done]. injection Hy as <-.
    split; [apply list_elem_of_here|done].
Qed.

Lemma most_recent_found {T} (name_of : T → string) (n : string) (l : list T) (x : T) :
  x ∈ l → name_of x = n →
  ∃ y, Spec.most_recent name_of n l = Some y ∧ y ∈ l ∧ name_of y = n.
Proof.
  intros Hin Hx.
  destruct (Spec.most_recent name_of n l) as [y|] eqn:Hy.
  - exists y. split; [done|]. by eapply most_recent_elem.
  - exfalso. induction l as [|a l IH]; [by apply elem_of_nil in Hin|].
    simpl in Hy. destruct (Spec.most_recent name_of n l) as [w|]; [done|].
    case_bool_decide as Ha; [done|].
    apply elem_of_cons in Hin as [->|Hin]; [done|by apply IH].
Qed.

Lemma passes_all_tried
    (connect : list string → string → Mcp.ServerConfig → Mcp.Session)
    (abandoned : list string) (servers : list (string * Mcp.ServerConfig)) :
  Forall (λ pass, ∀ e, Mcp.failure pass.2 = Some e → is_Exception e = true)
    (Mcp.passes connect abandoned servers) →
  (Mcp.passes connect abandoned servers).*1 = servers.*1.
Proof.
  revert abandoned. induction servers as [|[s c] rest IH]; intros abandoned Hall;
    [done|].
  cbn [Mcp.passes] in Hall |- *. apply Forall_cons in Hall as [Hhead Hall].
  simpl in Hhead. rewrite !fmap_cons. simpl. f_equal.
  destruct (Mcp.failure (connect abandoned s c)) as [e|]; [|by apply IH].
  rewrite (Hhead e eq_refl) in Hall |- *. by apply IH.
Qed.

(** X30.  [load_mcp_tools] isolates the failures that are [Exception]s.
    When no pass of its loop ends with an exception of another kind, the
    routine returns and every configured server was tried, in order.  A
    server that started has its manager, with the tools it listed, and a
    fresh loader state entry; each tool it listed is bound, under its name,
    to a tool that a started server listed under that name.  A server that
    failed has the manager and loader state entries it had before.  Every
    binding added is a tool listed by a server that started. *)
Theorem load_mcp_tools_isolates_exceptions
    (connect : list string → string → Mcp.ServerConfig → Mcp.Session)
    (call_tool : string → string → list (string * pyval) → result string)
    (MCP_SERVERS : list (string * Mcp.ServerConfig)) (st : Mcp.State) :
  NoDup MCP_SERVERS.*1 →
  Forall (λ pass, ∀ e, Mcp.failure pass.2 = Some e → is_Exception e = true)
    (Mcp.passes connect [] MCP_SERVERS) →
  ∃ st', Mcp.load_mcp_tools connect call_tool MCP_SERVERS st = (st', Ret tt) ∧
    (Mcp.passes connect [] MCP_SERVERS).*1 = MCP_SERVERS.*1 ∧
    (∀ srv listed,
       (srv, Mcp.Listed listed) ∈ Mcp.passes connect [] MCP_SERVERS →
       Mcp.LOADER_STATE st' !! srv = Some Mcp.initial_server_state ∧
       (∃ cfg, (srv, cfg) ∈ MCP_SERVERS ∧
          Mcp.MCP_SERVER_MANAGERS st' !! srv =
          Some {| Mcp.server_name := srv; Mcp.server_config := cfg;
                  Mcp.tools := listed |}) ∧
       ∀ tool, tool ∈ listed →
         ∃ srv' tool',
           (srv', tool') ∈ Mcp.started_tools connect MCP_SERVERS ∧
           Mcp.name tool' = Mcp.name tool ∧
           Mcp.TOOL_REGISTRY st' !! Mcp.name tool =
           Some (Mcp.server_tool call_tool srv' tool')) ∧
    (∀ srv outcome e,
       (srv, outcome) ∈ Mcp.passes connect [] MCP_SERVERS →
       Mcp.failure outcome = Some e →
       Mcp.LOADER_STATE st' !! srv = Mcp.LOADER_STATE st !! srv ∧
       Mcp.MCP_SERVER_MANAGERS st' !! srv = Mcp.MCP_SERVER_MANAGERS st !! srv) ∧
    (∀ n t,
       Mcp.TOOL_REGISTRY st' !! n = Some t →
       Mcp.TOOL_REGISTRY st !! n = Some t ∨
       ∃ srv listed tool,
         (srv, Mcp.Listed listed) ∈ Mcp.passes connect [] MCP_SERVERS ∧
         tool ∈ listed ∧ t = Mcp.server_tool call_tool srv tool).
Proof.
  intros Hdup Hall.
  exists (Mcp.load_servers connect call_tool [] MCP_SERVERS st).1.
  split.
  { unfold Mcp.load_mcp_tools.
    destruct (load_servers_returns connect call_tool [] MCP_SERVERS st Hall) as [Hret _].
    destruct (Mcp.load_servers connect call_tool [] MCP_SERVERS st) as [st' r].
    simpl in *. by rewrite Hret. }
  split; [by apply passes_all_tried|].
  split; [|split].
  - intros srv listed Hin.
    destruct (load_servers_started connect call_tool [] MCP_SERVERS st srv listed
                Hdup Hin) as [Hls Hman].
    split; [exact Hls|]. split; [exact Hman|].
    intros tool Htool.
    assert (Hst : (srv, tool) ∈ Mcp.started_tools connect MCP_SERVERS).
    { unfold Mcp.started_tools. apply list_elem_of_bind.
      exists (srv, Mcp.Listed listed). split; [|exact Hin].
      unfold Mcp.listed_by. simpl. apply list_elem_of_fmap. by exists tool. }
    destruct (most_recent_found (λ p : string * Mcp.McpTool, Mcp.name (snd p))
                (Mcp.name tool) _ (srv, tool) Hst eq_refl)
      as ([srv' tool'] & Hrecent & Hin' & Hname).
    exists srv', tool'. split; [exact Hin'|]. split; [exact Hname|].
    rewrite load_servers_registry, lookup_register_all_B, most_recent_fmap.
    change (λ x, Mcp.fn_name (Mcp.definition
                                (Mcp.server_tool call_tool (fst x) (snd x))))
      with (λ p : string * Mcp.McpTool, Mcp.name (snd p)).
    fold (Mcp.started_tools connect MCP_SERVERS). by rewrite Hrecent.
  - intros srv outcome e Hin Hfail.
    apply load_servers_other. intros listed Hl.
    rewrite (passes_one_outcome connect [] MCP_SERVERS srv _ _ Hdup Hin Hl) in Hfail.
    discriminate Hfail.
  - intros n t Hn. by apply load_servers_origin in Hn.
Qed.

(** The servers of the program with the command of GitHub not found and
    Figma starting: the Figma tool is registered, GitHub has no loader
    state entry. *)
Lemma load_mcp_tools_isolates_exceptions_witness :
  NoDup Sample.MCP_SERVERS.*1 ∧
  ∃ st', Mcp.load_mcp_tools Sample.figma_up Sample.call_tool Sample.MCP_SERVERS
           Sample.mcp_empty = (st', Ret tt) ∧
         Mcp.LOADER_STATE st' !! "figma" = Some Mcp.initial_server_state ∧
         Mcp.LOADER_STATE st' !! "github" = None.
Proof.
  assert (Hdup : NoDup Sample.MCP_SERVERS.*1).
  { simpl. apply NoDup_cons. split.
    - intros Hin. apply list_elem_of_In in Hin. simpl in Hin.
      destruct Hin as [Heq|[]]. discriminate Heq.
    - apply NoDup_singleton. }
  split; [exact Hdup|].
  destruct (load_mcp_tools_isolates_exceptions Sample.figma_up Sample.call_tool
              Sample.MCP_SERVERS Sample.mcp_empty Hdup)
    as (st' & Hload & _ & Hstarted & Hfailed & _).
  { change (Mcp.passes Sample.figma_up [] Sample.MCP_SERVERS)
      with [("github", Mcp.InitializeFails (OtherError "spawn failed"));
            ("figma", Mcp.Listed [Sample.get_figma_data])].
    constructor; [|constructor; [|constructor]]; simpl; intros e He.
    - injection He as <-. reflexivity.
    - discriminate He. }
  exists st'. split; [exact Hload|]. split.
  - apply (Hstarted "figma" [Sample.get_figma_data]).
    apply list_elem_of_further, list_elem_of_here.
  - destruct (Hfailed "github" (Mcp.InitializeFails (OtherError "spawn failed"))
                (OtherError "spawn failed")) as [Hls _].
    + apply list_elem_of_here.
    + reflexivity.
    + rewrite Hls. reflexivity.
Defined.

(** ** Refreshing the description of the loader *)

(** X27.  Refreshing the loader's description rewrites the description
    of the active entries named [loader] and nothing else: the other
    entries, the order, the loader state and the briefs are kept, the names
    do not change, every registry binding whose definition is not named
    [loader] is kept, and a second refresh changes nothing more. *)
Theorem refresh_touches_loader_description_only
    (describe : gmap string pyval → gmap string Mcp.ServerState → string)
    (st : Mcp.State) :
  let st' := Mcp.refresh_loader_tool_description describe st in
  Mcp.refresh_loader_tool_description describe st' = st' ∧
  Mcp.active_tool_names st' = Mcp.active_tool_names st ∧
  (∀ i d, Mcp.active_tools st !! i = Some d → Mcp.fn_name d ≠ "loader" →
          Mcp.active_tools st' !! i = Some d) ∧
  (∀ i d, Mcp.active_tools st !! i = Some d → Mcp.fn_name d = "loader" →
          Mcp.active_tools st' !! i =
          Some (Mcp.set_description d
                  (describe (Mcp.SERVER_BRIEFS st) (Mcp.LOADER_STATE st)))) ∧
  (∀ n t, Mcp.TOOL_REGISTRY st !! n = Some t →
          Mcp.fn_name (Mcp.definition t) ≠ "loader" →
          Mcp.TOOL_REGISTRY st' !! n = Some t) ∧
  Mcp.LOADER_STATE st' = Mcp.LOADER_STATE st ∧
  Mcp.SERVER_BRIEFS st' = Mcp.SERVER_BRIEFS st.
Proof.
  intros st'. subst st'. split; [|split; [|split; [|split]]].
  - unfold Mcp.refresh_loader_tool_description, Mcp.set_active_tools. simpl.
    f_equal. rewrite <- list_fmap_compose. apply list_fmap_ext.
    intros i d _. simpl.
    destruct (String.eqb (Mcp.fn_name d) "loader") eqn:Hd; simpl; by rewrite Hd.
  - apply refresh_keeps_names.
  - intros i d Hi Hd. unfold Mcp.refresh_loader_tool_description. simpl.
    rewrite list_lookup_fmap, Hi. simpl.
    apply String.eqb_neq in Hd. by rewrite Hd.
  - intros i d Hi Hd. unfold Mcp.refresh_loader_tool_description. simpl.
    rewrite list_lookup_fmap, Hi. simpl. by rewrite Hd.
  - done.
Qed.

(** ** Creating the loader of the server program *)

Section create_loader_tool_B.
Variable json_loads : string → option pyval.
Variable strip : string → string.
Variable hashable_descriptors : bool.
Variable respond : string → Completion.
Variable describe : gmap string pyval → gmap string Mcp.ServerState → result string.

Lemma brief_servers_spec (server_names : list string) (st st1 : Mcp.State) :
  Mcp.brief_servers json_loads strip hashable_descriptors respond server_names st =
  (st1, Ret tt) →
  Mcp.TOOL_REGISTRY st1 = Mcp.TOOL_REGISTRY st ∧
  Mcp.active_tools st1 = Mcp.active_tools st ∧
  Mcp.MCP_SERVER_MANAGERS st1 = Mcp.MCP_SERVER_MANAGERS st ∧
  Mcp.LOADER_STATE st1 = Mcp.LOADER_STATE st ∧
  (∀ s, s ∉ server_names → Mcp.SERVER_BRIEFS st1 !! s = Mcp.SERVER_BRIEFS st !! s) ∧
  (∀ s state, s ∈ server_names → Mcp.LOADER_STATE st !! s = Some state →
              Mcp.descriptions_loaded state = true →
              is_Some (Mcp.SERVER_BRIEFS st1 !! s)).
Proof.
  revert st. induction server_names as [|a rest IH]; intros st Hrun.
  - injection Hrun as <-. repeat split; try done.
    intros s state Hin. by apply elem_of_nil in Hin.
  - cbn [Mcp.brief_servers] in Hrun.
    destruct (Mcp.LOADER_STATE st !! a) as [sa|] eqn:Ha; [|done].
    destruct (Mcp.descriptions_loaded sa) eqn:Hd.
    + destruct (Mcp.MCP_SERVER_MANAGERS st !! a) as [manager|]; [|done].
      destruct (Mcp.generate_briefs _ _ _ _ _ _ _) as [briefs|e]; [|done].
      destruct (IH _ Hrun) as (H1 & H2 & H3 & H4 & H5 & H6). simpl in *.
      split; [done|]. split; [done|]. split; [done|]. split; [done|]. split.
      * intros s Hs. apply not_elem_of_cons in Hs as [Hne Hs].
        rewrite (H5 s Hs). by rewrite lookup_insert_ne.
      * intros s state Hin Hs Hloaded.
        destruct (decide (s ∈ rest)) as [Hrest|Hrest]; [by eapply H6|].
        apply elem_of_cons in Hin as [->|?]; [|done].
        rewrite (H5 a Hrest), lookup_insert_eq. by eexists.
    + destruct (IH _ Hrun) as (H1 & H2 & H3 & H4 & H5 & H6).
      split; [done|]. split; [done|]. split; [done|]. split; [done|]. split.
      * intros s Hs. apply not_elem_of_cons in Hs as [Hne Hs]. by apply H5.
      * intros s state Hin Hs Hloaded.
        apply elem_of_cons in Hin as [->|?]; [congruence|by eapply H6].
Qed.
End create_loader_tool_B.

(** X28.  When [create_loader_tool] of the server program returns, the
    loader is registered under the name [loader] as a tool of no server,
    every server of the loader state whose descriptions are loaded has its
    briefs stored, and the active tools, the managers and the loader state
    are untouched.  Being a tool of no server, the loader is never
    activated by [load_tools], whatever server is named. *)
Theorem create_loader_tool_registers_loader (json_loads : string → option pyval)
    (strip : string → string) (hashable_descriptors : bool)
    (respond : string → Completion)
    (describe : gmap string pyval → gmap string Mcp.ServerState → result string)
    (server_names : list string) (st st' : Mcp.State) (tool : Mcp.Tool) :
  Mcp.create_loader_tool json_loads strip hashable_descriptors respond describe
    server_names st = (st', Ret tool) →
  Mcp.TOOL_REGISTRY st' = Mcp.register tool (Mcp.TOOL_REGISTRY st) ∧
  Mcp.fn_name (Mcp.definition tool) = "loader" ∧
  Mcp.server tool = None ∧
  Mcp.active_tools st' = Mcp.active_tools st ∧
  Mcp.MCP_SERVER_MANAGERS st' = Mcp.MCP_SERVER_MANAGERS st ∧
  Mcp.LOADER_STATE st' = Mcp.LOADER_STATE st ∧
  (∀ s state, s ∈ server_names → Mcp.LOADER_STATE st !! s = Some state →
              Mcp.descriptions_loaded state = true →
              is_Some (Mcp.SERVER_BRIEFS st' !! s)) ∧
  (∀ srv names, "loader" ∉ Mcp.activated (Mcp.activation st' srv names).2).
Proof.
  intros Hcreate. unfold Mcp.create_loader_tool in Hcreate.
  destruct (Mcp.brief_servers _ _ _ _ _ _) as [st1 [[]|e]] eqn:Hbrief; [|done].
  destruct (describe _ _) as [description|e]; [|done].
  injection Hcreate as <- <-.
  destruct (brief_servers_spec _ _ _ _ _ _ _ Hbrief) as (H1 & H2 & H3 & H4 & H5 & H6).
  simpl. rewrite H1. repeat split; try done.
  intros srv names. unfold Mcp.activation.
  rewrite load_tools_loop_fates. simpl. intros Hin.
  apply activated_of_spec_B in Hin as (_ & _ & t & Ht & Hsrv).
  simpl in Ht. unfold Mcp.register in Ht. simpl in Ht.
  rewrite lookup_insert_eq in Ht. injection Ht as <-. done.
Qed.

Lemma create_loader_tool_registers_loader_witness :
  ∃ tool,
    Sample.mcp_created = (fst Sample.mcp_created, Ret tool) ∧
    Mcp.TOOL_REGISTRY (fst Sample.mcp_created) =
    Mcp.register tool (Mcp.TOOL_REGISTRY Sample.mcp_loaded) ∧
    Mcp.server tool = None.
Proof.
  exists {| Mcp.definition :=
              Mcp.LOADER_TOOL_DEFINITION "Dynamic Tool Loader for managing MCP tools.";
            Mcp.function := Mcp.LoaderFunction; Mcp.server := None |}.
  assert (H : Sample.mcp_created =
              (fst Sample.mcp_created,
               Ret {| Mcp.definition :=
                        Mcp.LOADER_TOOL_DEFINITION
                          "Dynamic Tool Loader for managing MCP tools.";
                      Mcp.function := Mcp.LoaderFunction; Mcp.server := None |}))
    by reflexivity.
  split; [exact H|].
  destruct (create_loader_tool_registers_loader Sample.json_loads Sample.strip true
              (λ _, ResponseContent None)
              (λ _ _, Ret "Dynamic Tool Loader for managing MCP tools.")
              ["github"] Sample.mcp_loaded _ _ H) as (Hreg & _ & Hsrv & _).
  by split.
Defined.

(** X29.  Whenever the brief generator of the server program has to
    fall back on its own summary (the response cannot be read, has no
    text, or the text is not JSON), the result holds no brief for any tool:
    the fallback asks the registry with the tool descriptors instead of
    their names, so it finds nothing, or raises [TypeError] when a
    descriptor cannot be hashed. *)
Theorem server_fallback_has_no_tool_briefs (json_loads : string → option pyval)
    (strip : string → string) (hashable_descriptors : bool)
    (reg : gmap string Mcp.Tool) (tools_list : list Mcp.McpTool)
    (mcp_server_name : string) (response : Completion) :
  mcp_server_name ≠ "" →
  omap (Mcp.owned_definition reg mcp_server_name) tools_list ≠ [] →
  response = ResponseMalformed ∨ response = ResponseContent None ∨
  response = ResponseContent (Some "") ∨
  (∃ text, response = ResponseContent (Some text) ∧ json_loads (strip text) = None) →
  Mcp.generate_briefs json_loads strip hashable_descriptors reg tools_list
    mcp_server_name response =
  if hashable_descriptors
  then Ret (PDict [("server_summary",
                    PStr (mcp_server_name +:+
                          " MCP server provides various tools for specific tasks."));
                   ("tool_briefs", PDict [])])
  else Raise TypeError.
Proof.
  intros Hname Hdefs Hresp. unfold Mcp.generate_briefs.
  destruct tools_list as [|t l]; [done|].
  apply String.eqb_neq in Hname. rewrite Hname.
  destruct (omap _ (t :: l)); [done|].
  assert (Hfb : Mcp.fallback hashable_descriptors reg (t :: l) mcp_server_name =
                if hashable_descriptors
                then Ret (PDict [("server_summary",
                                  PStr (mcp_server_name +:+
                                        " MCP server provides various tools for specific tasks."));
                                 ("tool_briefs", PDict [])])
                else Raise TypeError).
  { unfold Mcp.fallback. rewrite fallback_tool_briefs_empty by done.
    by destruct hashable_descriptors. }
  destruct Hresp as [->|[->|[->|(text & -> & Hload)]]]; try done.
  destruct (String.eqb text ""); [done|]. by rewrite Hload.
Qed.

Lemma server_fallback_has_no_tool_briefs_witness :
  Mcp.generate_briefs Sample.json_loads Sample.strip false
    (Mcp.TOOL_REGISTRY Sample.mcp_loaded) [Sample.list_repos; Sample.search_code]
    "github" (ResponseContent (Some "Sorry, I cannot produce JSON today.")) =
  Raise TypeError.
Proof.
  apply (server_fallback_has_no_tool_briefs Sample.json_loads Sample.strip false
           (Mcp.TOOL_REGISTRY Sample.mcp_loaded)
           [Sample.list_repos; Sample.search_code] "github").
  - discriminate.
  - discriminate.
  - right; right; right. eexists. split; reflexivity.
Defined.
